(** * Device session synchronization and webhook ingestion (wapi)

    A shallow embedding of the TypeScript sources

    - [src/lib/devicesService.ts]   (record store operations and normalizers),
    - [src/lib/fastify/app.ts]      (the [POST /whatsapp/webhook] handler and
                                     the application error handler),
    - [src/lib/fastify/routes/sessions.ts] (API-key pre-handler and the relay
                                     routes),

    followed by the properties of the device-session specification.

    Conventions.  JavaScript values are the inductive type [jv]; truthiness,
    property access, [||], [String(..)], [Array.prototype.join], [includes]
    and the one regular expression of the sources are written out.  The
    asynchronous handlers are run to completion one at a time; their effects
    (the Prisma tables, the module variable [lastWebhook], random draws
    and the clock) are threaded through a state-and-exception monad [M], in
    which a thrown exception keeps the writes already made.  Logging has no
    effect on any value and is omitted; the evaluation of a log argument is
    kept where it can throw.

    A handler is modelled from the point where the framework calls it: the
    request has passed the schema validation of its route, and the global
    pre-handler of [app.ts], which only refuses requests that carry a
    blacklisted session token, has let it through.  Failures of the
    database connection are not modelled; the errors of a Prisma call are
    those its arguments and the table contents determine (a value of the
    wrong type, a unique constraint, a missing record).

    The reply of a handler is the status it sets and the value it hands to
    [reply.send].  What the caller of a relay route receives is that value
    written under the response schema the route declares for the status
    ([on_wire]); the replies of the webhook route are stated as handed to
    [reply.send]. *)

From Stdlib Require Import String Ascii List ZArith Bool Lia DecimalString.
Import ListNotations.
Local Open Scope string_scope.
Local Open Scope Z_scope.

Set Implicit Arguments.

(* ------------------------------------------------------------------------- *)
(** ** JavaScript values                                                      *)
(* ------------------------------------------------------------------------- *)

Module JS.

(** A value as [JSON.parse] or the request parser yields it, plus
    [undefined].  Numbers are the integers; an object is the list of its
    own properties in insertion order. *)
#[warnings="-register-all"]
Inductive jv : Type :=
| JUndefined
| JNull
| JBool (b : bool)
| JNum (z : Z)
| JStr (s : string)
| JArr (items : list jv)
| JObj (fields : list (string * jv)).

(** ToBoolean. *)
Definition truthy (v : jv) : bool :=
  match v with
  | JUndefined | JNull => false
  | JBool b => b
  | JNum z => negb (z =? 0)
  | JStr s => negb (s =? "")%string
  | JArr _ | JObj _ => true
  end.

Definition nullish (v : jv) : bool :=
  match v with
  | JUndefined | JNull => true
  | _ => false
  end.

(** [a || b] on values whose evaluation has no effect. *)
Definition js_or (a b : jv) : jv := if truthy a then a else b.

(** [a && b]. *)
Definition js_and (a b : jv) : jv := if truthy a then b else a.

Fixpoint lookup (k : string) (fields : list (string * jv)) : option jv :=
  match fields with
  | [] => None
  | (k', v) :: rest => if (k =? k')%string then Some v else lookup k rest
  end.

(** [v.k] for a [v] that is neither [null] nor [undefined], and a [k] that
    no prototype defines: an own property of an object, [undefined]
    otherwise. *)
Definition member (v : jv) (k : string) : jv :=
  match v with
  | JObj fields =>
      match lookup k fields with
      | Some x => x
      | None => JUndefined
      end
  | _ => JUndefined
  end.

(** [v?.k]: [undefined] on [null] and [undefined]; these are also what
    [member] gives there, so the two agree as total functions and differ
    only in that [v.k] throws. *)
Definition opt_member (v : jv) (k : string) : jv :=
  if nullish v then JUndefined else member v k.

(** [{...o, k: x}] for an object [o]: an existing key keeps its place. *)
Fixpoint set_field (k : string) (x : jv) (fields : list (string * jv))
  : list (string * jv) :=
  match fields with
  | [] => [(k, x)]
  | (k', v) :: rest =>
      if (k =? k')%string then (k', x) :: rest
      else (k', v) :: set_field k x rest
  end.

Definition isArray (v : jv) : bool :=
  match v with JArr _ => true | _ => false end.

Definition is_string (v : jv) : bool :=
  match v with JStr _ => true | _ => false end.

(** [typeof v === 'object']: objects, arrays and [null]. *)
Definition typeof_object (v : jv) : bool :=
  match v with JNull | JArr _ | JObj _ => true | _ => false end.

(** [Object.keys(v).length] for a [v] that is not nullish: own enumerable
    keys, which for a string or an array are its indices. *)
Definition keys_length (v : jv) : nat :=
  match v with
  | JObj fields => List.length fields
  | JArr items => List.length items
  | JStr s => String.length s
  | _ => 0%nat
  end.

(** [v === true]. *)
Definition is_true (v : jv) : bool :=
  match v with JBool true => true | _ => false end.

Definition string_of_Z (z : Z) : string :=
  NilZero.string_of_int (Z.to_int z).

(** [String(v)]; an array is its elements joined by a comma, [null] and
    [undefined] elements printing as the empty string. *)
Fixpoint to_string (v : jv) : string :=
  match v with
  | JUndefined => "undefined"
  | JNull => "null"
  | JBool true => "true"
  | JBool false => "false"
  | JNum z => string_of_Z z
  | JStr s => s
  | JArr items =>
      String.concat ","
        (List.map (fun x => match x with
                            | JUndefined | JNull => ""
                            | _ => to_string x
                            end) items)
  | JObj _ => "[object Object]"
  end.

(** [items.join(sep)]. *)
Definition join (sep : string) (items : list jv) : string :=
  String.concat sep
    (List.map (fun x => if nullish x then "" else to_string x) items).

(** [s.includes(needle)]. *)
Fixpoint includes (needle s : string) : bool :=
  String.prefix needle s
  || match s with
     | EmptyString => false
     | String _ rest => includes needle rest
     end.

Definition is_digit (c : ascii) : bool :=
  let n := nat_of_ascii c in (48 <=? n)%nat && (n <=? 57)%nat.

(** First capture group of the leftmost match of [/(\d+)@/] in [s]: the
    whole run of digits in front of the first [@] that follows a digit.
    [run] is the run of digits that ends where [s] starts. *)
Fixpoint digits_before_at (run s : string) : option string :=
  match s with
  | EmptyString => None
  | String c rest =>
      if is_digit c then digits_before_at (run ++ String c EmptyString) rest
      else if (Ascii.eqb c "@"%char) && negb (run =? "")%string then Some run
      else digits_before_at "" rest
  end.

End JS.
Import JS.

Infix "|||" := js_or (at level 50, left associativity).

(* ------------------------------------------------------------------------- *)
(** ** The record store                                                       *)
(* ------------------------------------------------------------------------- *)

(** A row of [devices], with the columns [createDevice] writes. *)
Record Device : Type := mkDevice {
  d_uuid : string;
  d_key : string;
  d_sessionId : string;
  d_number : string;
  d_status : string;
  d_userId : string;
  d_updatedAt : Z
}.

(** A row of [messages]: the [data] object of [saveMessage]. *)
Record Message : Type := mkMessage {
  m_uuid : string;
  m_deviceKey : string;
  m_messageId : jv;
  m_read : jv;
  m_noTujuan : jv;
  m_text : jv;
  m_isGroup : jv;
  m_secure : jv;
  m_timestamp : jv;
  m_from : jv;
  m_fromMe : jv;
  m_to : jv;
  m_type : jv;
  m_updatedAt : Z
}.

(** The columns [saveContact] writes both when it creates and when it
    updates a row of [contacts]. *)
Record ContactFields : Type := mkContactFields {
  c_deviceKey : string;
  c_contactName : jv;
  c_isBusiness : jv;
  c_isGroup : jv;
  c_isUser : jv;
  c_name : jv;
  c_number : jv;
  c_serialized : jv;
  c_shortName : jv;
  c_businessProfile : jv;
  c_description : jv;
  c_email : jv;
  c_website : jv;
  c_address : jv;
  c_latitude : jv;
  c_longitude : jv;
  c_categories : jv;
  c_updatedAt : Z
}.

Record Contact : Type := mkContact {
  c_uuid : string;
  c_contactId : string;
  c_fields : ContactFields
}.

Record User : Type := mkUser { u_id : string }.

(** A row of [apikeys] with its included [users] relation. *)
Record ApiKey : Type := mkApiKey {
  k_token : string;
  k_status : bool;
  k_users : option User
}.

(** Everything a handler can read or change. [tick] counts the draws made
    from the platform (random numbers, uuids, clock readings). *)
Record World : Type := mkWorld {
  devices : list Device;
  messages : list Message;
  contacts : list Contact;
  apikeys : list ApiKey;
  lastWebhook : jv;
  tick : nat
}.

Definition with_devices (ds : list Device) (w : World) : World :=
  mkWorld ds (messages w) (contacts w) (apikeys w) (lastWebhook w) (tick w).
Definition with_messages (ms : list Message) (w : World) : World :=
  mkWorld (devices w) ms (contacts w) (apikeys w) (lastWebhook w) (tick w).
Definition with_contacts (cs : list Contact) (w : World) : World :=
  mkWorld (devices w) (messages w) cs (apikeys w) (lastWebhook w) (tick w).
Definition with_lastWebhook (v : jv) (w : World) : World :=
  mkWorld (devices w) (messages w) (contacts w) (apikeys w) v (tick w).
Definition bump (w : World) : World :=
  mkWorld (devices w) (messages w) (contacts w) (apikeys w) (lastWebhook w)
          (S (tick w)).

(** The response schemas the relay routes declare: every declared
    property is a [boolean] or a [string]. *)
Inductive PropertyType : Type :=
| TBoolean
| TString.

(** [{ type: "object", additionalProperties: true }], or
    [{ type: "object", properties: { ... } }]. *)
Inductive ResponseSchema : Type :=
| AnyObject
| Properties (props : list (string * PropertyType)).

(** What the code takes from outside the repository, as parameters.  The
    Prisma schema is not among the sources: the column types it declares
    are the two predicates [message_ok] and [contact_ok], the run-time
    validation Prisma applies to the [data] of a write.  The unique columns
    are those the sources query with [findUnique]: [sessionId] and [key] of
    [devices], [contactId] of [contacts].  [uuid_at], [random_at] and
    [now_at] are the results of the successive calls of [uuidv4()],
    [Math.floor(Math.random() * n)] (taken modulo [n]) and [new Date()].
    The serializer Fastify compiles from a response schema is not among
    the sources either: [coerced] is what it writes for a declared
    property whose value is not of the declared type, [scalar_sent] what
    the caller is sent for a payload that is a string, a number, a boolean
    or [undefined]. *)
Record Platform : Type := mkPlatform {
  message_ok : Message -> bool;
  contact_ok : ContactFields -> bool;
  uuid_at : nat -> string;
  random_at : nat -> nat;
  now_at : nat -> Z;
  coerced : PropertyType -> jv -> jv;
  scalar_sent : option ResponseSchema -> jv -> jv
}.

(* ------------------------------------------------------------------------- *)
(** ** The effect monad                                                       *)
(* ------------------------------------------------------------------------- *)

Inductive Err : Type :=
| TypeError            (* property access on null or undefined *)
| SyntaxError          (* JSON.parse, response.json() *)
| FetchFailed          (* fetch rejects *)
| PrismaValidation     (* a value of the wrong type in a query *)
| PrismaUnique         (* P2002, unique constraint *)
| PrismaNotFound.      (* P2025, record to update not found *)

Inductive Res (A : Type) : Type :=
| Ok (a : A)
| Throw (e : Err).
Arguments Throw {A} e.

Definition M (A : Type) : Type := World -> Res A * World.

Definition ret {A} (a : A) : M A := fun w => (Ok a, w).
Definition throw {A} (e : Err) : M A := fun w => (Throw e, w).
Definition bind {A B} (m : M A) (k : A -> M B) : M B :=
  fun w => match m w with
           | (Ok a, w') => k a w'
           | (Throw e, w') => (Throw e, w')
           end.
(** [try { m } catch (e) { h e }]. *)
Definition try_catch {A} (m : M A) (h : Err -> M A) : M A :=
  fun w => match m w with
           | (Ok a, w') => (Ok a, w')
           | (Throw e, w') => h e w'
           end.
Definition get_world : M World := fun w => (Ok w, w).
Definition modify (f : World -> World) : M unit := fun w => (Ok tt, f w).

Notation "x <- m ;; k" := (bind m (fun x => k))
  (at level 61, m at next level, right associativity).
Notation "m ;;; k" := (bind m (fun _ => k))
  (at level 61, right associativity).

(** [v.k] as a statement: throws on [null] and [undefined]. *)
Definition prop (v : jv) (k : string) : M jv :=
  if nullish v then throw TypeError else ret (member v k).

(* ------------------------------------------------------------------------- *)
(** ** src/lib/devicesService.ts                                              *)
(* ------------------------------------------------------------------------- *)

Section Server.

Variable P : Platform.

Definition uuidv4 : M string :=
  fun w => (Ok (uuid_at P (tick w)), bump w).

Definition new_Date : M Z :=
  fun w => (Ok (now_at P (tick w)), bump w).

(** [Math.floor(Math.random() * n)]. *)
Definition random_index (n : nat) : M nat :=
  fun w => (Ok (random_at P (tick w) mod n)%nat, bump w).

(** [s.charAt(i)]. *)
Definition charAt (s : string) (i : nat) : string :=
  match String.get i s with
  | Some c => String c EmptyString
  | None => ""
  end.

Definition chars : string := "ABCDEFGHIJKLMNOPQRSTUVWXYZ0123456789".

(** The loop of [generateDeviceKey], [n] rounds left. *)
Fixpoint generateDeviceKey_loop (n : nat) (result : string) : M string :=
  match n with
  | O => ret result
  | S n' =>
      i <- random_index (String.length chars) ;;
      generateDeviceKey_loop n' (result ++ charAt chars i)
  end.

Definition generateDeviceKey : M string := generateDeviceKey_loop 8 "".

(** *** Prisma queries *)

(** A [where] or [data] argument of a [String] column. *)
Definition string_arg (v : jv) : M string :=
  match v with
  | JStr s => ret s
  | _ => throw PrismaValidation
  end.

Definition find_device (sid : string) (ds : list Device) : option Device :=
  List.find (fun d => (d_sessionId d =? sid)%string) ds.

Definition find_contact (cid : string) (cs : list Contact) : option Contact :=
  List.find (fun c => (c_contactId c =? cid)%string) cs.

(** [prisma.devices.create({ data })]. *)
Definition devices_create (row : Device) : M Device :=
  w <- get_world ;;
  if List.existsb (fun d => (d_sessionId d =? d_sessionId row)%string
                            || (d_key d =? d_key row)%string) (devices w)
  then throw PrismaUnique
  else modify (with_devices (devices w ++ [row])) ;;; ret row.

(** [prisma.devices.findUnique({ where: { sessionId } })]. *)
Definition devices_findUnique (sessionId : jv) : M (option Device) :=
  sid <- string_arg sessionId ;;
  w <- get_world ;;
  ret (find_device sid (devices w)).

Definition set_status (sid status : string) (now : Z) (d : Device) : Device :=
  if (d_sessionId d =? sid)%string
  then mkDevice (d_uuid d) (d_key d) (d_sessionId d) (d_number d) status
                (d_userId d) now
  else d.

(** [prisma.devices.update({ where: { sessionId }, data: { status, updatedAt } })]. *)
Definition devices_update_status (sessionId : jv) (status : string) (now : Z)
  : M Device :=
  sid <- string_arg sessionId ;;
  w <- get_world ;;
  match find_device sid (devices w) with
  | None => throw PrismaNotFound
  | Some d =>
      modify (with_devices (List.map (set_status sid status now) (devices w))) ;;;
      ret (set_status sid status now d)
  end.

(** [prisma.messages.create({ data })]. *)
Definition messages_create (row : Message) : M Message :=
  if message_ok P row
  then w <- get_world ;;
       modify (with_messages (messages w ++ [row])) ;;; ret row
  else throw PrismaValidation.

(** [prisma.contacts.findUnique({ where: { contactId } })]. *)
Definition contacts_findUnique (contactId : string) : M (option Contact) :=
  w <- get_world ;;
  ret (find_contact contactId (contacts w)).

Definition set_fields (cid : string) (f : ContactFields) (c : Contact) : Contact :=
  if (c_contactId c =? cid)%string
  then mkContact (c_uuid c) (c_contactId c) f
  else c.

(** [prisma.contacts.update({ where: { contactId }, data })]. *)
Definition contacts_update (contactId : string) (data : ContactFields)
  : M Contact :=
  if contact_ok P data
  then w <- get_world ;;
       match find_contact contactId (contacts w) with
       | None => throw PrismaNotFound
       | Some c =>
           modify (with_contacts (List.map (set_fields contactId data) (contacts w))) ;;;
           ret (set_fields contactId data c)
       end
  else throw PrismaValidation.

(** [prisma.contacts.create({ data })]. *)
Definition contacts_create (row : Contact) : M Contact :=
  if contact_ok P (c_fields row)
  then w <- get_world ;;
       if List.existsb (fun c => (c_contactId c =? c_contactId row)%string)
                       (contacts w)
       then throw PrismaUnique
       else modify (with_contacts (contacts w ++ [row])) ;;; ret row
  else throw PrismaValidation.

(** *** Devices *)

Definition createDevice (sessionId userId number status : string) : M Device :=
  key <- generateDeviceKey ;;
  uuid <- uuidv4 ;;
  now <- new_Date ;;
  devices_create (mkDevice uuid key sessionId number status userId now).

Definition getDeviceBySessionId (sessionId : jv) : M (option Device) :=
  devices_findUnique sessionId.

Definition updateDeviceStatus (sessionId : jv) (status : string) : M Device :=
  now <- new_Date ;;
  devices_update_status sessionId status now.

(** *** Messages *)

(** The object [saveMessage] reads its fields from: [messageData._data],
    else [messageData.message._data], else [messageData.message], else
    [messageData] itself. *)
Definition select_message (messageData : jv) : jv :=
  if truthy (js_and messageData (member messageData "_data"))
  then member messageData "_data"
  else if truthy (js_and (js_and messageData (member messageData "message"))
                         (member (member messageData "message") "_data"))
  then member (member messageData "message") "_data"
  else if truthy (js_and messageData (member messageData "message"))
  then member messageData "message"
  else messageData.

(** The [data] of [prisma.messages.create] for a [message] that is not
    nullish. *)
Definition messageRecord (uuid deviceKey : string) (message : jv) (now : Z)
  : Message :=
  {| m_uuid := uuid;
     m_deviceKey := deviceKey;
     m_messageId := opt_member (member message "id") "_serialized"
                    ||| member message "id" ||| JStr "";
     m_read := member message "ack" ||| JNum 0;
     m_noTujuan := opt_member (member message "to") "user"
                   ||| member message "to" ||| JNull;
     m_text := member message "body" ||| member message "text" ||| JStr "";
     m_isGroup := member message "isGroup" ||| JBool false;
     m_secure := member message "isSentCagPollCreation" ||| JBool false;
     m_timestamp := member message "t" ||| member message "timestamp" ||| JNum 0;
     m_from := opt_member (member message "from") "user"
               ||| member message "from" ||| JNull;
     m_fromMe := member message "fromMe" ||| JBool false;
     m_to := opt_member (member message "to") "user"
             ||| member message "to" ||| JNull;
     m_type := member message "type" ||| JStr "";
     m_updatedAt := now |}.

Definition saveMessage (deviceKey : string) (messageData : jv) : M Message :=
  let message := select_message messageData in
  uuid <- uuidv4 ;;
  prop message "id" ;;;
  now <- new_Date ;;
  messages_create (messageRecord uuid deviceKey message now).

(** *** Contacts *)

(** [typeof v !== 'string' ? String(v) : v]. *)
Definition stringify_unless_string (v : jv) : string :=
  match v with
  | JStr s => s
  | _ => to_string v
  end.

(** [contact.id?._serialized || contact.id || contact.contactId ||
    contact.number], the part the filter of [saveContacts] and
    [saveContact] have in common. *)
Definition identity_chain (contact : jv) : jv :=
  opt_member (member contact "id") "_serialized"
  ||| member contact "id" ||| member contact "contactId"
  ||| member contact "number".

(** The [number] of [saveContact]. *)
Definition contact_number (contactData : jv) : jv :=
  let number := member contactData "number" ||| member contactData "phoneNumber"
                ||| member contactData "phone"
                ||| opt_member (member contactData "id") "user" ||| JNull in
  if negb (truthy number) && truthy (member contactData "id")
  then match member contactData "id" with
       | JStr id =>
           match digits_before_at "" id with
           | Some digits => JStr digits
           | None => number
           end
       | _ => number
       end
  else number.

(** [site => typeof site === 'string' ? site : site?.url]. *)
Definition site_url (site : jv) : jv :=
  if is_string site then site else opt_member site "url".

Definition contact_website (contactData : jv) : jv :=
  let bp := member contactData "businessProfile" in
  match opt_member bp "website" with
  | JArr sites =>
      JStr (join ", " (List.filter truthy (List.map site_url sites))) ||| JNull
  | JStr w => JStr w
  | w => w ||| member contactData "website" ||| JNull
  end.

Definition contact_categories (contactData : jv) : jv :=
  let bp := member contactData "businessProfile" in
  match opt_member bp "categories" with
  | JArr cats => JArr cats
  | c => c ||| member contactData "categories" ||| JNull
  end.

(** The [data] common to the update and the create of [saveContact], for a
    [contactData] that is not nullish. *)
Definition contactRecord (deviceKey : string) (contactData : jv) (now : Z)
  : ContactFields :=
  let bp := member contactData "businessProfile" in
  {| c_deviceKey := deviceKey;
     c_contactName := member contactData "name" ||| member contactData "contactName"
                      ||| member contactData "pushname" ||| JNull;
     c_isBusiness := member contactData "isBusiness" ||| JBool false;
     c_isGroup := member contactData "isGroup" ||| JBool false;
     c_isUser := member contactData "isUser" ||| JBool true;
     c_name := member contactData "name" ||| member contactData "pushname" ||| JNull;
     c_number := contact_number contactData;
     c_serialized := opt_member (member contactData "id") "_serialized"
                     ||| member contactData "id" ||| JNull;
     c_shortName := member contactData "shortName" ||| member contactData "shortname"
                    ||| JNull;
     c_businessProfile := bp ||| JNull;
     c_description := opt_member bp "description"
                      ||| member contactData "description" ||| JNull;
     c_email := opt_member bp "email" ||| member contactData "email" ||| JNull;
     c_website := contact_website contactData;
     c_address := opt_member bp "address" ||| member contactData "address" ||| JNull;
     c_latitude := opt_member bp "latitude" ||| member contactData "lat" ||| JNull;
     c_longitude := opt_member bp "longitude" ||| member contactData "lng" ||| JNull;
     c_categories := contact_categories contactData;
     c_updatedAt := now |}.

Definition saveContact (deviceKey : string) (contactData : jv) : M Contact :=
  uuid <- uuidv4 ;;
  prop contactData "id" ;;;
  let contactId :=
    stringify_unless_string (identity_chain contactData ||| JStr uuid) in
  existingContact <- contacts_findUnique contactId ;;
  match existingContact with
  | Some _ =>
      now <- new_Date ;;
      contacts_update contactId (contactRecord deviceKey contactData now)
  | None =>
      now <- new_Date ;;
      contacts_create
        (mkContact uuid contactId (contactRecord deviceKey contactData now))
  end.

(** One round of the loop of [saveContacts]: the body of its [try], and the
    [catch] that logs and goes on. *)
Definition saveContacts_step (deviceKey : string) (results : list Contact)
  (contact : jv) : M (list Contact) :=
  try_catch
    (prop contact "id" ;;;
     let contactId := stringify_unless_string (identity_chain contact ||| JStr "") in
     if includes "@c.us" contactId
     then result <- saveContact deviceKey contact ;;
          ret (results ++ [result])%list
     else ret results)
    (fun _ => ret results).

Fixpoint saveContacts_from (deviceKey : string) (results : list Contact)
  (contactsData : list jv) : M (list Contact) :=
  match contactsData with
  | [] => ret results
  | contact :: rest =>
      results' <- saveContacts_step deviceKey results contact ;;
      saveContacts_from deviceKey results' rest
  end.

Definition saveContacts (deviceKey : string) (contactsData : list jv)
  : M (list Contact) :=
  saveContacts_from deviceKey [] contactsData.


(* ------------------------------------------------------------------------- *)
(** ** src/lib/fastify/app.ts                                                 *)
(* ------------------------------------------------------------------------- *)

(** What [reply.send] is given: a JSON value, or the PNG rendering of a QR
    payload. *)
Inductive Payload : Type :=
| SendJson (v : jv)
| SendPng (qr : jv).

Record Reply : Type := mkReply {
  code : Z;
  payload : Payload
}.

Definition json_reply (status : Z) (v : jv) : Reply := mkReply status (SendJson v).

(** [process.env]: a variable is a string or is not set. *)
Record Env : Type := mkEnv {
  WHATSAPP_WEBHOOK_AUTH : option string;
  REMOTE_API_KEY : option string;
  REMOTE_URL_API : option string
}.

(** [a === b] on two values that are each a string or [undefined]. *)
Definition strict_eq (a b : option string) : bool :=
  match a, b with
  | Some x, Some y => (x =? y)%string
  | None, None => true
  | _, _ => false
  end.

(** The six [dataType]s of the status update, [[..].includes(dataType)]. *)
Definition lifecycle_types : list string :=
  ["qr"; "authenticated"; "ready"; "connecting"; "connected"; "disconnected"].

Definition in_lifecycle (dataType : jv) : bool :=
  match dataType with
  | JStr s => List.existsb (String.eqb s) lifecycle_types
  | _ => false
  end.

(** The [switch] that maps [dataType] to [deviceStatus]. *)
Definition deviceStatus_of (dataType : string) : string :=
  if (dataType =? "ready")%string then "ready"
  else if (dataType =? "authenticated")%string then "authenticated"
  else if (dataType =? "qr")%string then "qr"
  else if (dataType =? "connecting")%string then "connecting"
  else if (dataType =? "connected")%string then "connected"
  else if (dataType =? "disconnected")%string then "disconnected"
  else dataType.

(** The [try] block that updates the device status. *)
Definition webhook_status_update (sessionId dataType : jv) : M unit :=
  try_catch
    (if truthy sessionId && truthy dataType && in_lifecycle dataType
     then match dataType with
          | JStr dt => updateDeviceStatus sessionId (deviceStatus_of dt) ;;; ret tt
          | _ => ret tt
          end
     else ret tt)
    (fun _ => ret tt).

(** The second [switch]: its log lines read [data.device]. *)
Definition webhook_log_switch (dataType data : jv) : M unit :=
  match dataType with
  | JStr dt =>
      if (dt =? "device_linked")%string then prop data "device" ;;; ret tt
      else if (dt =? "device_unlinked")%string then prop data "device" ;;; ret tt
      else ret tt
  | _ => ret tt
  end.

(** Where the handler looks for message data; [JNull] when nowhere.
    [requestBody] is not nullish here. *)
Definition webhook_messageData (requestBody : jv) : jv :=
  let messageData :=
    if truthy (opt_member (opt_member requestBody "outgoingData") "message")
    then member (member requestBody "outgoingData") "message"
    else if truthy (opt_member requestBody "message")
    then member requestBody "message"
    else if truthy (opt_member (opt_member requestBody "data") "message")
    then member (member requestBody "data") "message"
    else if truthy (opt_member requestBody "data")
            && negb (truthy (opt_member requestBody "outgoingData"))
    then member requestBody "data"
    else JNull in
  if negb (truthy messageData) && truthy requestBody
     && (0 <? keys_length requestBody)%nat
  then if truthy (member requestBody "_data" ||| member requestBody "body"
                  ||| js_and (js_and (member requestBody "id")
                                     (member requestBody "from"))
                             (member requestBody "to"))
       then requestBody
       else messageData
  else messageData.

(** The [try] block that saves the message. *)
Definition webhook_save_message (messageData sessionId : jv) : M unit :=
  if truthy messageData && truthy sessionId
  then try_catch
         (device <- getDeviceBySessionId sessionId ;;
          match device with
          | Some d => saveMessage (d_key d) messageData ;;; ret tt
          | None => ret tt
          end)
         (fun _ => ret tt)
  else ret tt.

Definition unauthorized_webhook : Reply :=
  json_reply 401
    (JObj [("success", JBool false);
           ("message", JStr "Unauthorized: Invalid authorization or API key")]).

Definition webhook_ack (dataType sessionId : jv) : Reply :=
  json_reply 200
    (JObj [("success", JBool true);
           ("message", JStr "Webhook received successfully");
           ("receivedType", dataType);
           ("sessionId", sessionId ||| JNull)]).

(** The handler of [POST /whatsapp/webhook]; [apiKey] is
    [request.headers["x-api-key"]]. *)
Definition webhook_handler (env : Env) (apiKey : option string) (body : jv)
  : M Reply :=
  if negb (strict_eq apiKey (WHATSAPP_WEBHOOK_AUTH env))
  then ret unauthorized_webhook
  else
    dataType <- prop body "dataType" ;;
    let data := member body "data" in
    let sessionId := member body "sessionId" in
    receivedAt <- new_Date ;;
    modify (with_lastWebhook
              (JObj [("dataType", dataType); ("data", data);
                     ("sessionId", sessionId); ("receivedAt", JNum receivedAt)])) ;;;
    webhook_status_update sessionId dataType ;;;
    webhook_log_switch dataType data ;;;
    webhook_save_message (webhook_messageData body) sessionId ;;;
    ret (webhook_ack dataType sessionId).

(** [app.setErrorHandler]: none of the errors of [Err] carries [validation]
    or [statusCode]. *)
Definition errorHandler (e : Err) : Reply :=
  json_reply 500 (JObj [("error", JStr "Internal Server Error")]).

(** A route handler under the error handler: what the handler throws
    goes to [setErrorHandler]; the store keeps what was written.  The
    reply is the value handed to [reply.send]. *)
Definition serve (handler : M Reply) (w : World) : Reply * World :=
  match handler w with
  | (Ok r, w') => (r, w')
  | (Throw e, w') => (errorHandler e, w')
  end.

(* ------------------------------------------------------------------------- *)
(** ** src/lib/fastify/routes/sessions.ts                                     *)
(* ------------------------------------------------------------------------- *)

(** What [fetch] resolves to: the status, the body text, and what
    [JSON.parse] makes of that text ([None] when it throws). *)
Record Response : Type := mkResponse {
  r_status : Z;
  r_text : string;
  r_json : option jv
}.

(** [prisma.apikeys.findFirst({ where: { token, status: true }, include: { users: true } })]. *)
Definition apikeys_findFirst (token : string) : M (option ApiKey) :=
  w <- get_world ;;
  ret (List.find (fun k => (k_token k =? token)%string && k_status k) (apikeys w)).

(** The pre-handler [apiKeyAuth]: a reply when it refuses the request, else
    the operator it stores in [request.apiKeyUser]. *)
Definition apiKeyAuth (apiKey : option string) : M (Reply + User) :=
  match apiKey with
  | None | Some EmptyString =>
      ret (inl (json_reply 401
                  (JObj [("success", JBool false);
                         ("message", JStr "API key is required in x-api-key header")])))
  | Some token =>
      try_catch
        (apiKeyRecord <- apikeys_findFirst token ;;
         match apiKeyRecord with
         | Some (mkApiKey _ _ (Some user)) => ret (inr user)
         | _ =>
             ret (inl (json_reply 401
                         (JObj [("success", JBool false);
                                ("message", JStr "Invalid or inactive API key")])))
         end)
        (fun _ =>
           ret (inl (json_reply 500
                       (JObj [("success", JBool false);
                              ("message",
                               JStr "Internal server error during API key authentication")]))))
  end.

Definition configuration_error (env : Env) : option Reply :=
  let unset (v : option string) :=
    match v with None | Some EmptyString => true | Some _ => false end in
  if unset (REMOTE_API_KEY env) || unset (REMOTE_URL_API env)
  then let missing := if unset (REMOTE_API_KEY env)
                      then "REMOTE_API_KEY" else "REMOTE_URL_API" in
       Some (json_reply 500
               (JObj [("success", JBool false);
                      ("message",
                       JStr ("Configuration error: " ++ missing ++ " is not set"))]))
  else None.

Definition connectivity_error : Reply :=
  json_reply 500
    (JObj [("success", JBool false);
           ("message", JStr "Failed to connect to remote API")]).

(** [await fetch(url, ..)]: [None] is a rejected fetch. *)
Definition await_fetch (net : option Response) : M Response :=
  match net with
  | Some r => ret r
  | None => throw FetchFailed
  end.

(** [try { data = JSON.parse(text) } catch { data = { raw: text } }]. *)
Definition parse_or_raw (response : Response) : jv :=
  match r_json response with
  | Some v => v
  | None => JObj [("raw", JStr (r_text response))]
  end.

(** [await response.json()]. *)
Definition response_json (response : Response) : M jv :=
  match r_json response with
  | Some v => ret v
  | None => throw SyntaxError
  end.

(** The outer [try]/[catch] of every relay handler, after the configuration
    check. *)
Definition relayed (env : Env) (body : M Reply) : M Reply :=
  match configuration_error env with
  | Some r => ret r
  | None => try_catch body (fun _ => ret connectivity_error)
  end.

(** The handlers of [/session/status], [/session/qr], [/session/restart],
    [/session/terminate], [/session/terminateInactive],
    [/session/terminateAll] and [/client/sendMessage], which differ in the
    URL and the request they forward only. *)
Definition passthrough_handler (env : Env) (net : option Response) : M Reply :=
  relayed env
    (response <- await_fetch net ;;
     let data := parse_or_raw response in
     ret (json_reply (r_status response) data)).

(** The handler of [GET /session/start/:sessionId]; [apiKeyUser] is what the
    pre-handler stored. *)
Definition start_handler (env : Env) (apiKeyUser : option User)
  (sessionId : string) (net : option Response) : M Reply :=
  relayed env
    (response <- await_fetch net ;;
     let data := parse_or_raw response in
     successResponse <-
       (if r_status response =? 200
        then success <- prop data "success" ;; ret (is_true success)
        else ret false) ;;
     (if successResponse : bool
      then try_catch
             (match apiKeyUser with
              | Some user =>
                  if negb (u_id user =? "")%string
                  then createDevice sessionId (u_id user) "" "connecting" ;;; ret tt
                  else ret tt
              | None => ret tt
              end)
             (fun _ => ret tt)
      else ret tt) ;;;
     ret (json_reply (r_status response) data)).

(** The handler of [GET /session/qr/:sessionId/image]. *)
Definition qr_image_handler (env : Env) (net : option Response) : M Reply :=
  relayed env
    (response <- await_fetch net ;;
     data <- response_json response ;;
     if truthy (opt_member data "qr")
     then ret (mkReply 200 (SendPng (member data "qr")))
     else ret (json_reply (r_status response) data)).

(** The contacts the sync of [getContacts] takes from the provider's
    answer: the answer itself when it is an array, else its [contacts],
    else its [data], else the answer as a single contact when it has an
    [id], a [name] or a [number]. *)
Definition extract_contacts (data : jv) : list jv :=
  match data with
  | JArr items => items
  | _ =>
      match member data "contacts" with
      | JArr items => items
      | _ =>
          match member data "data" with
          | JArr items => items
          | _ =>
              if truthy data && typeof_object data
                 && (0 <? keys_length data)%nat
                 && truthy (member data "id" ||| member data "name"
                            ||| member data "number")
              then [data]
              else []
          end
      end
  end.

(** [Array.isArray(v) && v.length > 10]. *)
Definition longer_than_10 (v : jv) : bool :=
  match v with
  | JArr items => (10 <? List.length items)%nat
  | _ => false
  end.

(** [v.slice(0, 10)] for an array [v]. *)
Definition slice_0_10 (v : jv) : jv :=
  match v with
  | JArr items => JArr (List.firstn 10 items)
  | _ => v
  end.

(** [{ ...o, k: x }]; only reached for an object [o]. *)
Definition spread_with (o : jv) (k : string) (x : jv) : jv :=
  match o with
  | JObj fields => JObj (set_field k x fields)
  | _ => JObj [(k, x)]
  end.

(** The [responseData] of [getContacts]. *)
Definition limit_contacts (data : jv) : jv :=
  if longer_than_10 data then slice_0_10 data
  else if truthy data && typeof_object data
          && longer_than_10 (member data "contacts")
  then spread_with data "contacts" (slice_0_10 (member data "contacts"))
  else if truthy data && typeof_object data
          && longer_than_10 (member data "data")
  then spread_with data "data" (slice_0_10 (member data "data"))
  else data.

(** The [try] block of [getContacts] that synchronizes the contacts. *)
Definition sync_contacts (sessionId : string) (data : jv) : M unit :=
  try_catch
    (device <- getDeviceBySessionId (JStr sessionId) ;;
     match device with
     | Some d =>
         let contactsData := extract_contacts data in
         if (0 <? List.length contactsData)%nat
         then saveContacts (d_key d) contactsData ;;; ret tt
         else ret tt
     | None => ret tt
     end)
    (fun _ => ret tt).

(** The handler of [GET /client/getContacts/:sessionId]. *)
Definition getContacts_handler (env : Env) (sessionId : string)
  (net : option Response) : M Reply :=
  relayed env
    (response <- await_fetch net ;;
     let data := parse_or_raw response in
     successResponse <-
       (if r_status response =? 200
        then success <- prop data "success" ;;
             ret (is_true success || isArray data
                  || (truthy data && typeof_object data))
        else ret false) ;;
     (if (successResponse : bool) && negb (sessionId =? "")%string
      then sync_contacts sessionId data
      else ret tt) ;;;
     ret (json_reply (r_status response) (limit_contacts data))).

(** The relay operations of the session command surface. *)
Inductive RelayOp : Type :=
| OpStart | OpStatus | OpQr | OpQrImage | OpRestart | OpTerminate
| OpTerminateInactive | OpTerminateAll | OpSendMessage | OpGetContacts.

(** A relay route: the pre-handler, then the handler of the operation.
    The schema of every relay route requires the [x-api-key] header, so a
    request that reaches the pre-handler carries one. *)
Definition relay (op : RelayOp) (env : Env) (apiKey : string)
  (sessionId : string) (net : option Response) : M Reply :=
  auth <- apiKeyAuth (Some apiKey) ;;
  match auth with
  | inl refusal => ret refusal
  | inr user =>
      match op with
      | OpStart => start_handler env (Some user) sessionId net
      | OpQrImage => qr_image_handler env net
      | OpGetContacts => getContacts_handler env sessionId net
      | _ => passthrough_handler env net
      end
  end.

(** *** The response schemas of the relay routes *)

Definition success_message : ResponseSchema :=
  Properties [("success", TBoolean); ("message", TString)].

(** The [response] of the route's [schema] at a status: every relay route
    declares 200, 401 and 500; the 200 of [qr-image] is the schema of its
    [application/json] content, that of the other routes accepts every
    property. *)
Definition response_schema (op : RelayOp) (status : Z) : option ResponseSchema :=
  if status =? 200
  then match op with
       | OpQrImage => Some (Properties [("success", TBoolean); ("qr", TString)])
       | _ => Some AnyObject
       end
  else if (status =? 401) || (status =? 500) then Some success_message
  else None.

Definition has_type (ty : PropertyType) (v : jv) : bool :=
  match ty, v with
  | TBoolean, JBool _ => true
  | TString, JStr _ => true
  | _, _ => false
  end.

(** The own keys of an array, with their values: ["0"], ["1"], ... *)
Fixpoint indexed (i : nat) (items : list jv) : list (string * jv) :=
  match items with
  | [] => []
  | x :: rest => (string_of_Z (Z.of_nat i), x) :: indexed (S i) rest
  end.

(** An object under a schema: every property when the schema accepts
    additional properties; otherwise the declared properties the object
    has, in the order of the schema. *)
Definition serialize_object (schema : ResponseSchema) (fields : list (string * jv))
  : list (string * jv) :=
  match schema with
  | AnyObject => fields
  | Properties props =>
      List.flat_map
        (fun p : string * PropertyType =>
           match lookup (fst p) fields with
           | None | Some JUndefined => []
           | Some v => [(fst p, if has_type (snd p) v then v else coerced P (snd p) v)]
           end)
        props
  end.

(** What the caller is sent for a JSON payload: the payload as
    [JSON.stringify] writes it when the route declares no schema for the
    status; under a schema, which is always of type [object], an object is
    written by [serialize_object], an array as the object of its own keys,
    [null] as the empty object. *)
Definition serialize (schema : option ResponseSchema) (v : jv) : jv :=
  match v with
  | JObj fields =>
      match schema with
      | Some s => JObj (serialize_object s fields)
      | None => v
      end
  | JArr items =>
      match schema with
      | Some AnyObject => JObj (indexed 0 items)
      | Some (Properties _) => JObj []
      | None => v
      end
  | JNull =>
      match schema with
      | Some _ => JObj []
      | None => v
      end
  | _ => scalar_sent P schema v
  end.

(** The reply of a relay route as the caller receives it: a JSON payload
    goes through the serializer of the route's schema for the status of
    the reply, an image goes out as it is. *)
Definition on_wire (op : RelayOp) (r : Reply) : Reply :=
  match payload r with
  | SendJson v => mkReply (code r) (SendJson (serialize (response_schema op (code r)) v))
  | SendPng _ => r
  end.

End Server.

(* ------------------------------------------------------------------------- *)
(** ** Vocabulary of the properties                                           *)
(* ------------------------------------------------------------------------- *)

(** A computation that leaves the observation [obs] of the world as it
    found it, whether it returns or throws. *)
Definition stable {X A} (obs : World -> X) (m : M A) : Prop :=
  forall w, obs (snd (m w)) = obs w.

(** The status the store holds for a session, if it holds a device for it. *)
Definition status_of (sid : string) (w : World) : option string :=
  option_map d_status (find_device sid (devices w)).

(** A webhook delivery: the reply its handler, or the error handler, hands
    to [reply.send], and the store the delivery leaves. *)
Definition deliver (P : Platform) (env : Env) (apiKey : option string)
  (body : jv) (w : World) : Reply * World :=
  serve (webhook_handler P env apiKey body) w.





(** The world the status update of a delivery starts from: the handler has
    stored [lastWebhook] and read the clock once. *)
Definition after_receipt (P : Platform) (body : jv) (w : World) : World :=
  with_lastWebhook
    (JObj [("dataType", member body "dataType"); ("data", member body "data");
           ("sessionId", member body "sessionId");
           ("receivedAt", JNum (now_at P (tick w)))])
    (bump w).

(** The [dataType]s whose log line reads [data.device]. *)
Definition reads_device (dataType : jv) : bool :=
  match dataType with
  | JStr dt => (dt =? "device_linked")%string || (dt =? "device_unlinked")%string
  | _ => false
  end.

Definition session_ids (w : World) : list string :=
  List.map d_sessionId (devices w).

(** *** Sample inputs *)

Definition is_boolean (v : jv) : bool :=
  match v with JBool _ => true | _ => false end.

(** A platform whose schema types the three flags of a contact as
    [Boolean] and accepts every message. *)
Definition sample_platform : Platform :=
  {| message_ok := fun _ => true;
     contact_ok := fun f => is_boolean (c_isBusiness f) && is_boolean (c_isGroup f)
                            && is_boolean (c_isUser f);
     uuid_at := fun n => "uuid-" ++ string_of_Z (Z.of_nat n);
     random_at := fun n => (7 * n + 3)%nat;
     now_at := fun n => 1700000000 + Z.of_nat n;
     coerced := fun ty v =>
                  match ty with
                  | TBoolean => JBool (truthy v)
                  | TString => JStr (to_string v)
                  end;
     scalar_sent := fun _ v => v |}.

Definition sample_env : Env :=
  mkEnv (Some "hook-secret") (Some "provider-key") (Some "http://provider").

Definition sample_operator : ApiKey :=
  mkApiKey "operator-key" true (Some (mkUser "user-1")).

(** A store without devices. *)
Definition fresh_world : World :=
  mkWorld [] [] [] [sample_operator] JNull 0.

(** A store in which session [abc123] has been started and has become
    ready. *)
Definition ready_world : World :=
  mkWorld [mkDevice "uuid-dev" "K3Y00001" "abc123" "" "ready" "user-1" 1700000000]
          [] [] [sample_operator] JNull 0.

(** *** The normalizer, in the words of the specification *)

(** "[a], else [b], else ... else [default]": the first candidate that is
    present, that is truthy. *)
Fixpoint first_present (candidates : list jv) (default : jv) : jv :=
  match candidates with
  | [] => default
  | c :: rest => if truthy c then c else first_present rest default
  end.

(** [v.k1.k2...], [undefined] from the first step that is missing on. *)
Fixpoint at_path (v : jv) (path : list string) : jv :=
  match path with
  | [] => v
  | k :: rest => at_path (opt_member v k) rest
  end.

(** "prefer a [._data] sub-object if present, else [.message._data], else
    [.message], else the payload itself". *)
Definition spec_message_source (payload : jv) : jv :=
  first_present [at_path payload ["_data"];
                 at_path payload ["message"; "_data"];
                 at_path payload ["message"]]
                payload.

(** "[id._serialized] -> [id] -> empty string for [messageId]". *)
Definition spec_messageId (source : jv) : jv :=
  first_present [at_path source ["id"; "_serialized"]; at_path source ["id"]]
                (JStr "").

(** "[t] -> [timestamp] -> [0] for timestamp". *)
Definition spec_timestamp (source : jv) : jv :=
  first_present [at_path source ["t"]; at_path source ["timestamp"]] (JNum 0).

(** "[from.user] -> [from] for sender", [null] when there is neither. *)
Definition spec_sender (source : jv) : jv :=
  first_present [at_path source ["from"; "user"]; at_path source ["from"]] JNull.

(** "analogous for [to]". *)
Definition spec_recipient (source : jv) : jv :=
  first_present [at_path source ["to"; "user"]; at_path source ["to"]] JNull.

(** The message row [saveMessage] writes in world [w]. *)
Definition message_row (P : Platform) (deviceKey : string) (payload : jv)
  (w : World) : Message :=
  messageRecord (uuid_at P (tick w)) deviceKey (select_message payload)
                (now_at P (S (tick w))).

(** "identity resolution order [id._serialized] -> [id] -> [contactId] ->
    [number]", as the string the filter looks at. *)
Definition spec_contact_identity (contact : jv) : string :=
  stringify_unless_string
    (first_present [at_path contact ["id"; "_serialized"];
                    at_path contact ["id"];
                    at_path contact ["contactId"];
                    at_path contact ["number"]]
                   (JStr "")).

(** "contains the individual-user domain suffix". *)
Definition is_user_contact (contact : jv) : bool :=
  includes "@c.us" (spec_contact_identity contact).

(** The rows of [contacts] with a given [contactId]. *)
Definition contacts_with (cid : string) (w : World) : list Contact :=
  List.filter (fun c => (c_contactId c =? cid)%string) (contacts w).

Definition contact_ids (w : World) : list string :=
  List.map c_contactId (contacts w).

(** The [contactId] and the columns [saveContact] computes in world [w]. *)
Definition contact_id_in (P : Platform) (contactData : jv) (w : World) : string :=
  stringify_unless_string
    (identity_chain contactData ||| JStr (uuid_at P (tick w))).

Definition contact_fields_in (P : Platform) (deviceKey : string)
  (contactData : jv) (w : World) : ContactFields :=
  contactRecord deviceKey contactData (now_at P (S (tick w))).

(** *** The contact columns, in the words of the specification *)

(** "number extraction attempts direct fields first, then regex-extracts
    digits preceding an [@] suffix from a serialized id". *)
Definition spec_contact_number (contact : jv) : jv :=
  let direct := first_present [at_path contact ["number"];
                               at_path contact ["phoneNumber"];
                               at_path contact ["phone"];
                               at_path contact ["id"; "user"]] JNull in
  if truthy direct then direct
  else match at_path contact ["id"] with
       | JStr id =>
           match digits_before_at "" id with
           | Some digits => JStr digits
           | None => JNull
           end
       | _ => JNull
       end.

(** "array-valued website lists are joined into a single delimited
    string; non-array values pass through unchanged". *)
Definition spec_contact_website (contact : jv) : jv :=
  match at_path contact ["businessProfile"; "website"] with
  | JArr sites =>
      first_present [JStr (join ", " (List.filter truthy (List.map site_url sites)))]
                    JNull
  | JStr site => JStr site
  | other => first_present [other; at_path contact ["website"]] JNull
  end.

Definition spec_contact_categories (contact : jv) : jv :=
  match at_path contact ["businessProfile"; "categories"] with
  | JArr categories => JArr categories
  | other => first_present [other; at_path contact ["categories"]] JNull
  end.

(** The columns a contact payload gives a row saved under [deviceKey] at
    [now]: each one the first value present among the places of the
    payload named for it, [null] (or the default of the column) when none
    is. *)
Definition spec_contact_fields (deviceKey : string) (contact : jv) (now : Z)
  : ContactFields :=
  let at_ := at_path contact in
  {| c_deviceKey := deviceKey;
     c_contactName := first_present [at_ ["name"]; at_ ["contactName"];
                                     at_ ["pushname"]] JNull;
     c_isBusiness := first_present [at_ ["isBusiness"]] (JBool false);
     c_isGroup := first_present [at_ ["isGroup"]] (JBool false);
     c_isUser := first_present [at_ ["isUser"]] (JBool true);
     c_name := first_present [at_ ["name"]; at_ ["pushname"]] JNull;
     c_number := spec_contact_number contact;
     c_serialized := first_present [at_ ["id"; "_serialized"]; at_ ["id"]] JNull;
     c_shortName := first_present [at_ ["shortName"]; at_ ["shortname"]] JNull;
     c_businessProfile := first_present [at_ ["businessProfile"]] JNull;
     c_description := first_present [at_ ["businessProfile"; "description"];
                                     at_ ["description"]] JNull;
     c_email := first_present [at_ ["businessProfile"; "email"]; at_ ["email"]] JNull;
     c_website := spec_contact_website contact;
     c_address := first_present [at_ ["businessProfile"; "address"];
                                 at_ ["address"]] JNull;
     c_latitude := first_present [at_ ["businessProfile"; "latitude"];
                                  at_ ["lat"]] JNull;
     c_longitude := first_present [at_ ["businessProfile"; "longitude"];
                                   at_ ["lng"]] JNull;
     c_categories := spec_contact_categories contact;
     c_updatedAt := now |}.

(** The schema declares the [isUser] column [Boolean]: Prisma accepts no
    other value for it. *)
Definition isUser_is_Boolean (P : Platform) : Prop :=
  forall f : ContactFields, contact_ok P f = true -> is_boolean (c_isUser f) = true.

(** *** Relay vocabulary *)

(** The operator an API key belongs to: the [users] relation of the first
    active key with that token. *)
Definition operator_of (token : string) (w : World) : option User :=
  match List.find (fun k => (k_token k =? token)%string && k_status k) (apikeys w) with
  | Some k => k_users k
  | None => None
  end.

(** The rows of [devices] with a given [sessionId]. *)
Definition devices_with (sid : string) (w : World) : list Device :=
  List.filter (fun d => (d_sessionId d =? sid)%string) (devices w).

(** The key [generateDeviceKey] draws in world [w]. *)
Definition drawn_key (P : Platform) (w : World) : string :=
  match fst (generateDeviceKey P w) with
  | Ok key => key
  | Throw _ => ""
  end.

(** The postcondition of a successful start as the specification words
    it: exactly one device for the session, [connecting], owned by the
    operator. *)
Definition started (sid uid : string) (w : World) : Prop :=
  exists d, devices_with sid w = [d]
            /\ d_status d = "connecting" /\ d_userId d = uid.

(** A relay call: the reply the caller receives, that is, what the route
    hands to [reply.send] serialized under the response schema of the
    route, and the store the call leaves. *)
Definition call (P : Platform) (op : RelayOp) (env : Env)
  (apiKey : string) (sessionId : string) (net : option Response)
  (w : World) : Reply * World :=
  let out := serve (relay P op env apiKey sessionId net) w in
  (on_wire P op (fst out), snd out).

Definition double_quote : string := String (Ascii.ascii_of_nat 34) "".

(** The provider's answer [200 {"success":true}]. *)
Definition success_response : Response :=
  mkResponse 200
    ("{" ++ double_quote ++ "success" ++ double_quote ++ ":true}")
    (Some (JObj [("success", JBool true)])).

(** An answer that is not JSON. *)
Definition html_response : Response :=
  mkResponse 502 "<html>Bad Gateway</html>" None.

Definition numbered_contact (n : Z) : jv :=
  JObj [("id", JObj [("_serialized", JStr (string_of_Z n ++ "@c.us"))])].

(** An answer with twelve contacts under [contacts]. *)
Definition twelve_contacts : list jv :=
  List.map numbered_contact [1; 2; 3; 4; 5; 6; 7; 8; 9; 10; 11; 12].

Definition contacts_response : Response :=
  mkResponse 200 "(twelve contacts)"
    (Some (JObj [("success", JBool true); ("contacts", JArr twelve_contacts)])).

(** The provider's answer with the array under [k] cut to its first ten
    entries and every other property as it was. *)
Definition truncated_at (k : string) (items : list jv)
  (fields fields' : list (string * jv)) : Prop :=
  lookup k fields' = Some (JArr (List.firstn 10 items))
  /\ (forall k', k' <> k -> lookup k' fields' = lookup k' fields)
  /\ List.map fst fields' = List.map fst fields.


(** Where a provider answer keeps its contact array. *)
Inductive Place : Type :=
| TopLevel
| UnderKey (k : string).

(** An array of more than ten entries. *)
Definition long_array (v : jv) : option (list jv) :=
  match v with
  | JArr items => if (10 <? List.length items)%nat then Some items else None
  | _ => None
  end.

(** "a contact array (top-level, or under a [contacts] or [data] key) with
    more than 10 entries": the first of the three there is, and where it
    is. *)
Definition contact_array (data : jv) : option (Place * list jv) :=
  match long_array data with
  | Some items => Some (TopLevel, items)
  | None =>
      match long_array (member data "contacts") with
      | Some items => Some (UnderKey "contacts", items)
      | None =>
          match long_array (member data "data") with
          | Some items => Some (UnderKey "data", items)
          | None => None
          end
      end
  end.

(** [sent], received with [status], is the answer [data] with the contact
    array at [place] cut to its first ten entries.  A top-level array
    sent with status 200 arrives as the object of its keys ["0"] to
    ["9"], since the schema of that status is of type [object]. *)
Definition cut_to_ten (status : Z) (place : Place) (items : list jv)
  (data sent : jv) : Prop :=
  match place with
  | TopLevel =>
      sent = if status =? 200
             then JObj (indexed 0 (List.firstn 10 items))
             else JArr (List.firstn 10 items)
  | UnderKey k =>
      exists fields fields',
        data = JObj fields /\ sent = JObj fields'
        /\ truncated_at k items fields fields'
  end.

(** [body] holds nothing of [fields] but the properties [props], and
    those of them that have the declared type as they are. *)
Definition only_properties (props : list (string * PropertyType))
  (fields body : list (string * jv)) : Prop :=
  (forall k, ~ In k (List.map fst props) -> lookup k body = None)
  /\ (forall k, lookup k fields = None -> lookup k body = None)
  /\ (forall k ty v, In (k, ty) props -> lookup k fields = Some v ->
                     has_type ty v = true -> lookup k body = Some v).

(** An answer with twelve contacts under [contacts] and the same twelve
    under [data]. *)
Definition two_arrays_response : Response :=
  mkResponse 200 "(twelve contacts, twice)"
    (Some (JObj [("success", JBool true); ("contacts", JArr twelve_contacts);
                 ("data", JArr twelve_contacts)])).

(** An answer of status 500 that carries twelve contacts. *)
Definition failing_contacts_response : Response :=
  mkResponse 500 "(twelve contacts, status 500)"
    (Some (JObj [("success", JBool false); ("contacts", JArr twelve_contacts)])).

(** The three calls of the scenario of the specification: a start relay
    for [abc123], then the webhooks [ready] and [message]. *)
Definition scenario_world : World :=
  let w1 := snd (call sample_platform OpStart sample_env "operator-key" "abc123"
                   (Some success_response) fresh_world) in
  let w2 := snd (deliver sample_platform sample_env (Some "hook-secret")
                   (JObj [("sessionId", JStr "abc123"); ("dataType", JStr "ready")])
                   w1) in
  snd (deliver sample_platform sample_env (Some "hook-secret")
         (JObj [("sessionId", JStr "abc123"); ("dataType", JStr "message");
                ("data", JObj [("id", JObj [("_serialized", JStr "msg1")]);
                               ("from", JStr "111@c.us"); ("body", JStr "hi");
                               ("t", JNum 1000)])])
         w2).

(* ------------------------------------------------------------------------- *)
(** ** More of src/lib/devicesService.ts                                      *)
(* ------------------------------------------------------------------------- *)

Definition find_device_by_key (key : string) (ds : list Device) : option Device :=
  List.find (fun d => (d_key d =? key)%string) ds.

(** [getDeviceByKey]: [prisma.devices.findUnique({ where: { key } })]. *)
Definition getDeviceByKey (deviceKey : string) : M (option Device) :=
  w <- get_world ;;
  ret (find_device_by_key deviceKey (devices w)).

(** [verifyDeviceOwnership]: [device && device.userId === userId], which is
    [null] when there is no device. *)
Definition verifyDeviceOwnership (sessionId userId : string) : M jv :=
  w <- get_world ;;
  ret (match find_device sessionId (devices w) with
       | Some device => JBool (d_userId device =? userId)%string
       | None => JNull
       end).

(** [deleteDevice]: [prisma.devices.delete({ where: { sessionId } })], which
    returns the deleted row and throws when there is none.  Relations the
    schema may declare from other tables to [devices] are not modelled. *)
Definition deleteDevice (sessionId : string) : M Device :=
  w <- get_world ;;
  match find_device sessionId (devices w) with
  | None => throw PrismaNotFound
  | Some device =>
      modify (with_devices
                (List.filter (fun d => negb (d_sessionId d =? sessionId)%string)
                             (devices w))) ;;;
      ret device
  end.

Definition device_keys (w : World) : list string :=
  List.map d_key (devices w).

(** Every character of [s] satisfies [p]. *)
Fixpoint string_forall (p : ascii -> bool) (s : string) : bool :=
  match s with
  | EmptyString => true
  | String c rest => p c && string_forall p rest
  end.

(** An uppercase letter or a digit. *)
Definition is_key_char (c : ascii) : bool :=
  let n := nat_of_ascii c in
  ((65 <=? n)%nat && (n <=? 90)%nat) || ((48 <=? n)%nat && (n <=? 57)%nat).

(* ------------------------------------------------------------------------- *)
(** ** src/lib/fastify/utils/auth.ts and token-blacklist.ts                   *)
(* ------------------------------------------------------------------------- *)

Definition charset : string :=
  "abcdefghijklmnopqrstuvwxyzABCDEFGHIJKLMNOPQRSTUVWXYZ0123456789!@#$%^&*".

(** [c] is one of the characters of [charset]. *)
Definition in_charset (c : ascii) : bool :=
  List.existsb (Ascii.eqb c) (list_ascii_of_string charset).

(** The loop of [AuthUtils.generateRandomPassword], [n] rounds left. *)
Fixpoint generateRandomPassword_loop (P : Platform) (n : nat) (password : string)
  : M string :=
  match n with
  | O => ret password
  | S n' =>
      i <- random_index P (String.length charset) ;;
      generateRandomPassword_loop P n' (password ++ charAt charset i)
  end.

(** [AuthUtils.generateRandomPassword(length)], for a [length] that is a
    natural number; the default is 12. *)
Definition generateRandomPassword (P : Platform) (length : nat) : M string :=
  generateRandomPassword_loop P length "".

(** Space or horizontal tab. *)
Definition is_space (c : ascii) : bool :=
  let n := nat_of_ascii c in (n =? 32)%nat || (n =? 9)%nat.

Fixpoint ends_with_space (s : string) : bool :=
  match s with
  | EmptyString => false
  | String c EmptyString => is_space c
  | String _ rest => ends_with_space rest
  end.

(** A header value as the HTTP parser hands it over: without whitespace
    at either end. *)
Definition header_value (s : string) : bool :=
  match s with
  | EmptyString => true
  | String c _ => negb (is_space c) && negb (ends_with_space s)
  end.

(** What the token functions read of a request; [req_authorization] is a
    [header_value]. *)
Record Request : Type := mkRequest {
  req_url : string;
  req_authorization : option string;   (* request.headers.authorization *)
  req_cookie_token : option string     (* request.cookies.token *)
}.

(** [AuthUtils.extractTokenFromRequest]: the rest of an [Authorization]
    header that starts with [Bearer ], else a non-empty [token] cookie,
    else [null]. *)
Definition extractTokenFromRequest (request : Request) : option string :=
  let from_cookie :=
    match req_cookie_token request with
    | Some token => if negb (token =? "")%string then Some token else None
    | None => None
    end in
  match req_authorization request with
  | Some authHeader =>
      if negb (authHeader =? "")%string && String.prefix "Bearer " authHeader
      then Some (String.substring 7 (String.length authHeader - 7) authHeader)
      else from_cookie
  | None => from_cookie
  end.

(** The [Set<string>] of [TokenBlacklist], in insertion order. *)
Module TokenBlacklist.

Definition t : Type := list string.


Definition isBlacklisted (token : string) (s : t) : bool :=
  List.existsb (String.eqb token) s.

(** [add(token)], without [expiresIn]. *)
Definition add (token : string) (s : t) : t :=
  if isBlacklisted token s then s else (s ++ [token])%list.

Definition remove (token : string) (s : t) : t :=
  List.filter (fun x => negb (x =? token)%string) s.

Definition clear (s : t) : t := [].

End TokenBlacklist.

Definition token_invalidated : Reply :=
  json_reply 401 (JObj [("error", JStr "Token has been invalidated")]).

(** The [preHandler] hook of [createFastifyApp]: [Some] reply when it
    refuses the request. *)
Definition blacklist_hook (blacklist : TokenBlacklist.t) (request : Request)
  : option Reply :=
  if String.prefix "/auth/" (req_url request)
     || String.prefix "/health" (req_url request)
  then None
  else match extractTokenFromRequest request with
       | Some token =>
           if negb (token =? "")%string && TokenBlacklist.isBlacklisted token blacklist
           then Some token_invalidated
           else None
       | None => None
       end.



(** The handler of [GET /webhook/last]. *)
Definition webhook_last_handler : M Reply :=
  w <- get_world ;;
  if negb (truthy (lastWebhook w))
  then ret (json_reply 200 (JObj [("message", JStr "No webhook received yet")]))
  else ret (json_reply 200 (lastWebhook w)).

(** *** Vocabulary of the further properties *)

(** [l1] is an initial segment of [l2]. *)
Definition prefix_of {A} (l1 l2 : list A) : Prop :=
  exists rest, l2 = (l1 ++ rest)%list.

(** The store holds a contact with this [contactId] under this device
    key. *)
Definition has_contact (cid deviceKey : string) (w : World) : Prop :=
  exists row, In row (contacts w) /\ c_contactId row = cid
              /\ c_deviceKey (c_fields row) = deviceKey.

(** A device row but for its status and its time of update. *)
Definition device_identity (d : Device) : string * string * string * string * string :=
  (d_uuid d, d_key d, d_sessionId d, d_number d, d_userId d).

(** The unique constraints of the store: [sessionId] and [key] of
    [devices], [contactId] of [contacts]. *)
Definition store_constraints (w : World) : Prop :=
  NoDup (session_ids w) /\ NoDup (device_keys w) /\ NoDup (contact_ids w).

(** The part of a contact row that identifies it. *)
Definition contact_identity (c : Contact) : string * string :=
  (c_uuid c, c_contactId c).

(** The two refusals of [apiKeyAuth]. *)
Definition key_required : Reply :=
  json_reply 401 (JObj [("success", JBool false);
                        ("message", JStr "API key is required in x-api-key header")]).

Definition key_invalid : Reply :=
  json_reply 401 (JObj [("success", JBool false);
                        ("message", JStr "Invalid or inactive API key")]).

(** [reply] is the provider's answer, of status [status] and body [data],
    as the route of [op] lets it reach the caller: it has the provider's
    status; a body that is an object arrives whole where the route
    declares no schema for the status or one that accepts every property,
    and otherwise with the declared properties only, [success] and
    [message] for 401 and 500, [success] and [qr] for the 200 of
    [qr-image]. *)
Definition reaches_caller (op : RelayOp) (status : Z) (data : jv) (reply : Reply)
  : Prop :=
  code reply = status
  /\ forall fields,
       data = JObj fields ->
       (status <> 401 -> status <> 500 -> op <> OpQrImage \/ status <> 200 ->
        reply = json_reply status (JObj fields))
       /\ (status = 401 \/ status = 500 ->
           exists body,
             reply = json_reply status (JObj body)
             /\ only_properties [("success", TBoolean); ("message", TString)]
                                fields body)
       /\ (op = OpQrImage -> status = 200 ->
           exists body,
             reply = json_reply status (JObj body)
             /\ only_properties [("success", TBoolean); ("qr", TString)]
                                fields body).

(** A relay route whose handler only forwards: everything but [start],
    [qr-image] and [get-contacts]. *)
Definition forwards_only (op : RelayOp) : bool :=
  match op with
  | OpStart | OpQrImage | OpGetContacts => false
  | _ => true
  end.
(* ------------------------------------------------------------------------- *)
(** ** Reasoning about [M]                                                    *)
(* ------------------------------------------------------------------------- *)

Unset Implicit Arguments.

Lemma bind_split {A B} (m : M A) (k : A -> M B) (w : World) :
  bind m k w = match fst (m w) with
               | Ok a => k a (snd (m w))
               | Throw e => (Throw e, snd (m w))
               end.
Proof. unfold bind. destruct (m w) as [[a | e] w']; reflexivity. Qed.

Lemma bind_ret {A B} (a : A) (k : A -> M B) (w : World) :
  bind (ret a) k w = k a w.
Proof. reflexivity. Qed.

Lemma bind_assoc {A B C} (m : M A) (f : A -> M B) (k : B -> M C) (w : World) :
  bind (bind m f) k w = bind m (fun x => bind (f x) k) w.
Proof. unfold bind. destruct (m w) as [[a | e] w']; reflexivity. Qed.

Lemma bind_modify {B} (f : World -> World) (k : unit -> M B) (w : World) :
  bind (modify f) k w = k tt (f w).
Proof. reflexivity. Qed.

Lemma bind_get_world {B} (k : World -> M B) (w : World) :
  bind get_world k w = k w w.
Proof. reflexivity. Qed.

Lemma bind_new_Date {B} (P : Platform) (k : Z -> M B) (w : World) :
  bind (new_Date P) k w = k (now_at P (tick w)) (bump w).
Proof. reflexivity. Qed.

Lemma bind_uuidv4 {B} (P : Platform) (k : string -> M B) (w : World) :
  bind (uuidv4 P) k w = k (uuid_at P (tick w)) (bump w).
Proof. reflexivity. Qed.

Lemma try_catch_split {A} (m : M A) (h : Err -> M A) (w : World) :
  try_catch m h w = match fst (m w) with
                    | Ok a => (Ok a, snd (m w))
                    | Throw e => h e (snd (m w))
                    end.
Proof. unfold try_catch. destruct (m w) as [[a | e] w']; reflexivity. Qed.

Section Stable.

Context {X : Type} (obs : World -> X).

Lemma stable_ret {A} (a : A) : stable obs (ret a).
Proof. intros w. reflexivity. Qed.

Lemma stable_throw {A} (e : Err) : stable obs (@throw A e).
Proof. intros w. reflexivity. Qed.

Lemma stable_get_world : stable obs get_world.
Proof. intros w. reflexivity. Qed.

Lemma stable_prop (v : jv) (k : string) : stable obs (prop v k).
Proof. intros w. unfold prop. destruct (nullish v); reflexivity. Qed.

Lemma stable_bind {A B} (m : M A) (k : A -> M B) :
  stable obs m -> (forall a, stable obs (k a)) -> stable obs (bind m k).
Proof.
  intros Hm Hk w. rewrite bind_split.
  destruct (fst (m w)) as [a | e]; cbn [snd].
  - rewrite Hk. apply Hm.
  - apply Hm.
Qed.

Lemma stable_try_catch {A} (m : M A) (h : Err -> M A) :
  stable obs m -> (forall e, stable obs (h e)) -> stable obs (try_catch m h).
Proof.
  intros Hm Hh w. rewrite try_catch_split.
  destruct (fst (m w)) as [a | e]; cbn [snd].
  - apply Hm.
  - rewrite Hh. apply Hm.
Qed.

Lemma stable_modify (f : World -> World) :
  (forall w, obs (f w) = obs w) -> stable obs (modify f).
Proof. intros Hf w. apply Hf. Qed.

(** The draws from the platform change [tick] only. *)
Hypothesis obs_bump : forall w, obs (bump w) = obs w.

Lemma stable_uuidv4 (P : Platform) : stable obs (uuidv4 P).
Proof. intros w. apply obs_bump. Qed.

Lemma stable_new_Date (P : Platform) : stable obs (new_Date P).
Proof. intros w. apply obs_bump. Qed.

Lemma stable_random_index (P : Platform) (n : nat) :
  stable obs (random_index P n).
Proof. intros w. apply obs_bump. Qed.

Lemma stable_generateDeviceKey_loop (P : Platform) (n : nat) :
  forall result, stable obs (generateDeviceKey_loop P n result).
Proof.
  induction n as [| n IH]; intros result; cbn [generateDeviceKey_loop].
  - apply stable_ret.
  - apply stable_bind; [apply stable_random_index | intros i; apply IH].
Qed.

End Stable.

(** A [try] whose [catch] only logs returns [tt]. *)
Lemma swallow_ok (m : M unit) (w : World) :
  fst (try_catch m (fun _ => ret tt) w) = Ok tt.
Proof.
  rewrite try_catch_split. destruct (fst (m w)) as [[] | e]; reflexivity.
Qed.

(* ------------------------------------------------------------------------- *)
(** ** The webhook handler, block by block                                    *)
(* ------------------------------------------------------------------------- *)

Ltac stable_step :=
  match goal with
  | |- stable _ (bind _ _) => apply stable_bind; [| intros ?]
  | |- stable _ (try_catch _ _) => apply stable_try_catch; [| intros ?]
  | |- stable _ (ret _) => apply stable_ret
  | |- stable _ (throw _) => apply stable_throw
  | |- stable _ (prop _ _) => apply stable_prop
  | |- stable _ get_world => apply stable_get_world
  | |- stable _ (uuidv4 _) => apply stable_uuidv4; reflexivity
  | |- stable _ (new_Date _) => apply stable_new_Date; reflexivity
  | |- stable _ (modify _) => apply stable_modify; intros ?; reflexivity
  | |- stable _ (if ?c then _ else _) => destruct c
  | |- stable _ (match ?x with _ => _ end) => destruct x
  end.

Ltac stable_auto := repeat stable_step.

Section Webhook.

Variable P : Platform.

Lemma string_arg_pure (v : jv) (w : World) : snd (string_arg v w) = w.
Proof. destruct v; reflexivity. Qed.

Lemma getDeviceBySessionId_pure (sessionId : jv) (w : World) :
  snd (getDeviceBySessionId sessionId w) = w.
Proof. destruct sessionId; reflexivity. Qed.

Lemma getDeviceBySessionId_result (sid : string) (w : World) :
  fst (getDeviceBySessionId (JStr sid) w) = Ok (find_device sid (devices w)).
Proof. reflexivity. Qed.

Lemma saveMessage_devices (deviceKey : string) (messageData : jv) :
  stable devices (saveMessage P deviceKey messageData).
Proof. unfold saveMessage, messages_create. stable_auto. Qed.

Lemma saveMessage_contacts (deviceKey : string) (messageData : jv) :
  stable contacts (saveMessage P deviceKey messageData).
Proof. unfold saveMessage, messages_create. stable_auto. Qed.

Lemma updateDeviceStatus_messages (sessionId : jv) (status : string) :
  stable messages (updateDeviceStatus P sessionId status).
Proof.
  unfold updateDeviceStatus, devices_update_status, string_arg. stable_auto.
Qed.

Lemma updateDeviceStatus_contacts (sessionId : jv) (status : string) :
  stable contacts (updateDeviceStatus P sessionId status).
Proof.
  unfold updateDeviceStatus, devices_update_status, string_arg. stable_auto.
Qed.

Lemma status_update_messages (sessionId dataType : jv) :
  stable messages (webhook_status_update P sessionId dataType).
Proof.
  unfold webhook_status_update. apply stable_try_catch; [| intros; apply stable_ret].
  destruct (_ && _); [| apply stable_ret].
  destruct dataType; try apply stable_ret.
  apply stable_bind; [apply updateDeviceStatus_messages | intros; apply stable_ret].
Qed.

Lemma status_update_contacts (sessionId dataType : jv) :
  stable contacts (webhook_status_update P sessionId dataType).
Proof.
  unfold webhook_status_update. apply stable_try_catch; [| intros; apply stable_ret].
  destruct (_ && _); [| apply stable_ret].
  destruct dataType; try apply stable_ret.
  apply stable_bind; [apply updateDeviceStatus_contacts | intros; apply stable_ret].
Qed.

Lemma save_message_devices (messageData sessionId : jv) :
  stable devices (webhook_save_message P messageData sessionId).
Proof.
  unfold webhook_save_message. destruct (_ && _); [| apply stable_ret].
  apply stable_try_catch; [| intros; apply stable_ret].
  apply stable_bind.
  - intros w. rewrite getDeviceBySessionId_pure. reflexivity.
  - intros [d |]; [| apply stable_ret].
    apply stable_bind; [apply saveMessage_devices | intros; apply stable_ret].
Qed.

Lemma save_message_contacts (messageData sessionId : jv) :
  stable contacts (webhook_save_message P messageData sessionId).
Proof.
  unfold webhook_save_message. destruct (_ && _); [| apply stable_ret].
  apply stable_try_catch; [| intros; apply stable_ret].
  apply stable_bind.
  - intros w. rewrite getDeviceBySessionId_pure. reflexivity.
  - intros [d |]; [| apply stable_ret].
    apply stable_bind; [apply saveMessage_contacts | intros; apply stable_ret].
Qed.

Lemma find_device_none (sid : string) (ds : list Device) :
  find_device sid ds = None <-> ~ In sid (List.map d_sessionId ds).
Proof.
  unfold find_device. induction ds as [| d ds IH]; cbn [List.find List.map In].
  - tauto.
  - destruct (String.eqb_spec (d_sessionId d) sid) as [E | E].
    + split; [discriminate | intros H; exfalso; apply H; left; exact E].
    + rewrite IH. tauto.
Qed.

Lemma find_device_sessionId (sid : string) (ds : list Device) (d : Device) :
  find_device sid ds = Some d -> d_sessionId d = sid.
Proof.
  unfold find_device. intros H. apply List.find_some in H.
  destruct H as [_ H]. apply String.eqb_eq. exact H.
Qed.

Lemma set_status_sessionId (sid status : string) (now : Z) (d : Device) :
  d_sessionId (set_status sid status now d) = d_sessionId d.
Proof. unfold set_status. destruct (_ =? _)%string; reflexivity. Qed.

Lemma map_set_status_session_ids (sid status : string) (now : Z) (ds : list Device) :
  List.map d_sessionId (List.map (set_status sid status now) ds)
  = List.map d_sessionId ds.
Proof.
  rewrite List.map_map. apply List.map_ext. intros d. apply set_status_sessionId.
Qed.

Lemma find_device_set_status (sid s status : string) (now : Z) (ds : list Device) :
  find_device sid (List.map (set_status s status now) ds)
  = option_map (set_status s status now) (find_device sid ds).
Proof.
  unfold find_device. induction ds as [| d ds IH]; cbn [List.find List.map option_map].
  - reflexivity.
  - rewrite set_status_sessionId.
    destruct (d_sessionId d =? sid)%string; [reflexivity | exact IH].
Qed.

(** What [updateDeviceStatus] does, for a string [sessionId]. *)
Lemma updateDeviceStatus_devices (s status : string) (w : World) :
  devices (snd (updateDeviceStatus P (JStr s) status w))
  = match find_device s (devices w) with
    | Some _ => List.map (set_status s status (now_at P (tick w))) (devices w)
    | None => devices w
    end.
Proof.
  unfold updateDeviceStatus. rewrite bind_new_Date.
  unfold devices_update_status, string_arg. rewrite bind_ret, bind_get_world.
  cbn [devices bump]. destruct (find_device s (devices w)); reflexivity.
Qed.

Lemma updateDeviceStatus_not_string (sessionId : jv) (status : string) (w : World) :
  is_string sessionId = false ->
  devices (snd (updateDeviceStatus P sessionId status w)) = devices w.
Proof.
  intros H. unfold updateDeviceStatus. rewrite bind_new_Date.
  destruct sessionId; try discriminate; reflexivity.
Qed.

Lemma updateDeviceStatus_session_ids (sessionId : jv) (status : string) :
  stable session_ids (updateDeviceStatus P sessionId status).
Proof.
  intros w. unfold session_ids. destruct sessionId as [| | b | z | s | l | f];
    try (rewrite updateDeviceStatus_not_string; reflexivity).
  rewrite updateDeviceStatus_devices.
  destruct (find_device s (devices w)); [apply map_set_status_session_ids | reflexivity].
Qed.

Lemma status_update_session_ids (sessionId dataType : jv) :
  stable session_ids (webhook_status_update P sessionId dataType).
Proof.
  unfold webhook_status_update. apply stable_try_catch; [| intros; apply stable_ret].
  destruct (_ && _); [| apply stable_ret].
  destruct dataType; try apply stable_ret.
  apply stable_bind; [apply updateDeviceStatus_session_ids | intros; apply stable_ret].
Qed.



Lemma swallow_snd {A} (m : M A) (w : World) :
  snd (try_catch (m ;;; ret tt) (fun _ => ret tt) w) = snd (m w).
Proof.
  rewrite try_catch_split, bind_split.
  destruct (fst (m w)); reflexivity.
Qed.


Lemma status_update_ok (sessionId dataType : jv) (w : World) :
  fst (webhook_status_update P sessionId dataType w) = Ok tt.
Proof. apply swallow_ok. Qed.

Lemma save_message_ok (messageData sessionId : jv) (w : World) :
  fst (webhook_save_message P messageData sessionId w) = Ok tt.
Proof.
  unfold webhook_save_message. destruct (_ && _); [apply swallow_ok | reflexivity].
Qed.

Lemma log_switch_pure (dataType data : jv) (w : World) :
  snd (webhook_log_switch dataType data w) = w.
Proof.
  assert (Hp : forall v k, snd ((prop v k ;;; ret tt) w) = w).
  { intros v k. unfold prop. destruct (nullish v); reflexivity. }
  unfold webhook_log_switch. destruct dataType; try reflexivity.
  destruct (_ =? _)%string; [apply Hp |].
  destruct (_ =? _)%string; [apply Hp | reflexivity].
Qed.

Lemma log_switch_result (dataType data : jv) (w : World) :
  fst (webhook_log_switch dataType data w)
  = if reads_device dataType && nullish data then Throw TypeError else Ok tt.
Proof.
  assert (Hp : forall k, fst ((prop data k ;;; ret tt) w)
                         = if nullish data then Throw TypeError else Ok tt).
  { intros k. unfold prop. destruct (nullish data); reflexivity. }
  unfold webhook_log_switch, reads_device. destruct dataType; try reflexivity.
  destruct (_ =? _)%string; [apply Hp |].
  destruct (_ =? _)%string; [apply Hp | reflexivity].
Qed.

Lemma webhook_unauthorized (env : Env) (apiKey : option string) (body : jv)
  (w : World) :
  strict_eq apiKey (WHATSAPP_WEBHOOK_AUTH env) = false ->
  webhook_handler P env apiKey body w = (Ok unauthorized_webhook, w).
Proof. intros H. unfold webhook_handler. rewrite H. reflexivity. Qed.

Lemma webhook_authorized (env : Env) (apiKey : option string) (body : jv)
  (w : World) :
  strict_eq apiKey (WHATSAPP_WEBHOOK_AUTH env) = true ->
  nullish body = false ->
  let dataType := member body "dataType" in
  let sessionId := member body "sessionId" in
  let w2 := snd (webhook_status_update P sessionId dataType (after_receipt P body w)) in
  webhook_handler P env apiKey body w =
  match fst (webhook_log_switch dataType (member body "data") w2) with
  | Ok _ =>
      (Ok (webhook_ack dataType sessionId),
       snd (webhook_save_message P (webhook_messageData body) sessionId w2))
  | Throw e => (Throw e, w2)
  end.
Proof.
  intros Hauth Hbody dataType sessionId w2.
  assert (Hp : prop body "dataType" = ret dataType).
  { unfold prop. rewrite Hbody. reflexivity. }
  unfold webhook_handler. rewrite Hauth, Hp. cbn [negb].
  rewrite bind_ret, bind_new_Date, bind_modify.
  subst w2. unfold after_receipt. fold dataType sessionId.
  rewrite bind_split, status_update_ok.
  rewrite bind_split, log_switch_pure.
  destruct (fst (webhook_log_switch _ _ _)) as [[] | e]; [| reflexivity].
  rewrite bind_split, save_message_ok. reflexivity.
Qed.

End Webhook.

(* ------------------------------------------------------------------------- *)
(** ** Webhook ingestion: acknowledgment and frame                            *)
(* ------------------------------------------------------------------------- *)

Section WebhookProperties.

Variable P : Platform.
Variable env : Env.
Variable apiKey : option string.
Hypothesis authenticated : strict_eq apiKey (WHATSAPP_WEBHOOK_AUTH env) = true.

(** Authentication passed, and the log switch does not read [data.device]
    on a missing [data]: the delivery is acknowledged. *)
Lemma webhook_acknowledges (body : jv) (w : World) :
  nullish body = false ->
  reads_device (member body "dataType") && nullish (member body "data") = false ->
  fst (deliver P env apiKey body w)
  = webhook_ack (member body "dataType") (member body "sessionId").
Proof.
  intros Hbody Hsafe. unfold deliver, serve.
  rewrite (webhook_authorized P env apiKey body w authenticated Hbody). cbv zeta.
  rewrite log_switch_result, Hsafe. reflexivity.
Qed.

(** No delivery creates or changes a contact. *)
Lemma webhook_contacts (body : jv) (w : World) :
  contacts (snd (deliver P env apiKey body w)) = contacts w.
Proof.
  unfold deliver, serve. destruct (nullish body) eqn:Hbody.
  - unfold webhook_handler. rewrite authenticated. cbn [negb].
    rewrite bind_split. unfold prop. rewrite Hbody. reflexivity.
  - rewrite (webhook_authorized P env apiKey body w authenticated Hbody). cbv zeta.
    destruct (fst (webhook_log_switch _ _ _)) as [[] | e]; cbn [snd].
    + rewrite save_message_contacts, status_update_contacts. reflexivity.
    + rewrite status_update_contacts. reflexivity.
Qed.

Lemma webhook_session_ids (body : jv) (w : World) :
  session_ids (snd (deliver P env apiKey body w)) = session_ids w.
Proof.
  unfold deliver, serve. destruct (nullish body) eqn:Hbody.
  - unfold webhook_handler. rewrite authenticated. cbn [negb].
    rewrite bind_split. unfold prop. rewrite Hbody. reflexivity.
  - rewrite (webhook_authorized P env apiKey body w authenticated Hbody). cbv zeta.
    unfold session_ids.
    destruct (fst (webhook_log_switch _ _ _)) as [[] | e]; cbn [snd].
    + rewrite save_message_devices. apply (status_update_session_ids P).
    + apply (status_update_session_ids P).
Qed.

(** Without a device for the [sessionId] of the delivery, the message
    block saves nothing. *)
Lemma save_message_no_device (messageData sessionId : jv) (w : World) :
  (forall s, sessionId = JStr s -> find_device s (devices w) = None) ->
  messages (snd (webhook_save_message P messageData sessionId w)) = messages w.
Proof.
  intros Hnone. unfold webhook_save_message.
  destruct (_ && _); [| reflexivity].
  rewrite try_catch_split, bind_split.
  destruct sessionId as [| | b | z | s | l | f]; try reflexivity.
  rewrite getDeviceBySessionId_result, getDeviceBySessionId_pure.
  rewrite (Hnone s eq_refl). reflexivity.
Qed.

(** A delivery whose [sessionId] matches no device creates no message. *)
Lemma webhook_messages_no_device (body : jv) (w : World) :
  (forall s, member body "sessionId" = JStr s -> find_device s (devices w) = None) ->
  messages (snd (deliver P env apiKey body w)) = messages w.
Proof.
  intros Hnone. unfold deliver, serve. destruct (nullish body) eqn:Hbody.
  - unfold webhook_handler. rewrite authenticated. cbn [negb].
    rewrite bind_split. unfold prop. rewrite Hbody. reflexivity.
  - rewrite (webhook_authorized P env apiKey body w authenticated Hbody). cbv zeta.
    destruct (fst (webhook_log_switch _ _ _)) as [[] | e]; cbn [snd].
    + rewrite save_message_no_device.
      * rewrite status_update_messages. reflexivity.
      * intros s Hs. apply find_device_none.
        pose proof (status_update_session_ids P (member body "sessionId")
                      (member body "dataType") (after_receipt P body w)) as Hids.
        unfold session_ids in Hids. rewrite Hids.
        apply find_device_none. apply (Hnone s Hs).
    + rewrite status_update_messages. reflexivity.
Qed.



End WebhookProperties.

(** C1, at the input on which the code departs from it: an authenticated
    delivery [{sessionId, dataType: "device_linked"}] without a [data]
    object is not acknowledged.  The log line of the second [switch] reads
    [data.device] outside every [try]; the [TypeError] reaches the
    application error handler, which answers 500. *)
Theorem webhook_device_linked_without_data_is_500 :
  forall (P : Platform) (secret : string) (remoteKey remoteUrl : option string)
         (sid : string) (w : World),
    fst (deliver P (mkEnv (Some secret) remoteKey remoteUrl) (Some secret)
           (JObj [("sessionId", JStr sid); ("dataType", JStr "device_linked")]) w)
    = json_reply 500 (JObj [("error", JStr "Internal Server Error")]).
Proof.
  intros P secret remoteKey remoteUrl sid w. unfold deliver, serve.
  rewrite webhook_authorized.
  - cbv zeta. rewrite log_switch_result. reflexivity.
  - cbn. apply String.eqb_refl.
  - reflexivity.
Qed.

(** C9, with the input on which the code departs from it.  An
    authenticated delivery whose [sessionId] matches no device creates no
    message and no contact, and is acknowledged with 200 when its body is
    an object that does not make the log switch read [data.device] on a
    missing [data]; a [device_linked] or [device_unlinked] delivery
    without [data] is answered with 500 instead. *)
Theorem webhook_unresolvable_session_frame :
  forall (P : Platform) (env : Env) (apiKey : option string) (body : jv)
         (w : World),
    strict_eq apiKey (WHATSAPP_WEBHOOK_AUTH env) = true ->
    (forall s, member body "sessionId" = JStr s -> find_device s (devices w) = None) ->
    messages (snd (deliver P env apiKey body w)) = messages w
    /\ contacts (snd (deliver P env apiKey body w)) = contacts w
    /\ (nullish body = false ->
        reads_device (member body "dataType") && nullish (member body "data") = false ->
        code (fst (deliver P env apiKey body w)) = 200)
    /\ (reads_device (member body "dataType") && nullish (member body "data") = true ->
        code (fst (deliver P env apiKey body w)) = 500).
Proof.
  intros P env apiKey body w Hauth Hnone. split; [| split; [| split]].
  - apply webhook_messages_no_device; assumption.
  - apply webhook_contacts. exact Hauth.
  - intros Hbody Hsafe.
    rewrite (webhook_acknowledges P env apiKey Hauth body w Hbody Hsafe). reflexivity.
  - intros Hthrows.
    assert (Hbody : nullish body = false).
    { destruct body; try reflexivity; discriminate. }
    unfold deliver, serve.
    rewrite (webhook_authorized P env apiKey body w Hauth Hbody). cbv zeta.
    rewrite log_switch_result, Hthrows. reflexivity.
Qed.

Lemma webhook_unresolvable_session_frame_witness :
  find_device "ghost" (devices ready_world) = None
  /\ code (fst (deliver sample_platform sample_env (Some "hook-secret")
                  (JObj [("sessionId", JStr "ghost");
                         ("dataType", JStr "device_unlinked")]) ready_world)) = 500.
Proof.
  split; [reflexivity |].
  apply (webhook_unresolvable_session_frame sample_platform sample_env
           (Some "hook-secret")
           (JObj [("sessionId", JStr "ghost"); ("dataType", JStr "device_unlinked")])
           ready_world).
  - reflexivity.
  - intros s Hs. injection Hs as <-. reflexivity.
  - reflexivity.
Defined.

(* ------------------------------------------------------------------------- *)
(** ** Device lifecycle                                                       *)
(* ------------------------------------------------------------------------- *)




(* ------------------------------------------------------------------------- *)
(** ** Message normalization                                                  *)
(* ------------------------------------------------------------------------- *)

Lemma opt_member_member (v : jv) (k : string) : opt_member v k = member v k.
Proof. destruct v; reflexivity. Qed.

Lemma truthy_js_and (a b : jv) : truthy (js_and a b) = truthy a && truthy b.
Proof. unfold js_and. destruct (truthy a) eqn:E; [reflexivity | exact E]. Qed.

Lemma truthy_not_nullish (v : jv) : truthy v = true -> nullish v = false.
Proof. destruct v; try reflexivity; discriminate. Qed.

(** A falsy value has no properties. *)
Lemma falsy_member (v : jv) (k : string) :
  truthy v = false -> member v k = JUndefined.
Proof. destruct v; try reflexivity; discriminate. Qed.

Lemma select_message_spec (payload : jv) :
  select_message payload = spec_message_source payload.
Proof.
  unfold select_message, spec_message_source.
  cbn [first_present at_path]. rewrite !opt_member_member, !truthy_js_and.
  destruct (truthy payload) eqn:Hp; cbn [andb].
  - destruct (truthy (member payload "message")) eqn:Hm; cbn [andb].
    + reflexivity.
    + rewrite (falsy_member _ "_data" Hm). reflexivity.
  - rewrite (falsy_member payload "_data" Hp), (falsy_member payload "message" Hp).
    reflexivity.
Qed.

Lemma select_message_not_nullish (payload : jv) :
  nullish payload = false -> nullish (select_message payload) = false.
Proof.
  intros Hp. unfold select_message.
  repeat match goal with
         | |- context [if truthy (js_and ?a ?b) then _ else _] =>
             let E := fresh "E" in
             destruct (truthy (js_and a b)) eqn:E;
             [rewrite truthy_js_and in E; apply andb_prop in E;
              apply truthy_not_nullish; apply E |]
         end.
  exact Hp.
Qed.

(** [saveMessage] on a source that is not nullish: the row is written
    unless Prisma refuses it. *)
Lemma saveMessage_run (P : Platform) (deviceKey : string) (payload : jv)
  (w : World) :
  nullish (select_message payload) = false ->
  saveMessage P deviceKey payload w
  = if message_ok P (message_row P deviceKey payload w)
    then (Ok (message_row P deviceKey payload w),
          with_messages (messages w ++ [message_row P deviceKey payload w])
                        (bump (bump w)))
    else (Throw PrismaValidation, bump (bump w)).
Proof.
  intros Hsel. unfold saveMessage. cbv zeta. rewrite bind_uuidv4.
  unfold prop. rewrite Hsel. rewrite bind_ret, bind_new_Date.
  unfold messages_create, message_row. cbn [tick bump].
  destruct (message_ok P _); reflexivity.
Qed.

(** C4.  For every message payload (a value other than [null] and
    [undefined]): the object the fields are read from is [_data], else
    [message._data], else [message], else the payload; [messageId] is
    [id._serialized], else [id], else the empty string; the timestamp is
    [t], else [timestamp], else [0]; the sender is [from.user], else
    [from], and likewise the recipient for [to]; and [saveMessage] rejects
    no payload itself: it hands the row to the store, which persists it
    when the columns accept it, as they do the empty-string and zero
    defaults of a payload without identity. *)
Theorem message_normalization_precedence :
  forall (P : Platform) (deviceKey : string) (payload : jv) (w : World),
    nullish payload = false ->
    let source := spec_message_source payload in
    let row := message_row P deviceKey payload w in
    select_message payload = source
    /\ m_messageId row = spec_messageId source
    /\ m_timestamp row = spec_timestamp source
    /\ m_from row = spec_sender source
    /\ m_to row = spec_recipient source
    /\ (message_ok P row = true ->
        saveMessage P deviceKey payload w
        = (Ok row, with_messages (messages w ++ [row]) (bump (bump w))))
    /\ (truthy (at_path source ["id"; "_serialized"]) = false ->
        truthy (at_path source ["id"]) = false ->
        truthy (at_path source ["t"]) = false ->
        truthy (at_path source ["timestamp"]) = false ->
        m_messageId row = JStr "" /\ m_timestamp row = JNum 0).
Proof.
  intros P deviceKey payload w Hp source row.
  assert (Hfields :
            m_messageId row = spec_messageId source
            /\ m_timestamp row = spec_timestamp source
            /\ m_from row = spec_sender source
            /\ m_to row = spec_recipient source).
  { subst row source. unfold message_row. rewrite select_message_spec.
    unfold spec_messageId, spec_timestamp, spec_sender, spec_recipient.
    cbn [messageRecord m_messageId m_timestamp m_from m_to first_present at_path].
    rewrite !opt_member_member. unfold js_or.
    repeat split;
      repeat match goal with
             | |- context [truthy ?v] => destruct (truthy v) eqn:?
             end; congruence. }
  destruct Hfields as (Hid & Hts & Hfrom & Hto).
  split; [apply select_message_spec |].
  split; [exact Hid |]. split; [exact Hts |].
  split; [exact Hfrom |]. split; [exact Hto |]. split.
  - intros Hok. subst row.
    rewrite saveMessage_run by (apply select_message_not_nullish; exact Hp).
    rewrite Hok. reflexivity.
  - intros Hser Hidf Ht Htsf. split.
    + rewrite Hid. unfold spec_messageId. cbn [first_present].
      rewrite Hser, Hidf. reflexivity.
    + rewrite Hts. unfold spec_timestamp. cbn [first_present].
      rewrite Ht, Htsf. reflexivity.
Qed.

Lemma message_normalization_precedence_witness :
  nullish (JObj [("message", JObj [("from", JObj [("user", JStr "111")]);
                                   ("body", JStr "hi")])]) = false
  /\ saveMessage sample_platform "K3Y00001"
       (JObj [("message", JObj [("from", JObj [("user", JStr "111")]);
                                ("body", JStr "hi")])]) ready_world
     = (Ok (mkMessage "uuid-0" "K3Y00001" (JStr "") (JNum 0) JNull (JStr "hi")
              (JBool false) (JBool false) (JNum 0) (JStr "111") (JBool false)
              JNull (JStr "") 1700000001),
        with_messages
          [mkMessage "uuid-0" "K3Y00001" (JStr "") (JNum 0) JNull (JStr "hi")
             (JBool false) (JBool false) (JNum 0) (JStr "111") (JBool false)
             JNull (JStr "") 1700000001]
          (bump (bump ready_world))).
Proof.
  split; [reflexivity |].
  apply (message_normalization_precedence sample_platform "K3Y00001"
           (JObj [("message", JObj [("from", JObj [("user", JStr "111")]);
                                    ("body", JStr "hi")])])
           ready_world eq_refl).
  reflexivity.
Defined.

(** C7.  For every set of message fields [F] (a value that is not itself
    a wrapper: it has no [_data] and no [message] of its own),
    [saveMessage] on [{message: {_data: F}}] and on the bare [F] write the
    same row: every canonical field is equal, and so is the outcome of the
    call. *)
Theorem nested_and_bare_payload_normalize_alike :
  forall (P : Platform) (deviceKey : string) (F : jv) (w : World),
    nullish F = false ->
    truthy (member F "_data") = false ->
    truthy (member F "message") = false ->
    let nested := JObj [("message", JObj [("_data", F)])] in
    message_row P deviceKey nested w = message_row P deviceKey F w
    /\ saveMessage P deviceKey nested w = saveMessage P deviceKey F w
    /\ (message_ok P (message_row P deviceKey F w) = true ->
        fst (saveMessage P deviceKey F w) = Ok (message_row P deviceKey F w)).
Proof.
  intros P deviceKey F w Hnull Hdata Hmsg nested.
  assert (Hbare : select_message F = F).
  { unfold select_message. rewrite !truthy_js_and, Hdata, Hmsg, !andb_false_r.
    reflexivity. }
  assert (Hrow : message_row P deviceKey nested w = message_row P deviceKey F w).
  { unfold message_row. rewrite Hbare. subst nested.
    destruct (truthy F) eqn:HF.
    - replace (select_message (JObj [("message", JObj [("_data", F)])])) with F;
        [reflexivity |].
      unfold select_message. rewrite !truthy_js_and. cbn. rewrite HF. reflexivity.
    - replace (select_message (JObj [("message", JObj [("_data", F)])]))
        with (JObj [("_data", F)]).
      + destruct F; try discriminate; reflexivity.
      + unfold select_message. rewrite !truthy_js_and. cbn. rewrite HF. reflexivity. }
  assert (Hrun : forall payload, nullish payload = false ->
            saveMessage P deviceKey payload w
            = if message_ok P (message_row P deviceKey payload w)
              then (Ok (message_row P deviceKey payload w),
                    with_messages
                      (messages w ++ [message_row P deviceKey payload w])
                      (bump (bump w)))
              else (Throw PrismaValidation, bump (bump w))).
  { intros payload Hp. apply saveMessage_run, select_message_not_nullish, Hp. }
  split; [exact Hrow | split].
  - rewrite (Hrun nested eq_refl), (Hrun F Hnull), Hrow. reflexivity.
  - intros Hok. rewrite (Hrun F Hnull), Hok. reflexivity.
Qed.

Lemma nested_and_bare_payload_normalize_alike_witness :
  let F := JObj [("id", JObj [("_serialized", JStr "msg1")]);
                 ("from", JStr "111@c.us"); ("body", JStr "hi");
                 ("t", JNum 1000)] in
  m_messageId (message_row sample_platform "K3Y00001" F ready_world) = JStr "msg1"
  /\ saveMessage sample_platform "K3Y00001" (JObj [("message", JObj [("_data", F)])])
       ready_world
     = saveMessage sample_platform "K3Y00001" F ready_world.
Proof.
  intros F. split; [reflexivity |].
  apply (nested_and_bare_payload_normalize_alike sample_platform "K3Y00001" F
           ready_world eq_refl eq_refl eq_refl).
Defined.

(* ------------------------------------------------------------------------- *)
(** ** Contacts                                                               *)
(* ------------------------------------------------------------------------- *)

Lemma find_contact_none (cid : string) (cs : list Contact) :
  find_contact cid cs = None ->
  List.existsb (fun c => (c_contactId c =? cid)%string) cs = false.
Proof.
  unfold find_contact. induction cs as [| c cs IH]; cbn [List.find List.existsb].
  - reflexivity.
  - destruct (c_contactId c =? cid)%string; [discriminate | exact IH].
Qed.

(** [saveContact] on a contact that is not nullish: an update of the row
    with its [contactId] when there is one, a new row otherwise, unless
    Prisma refuses the columns. *)
Lemma saveContact_run (P : Platform) (deviceKey : string) (contactData : jv)
  (w : World) :
  nullish contactData = false ->
  let cid := contact_id_in P contactData w in
  let fields := contact_fields_in P deviceKey contactData w in
  saveContact P deviceKey contactData w
  = if contact_ok P fields
    then match find_contact cid (contacts w) with
         | Some existing =>
             (Ok (set_fields cid fields existing),
              with_contacts (List.map (set_fields cid fields) (contacts w))
                            (bump (bump w)))
         | None =>
             (Ok (mkContact (uuid_at P (tick w)) cid fields),
              with_contacts (contacts w ++ [mkContact (uuid_at P (tick w)) cid fields])
                            (bump (bump w)))
         end
    else (Throw PrismaValidation, bump (bump w)).
Proof.
  intros Hc cid fields. unfold saveContact. rewrite bind_uuidv4.
  unfold prop. rewrite Hc, bind_ret. fold (contact_id_in P contactData w). fold cid.
  change (bind (contacts_findUnique cid) ?k (bump w))
    with (k (find_contact cid (contacts w)) (bump w)).
  cbv beta.
  destruct (find_contact cid (contacts w)) as [existing |] eqn:Hfind.
  - rewrite bind_new_Date. cbn [tick bump]. fold (contact_fields_in P deviceKey contactData w).
    fold fields. unfold contacts_update. destruct (contact_ok P fields); [| reflexivity].
    rewrite bind_get_world. cbn [contacts bump]. rewrite Hfind. reflexivity.
  - rewrite bind_new_Date. cbn [tick bump]. fold (contact_fields_in P deviceKey contactData w).
    fold fields. unfold contacts_create. cbn [c_fields c_contactId].
    destruct (contact_ok P fields); [| reflexivity].
    rewrite bind_get_world. cbn [contacts bump].
    rewrite (find_contact_none _ _ Hfind). reflexivity.
Qed.

Lemma saveContact_nullish (P : Platform) (deviceKey : string) (contactData : jv)
  (w : World) :
  nullish contactData = true ->
  saveContact P deviceKey contactData w = (Throw TypeError, bump w).
Proof.
  intros Hc. unfold saveContact. rewrite bind_uuidv4. unfold prop. rewrite Hc.
  reflexivity.
Qed.

Lemma find_contact_In (cid : string) (cs : list Contact) (c : Contact) :
  find_contact cid cs = Some c -> In c cs /\ c_contactId c = cid.
Proof.
  unfold find_contact. intros H. apply List.find_some in H.
  destruct H as [Hin Heq]. split; [exact Hin | apply String.eqb_eq; exact Heq].
Qed.

(** [x || true] on a value a [Boolean] column accepts. *)
Lemma or_true_boolean (v : jv) :
  is_boolean (v ||| JBool true) = true -> v ||| JBool true = JBool true.
Proof.
  unfold js_or. destruct v as [| | [|] | z | s | l | f]; cbn; try reflexivity;
    try discriminate.
  - destruct (negb (z =? 0)); [discriminate | reflexivity].
  - destruct (negb (s =? "")%string); [discriminate | reflexivity].
Qed.

(** The row [saveContact] returns is in the table, with the columns the
    call computed, which Prisma has accepted. *)
Lemma saveContact_returns (P : Platform) (deviceKey : string) (contactData : jv)
  (w w' : World) (row : Contact) :
  saveContact P deviceKey contactData w = (Ok row, w') ->
  In row (contacts w')
  /\ c_fields row = contact_fields_in P deviceKey contactData w
  /\ contact_ok P (c_fields row) = true.
Proof.
  intros Hrun. destruct (nullish contactData) eqn:Hc.
  - rewrite saveContact_nullish in Hrun by exact Hc. discriminate.
  - rewrite saveContact_run in Hrun by exact Hc. cbv zeta in Hrun.
    destruct (contact_ok P _) eqn:Hok; [| discriminate].
    destruct (find_contact _ (contacts w)) as [existing |] eqn:Hfind;
      injection Hrun as <- <-; cbn [contacts with_contacts].
    + destruct (find_contact_In _ _ _ Hfind) as [Hin Hid].
      split; [| split].
      * apply List.in_map. exact Hin.
      * unfold set_fields. rewrite Hid, String.eqb_refl. reflexivity.
      * unfold set_fields. rewrite Hid, String.eqb_refl. exact Hok.
    + split; [| split; [reflexivity | exact Hok]].
      apply List.in_or_app. right. left. reflexivity.
Qed.

(** C10.  With the [isUser] column declared [Boolean], every contact row
    the contact save operation creates or updates has [isUser] equal to
    [true], whatever [isUser] the payload carries; in particular the
    written value is [true] for a payload with an explicit [isUser: false],
    as it is for every payload whose [isUser] is a boolean, [null] or
    absent. *)
Theorem saved_contact_isUser_true :
  forall (P : Platform),
    isUser_is_Boolean P ->
    (forall (deviceKey : string) (contactData : jv) (w w' : World) (row : Contact),
        saveContact P deviceKey contactData w = (Ok row, w') ->
        In row (contacts w') /\ c_isUser (c_fields row) = JBool true)
    /\ (forall (deviceKey : string) (contactData : jv) (now : Z),
          is_boolean (member contactData "isUser") = true
          \/ nullish (member contactData "isUser") = true ->
          c_isUser (contactRecord deviceKey contactData now) = JBool true).
Proof.
  intros P Hschema. split.
  - intros deviceKey contactData w w' row Hrun.
    destruct (saveContact_returns P deviceKey contactData w w' row Hrun)
      as (Hin & Hfields & Hok).
    split; [exact Hin |].
    pose proof (Hschema _ Hok) as Hbool. rewrite Hfields in Hbool |- *.
    apply or_true_boolean. exact Hbool.
  - intros deviceKey contactData now Hshape. cbn [contactRecord c_isUser].
    destruct (member contactData "isUser") as [| | [|] | z | s | l | f];
      cbn in Hshape |- *; try reflexivity;
      destruct Hshape; discriminate.
Qed.

Lemma saved_contact_isUser_true_witness :
  isUser_is_Boolean sample_platform
  /\ c_isUser (c_fields
       (mkContact "uuid-0" "628111@c.us"
          (contact_fields_in sample_platform "K3Y00001"
             (JObj [("id", JObj [("_serialized", JStr "628111@c.us")]);
                    ("isUser", JBool false)]) ready_world)))
     = JBool true.
Proof.
  assert (Hschema : isUser_is_Boolean sample_platform).
  { intros f Hok. cbn in Hok. apply andb_prop in Hok. apply Hok. }
  split; [exact Hschema |].
  destruct (saved_contact_isUser_true sample_platform Hschema) as [Hrows _].
  apply (Hrows "K3Y00001"
           (JObj [("id", JObj [("_serialized", JStr "628111@c.us")]);
                  ("isUser", JBool false)])
           ready_world
           (with_contacts
              [mkContact "uuid-0" "628111@c.us"
                 (contact_fields_in sample_platform "K3Y00001"
                    (JObj [("id", JObj [("_serialized", JStr "628111@c.us")]);
                           ("isUser", JBool false)]) ready_world)]
              (bump (bump ready_world)))).
  reflexivity.
Defined.

(** *** Bulk save: the filter and the upsert *)

Lemma first_present_chain (a b c d e : jv) :
  first_present [a; b; c; d] e = a ||| b ||| c ||| d ||| e.
Proof.
  cbn [first_present]. unfold js_or.
  destruct (truthy a) eqn:Ha; repeat (cbv iota; rewrite ?Ha); [reflexivity |].
  destruct (truthy b) eqn:Hb; repeat (cbv iota; rewrite ?Hb); [reflexivity |].
  destruct (truthy c) eqn:Hc; repeat (cbv iota; rewrite ?Hc); [reflexivity |].
  destruct (truthy d) eqn:Hd; repeat (cbv iota; rewrite ?Hd); reflexivity.
Qed.

Lemma spec_contact_identity_chain (contact : jv) :
  spec_contact_identity contact
  = stringify_unless_string (identity_chain contact ||| JStr "").
Proof.
  unfold spec_contact_identity, identity_chain. rewrite first_present_chain.
  cbn [at_path]. rewrite !opt_member_member. reflexivity.
Qed.

Lemma user_contact_chain_truthy (contact : jv) :
  is_user_contact contact = true -> truthy (identity_chain contact) = true.
Proof.
  unfold is_user_contact. rewrite spec_contact_identity_chain. unfold js_or at 1.
  destruct (truthy (identity_chain contact)); [reflexivity | discriminate].
Qed.

Lemma user_contact_not_nullish (contact : jv) :
  is_user_contact contact = true -> nullish contact = false.
Proof.
  destruct contact; try reflexivity; discriminate.
Qed.

(** A user contact is saved under the identity the filter looked at. *)
Lemma user_contact_id (P : Platform) (contact : jv) (w : World) :
  is_user_contact contact = true ->
  contact_id_in P contact w = spec_contact_identity contact.
Proof.
  intros Huser. rewrite spec_contact_identity_chain. unfold contact_id_in.
  unfold js_or. rewrite (user_contact_chain_truthy _ Huser). reflexivity.
Qed.

Section BulkSave.

Variable P : Platform.
Variable deviceKey : string.

(** A contact without the suffix, or that is [null]: the round does
    nothing. *)
Lemma saveContacts_step_skips (results : list Contact) (contact : jv) (w : World) :
  is_user_contact contact = false ->
  saveContacts_step P deviceKey results contact w = (Ok results, w).
Proof.
  intros Hskip. unfold saveContacts_step. rewrite try_catch_split.
  unfold prop. destruct (nullish contact) eqn:Hc.
  - reflexivity.
  - rewrite bind_ret. rewrite <- spec_contact_identity_chain.
    unfold is_user_contact in Hskip. rewrite Hskip. reflexivity.
Qed.

(** A contact with the suffix: the round is [saveContact], whose failure
    is logged and skipped. *)
Lemma saveContacts_step_saves (results : list Contact) (contact : jv) (w : World) :
  is_user_contact contact = true ->
  saveContacts_step P deviceKey results contact w
  = match fst (saveContact P deviceKey contact w) with
    | Ok row => (Ok (results ++ [row])%list, snd (saveContact P deviceKey contact w))
    | Throw _ => (Ok results, snd (saveContact P deviceKey contact w))
    end.
Proof.
  intros Huser. unfold saveContacts_step. rewrite try_catch_split.
  unfold prop. rewrite (user_contact_not_nullish _ Huser), bind_ret.
  rewrite <- spec_contact_identity_chain.
  unfold is_user_contact in Huser. rewrite Huser.
  rewrite bind_split. destruct (fst (saveContact P deviceKey contact w)); reflexivity.
Qed.

Lemma saveContacts_from_filter (contactsData : list jv) :
  forall (results : list Contact) (w : World),
    saveContacts_from P deviceKey results contactsData w
    = saveContacts_from P deviceKey results
        (List.filter is_user_contact contactsData) w.
Proof.
  induction contactsData as [| contact rest IH]; intros results w.
  - reflexivity.
  - cbn [List.filter saveContacts_from].
    destruct (is_user_contact contact) eqn:Huser.
    + cbn [saveContacts_from]. rewrite !bind_split.
      destruct (fst (saveContacts_step P deviceKey results contact w));
        [apply IH | reflexivity].
    + rewrite bind_split, saveContacts_step_skips by exact Huser. apply IH.
Qed.

End BulkSave.

Lemma NoDup_snoc {A} (l : list A) (x : A) :
  NoDup l -> ~ In x l -> NoDup (l ++ [x]).
Proof.
  induction l as [| a l IH]; intros Hnd Hx; cbn.
  - constructor; [intros [] | constructor].
  - inversion Hnd as [| ? ? Ha Hl]; subst. constructor.
    + intros Hin. apply List.in_app_or in Hin. destruct Hin as [Hin | [-> | []]].
      * exact (Ha Hin).
      * apply Hx. left. reflexivity.
    + apply IH; [exact Hl | intros Hin; apply Hx; right; exact Hin].
Qed.

Lemma find_contact_absent (cid : string) (cs : list Contact) :
  find_contact cid cs = None <-> ~ In cid (List.map c_contactId cs).
Proof.
  unfold find_contact. induction cs as [| c cs IH]; cbn [List.find List.map In].
  - tauto.
  - destruct (String.eqb_spec (c_contactId c) cid) as [E | E].
    + split; [discriminate | intros H; exfalso; apply H; left; exact E].
    + rewrite IH. tauto.
Qed.

Lemma filter_absent (cid : string) (cs : list Contact) :
  ~ In cid (List.map c_contactId cs) ->
  List.filter (fun c => (c_contactId c =? cid)%string) cs = [].
Proof.
  induction cs as [| c cs IH]; cbn [List.filter List.map In]; intros Hnot.
  - reflexivity.
  - destruct (String.eqb_spec (c_contactId c) cid) as [E | E].
    + exfalso. apply Hnot. left. exact E.
    + apply IH. intros Hin. apply Hnot. right. exact Hin.
Qed.

(** Under the unique constraint, the row [findUnique] finds is the only
    one with its [contactId]. *)
Lemma filter_unique (cid : string) (cs : list Contact) (c : Contact) :
  NoDup (List.map c_contactId cs) ->
  find_contact cid cs = Some c ->
  List.filter (fun c => (c_contactId c =? cid)%string) cs = [c].
Proof.
  unfold find_contact.
  induction cs as [| c0 cs IH]; cbn [List.find List.filter List.map]; intros Hnd Hfind.
  - discriminate.
  - inversion Hnd as [| ? ? Hc0 Hcs]; subst.
    destruct (String.eqb_spec (c_contactId c0) cid) as [E | E].
    + injection Hfind as <-. rewrite filter_absent; [reflexivity |].
      rewrite <- E. exact Hc0.
    + apply IH; assumption.
Qed.

Lemma set_fields_contactId (cid : string) (f : ContactFields) (c : Contact) :
  c_contactId (set_fields cid f c) = c_contactId c.
Proof. unfold set_fields. destruct (_ =? _)%string; reflexivity. Qed.

Lemma map_set_fields_ids (cid : string) (f : ContactFields) (cs : list Contact) :
  List.map c_contactId (List.map (set_fields cid f) cs) = List.map c_contactId cs.
Proof.
  rewrite List.map_map. apply List.map_ext. intros c. apply set_fields_contactId.
Qed.

Lemma filter_map_set_fields (cid : string) (f : ContactFields) (cs : list Contact) :
  List.filter (fun c => (c_contactId c =? cid)%string) (List.map (set_fields cid f) cs)
  = List.map (set_fields cid f)
      (List.filter (fun c => (c_contactId c =? cid)%string) cs).
Proof.
  induction cs as [| c cs IH]; cbn [List.filter List.map].
  - reflexivity.
  - rewrite set_fields_contactId.
    destruct (c_contactId c =? cid)%string; cbn [List.map]; rewrite IH; reflexivity.
Qed.

(** One [saveContact] of a contact Prisma accepts, on a table that
    satisfies the unique constraint: afterwards the table satisfies it
    still and holds exactly one row with the [contactId], carrying the
    columns just computed. *)
Lemma saveContact_upsert (P : Platform) (deviceKey : string) (contactData : jv)
  (w : World) :
  nullish contactData = false ->
  contact_ok P (contact_fields_in P deviceKey contactData w) = true ->
  NoDup (contact_ids w) ->
  let w' := snd (saveContact P deviceKey contactData w) in
  exists row,
    fst (saveContact P deviceKey contactData w) = Ok row
    /\ contacts_with (contact_id_in P contactData w) w' = [row]
    /\ c_fields row = contact_fields_in P deviceKey contactData w
    /\ NoDup (contact_ids w')
    /\ tick w' = S (S (tick w)).
Proof.
  intros Hc Hok Hnd. cbv zeta. rewrite (saveContact_run P deviceKey contactData w Hc).
  cbv zeta. rewrite Hok. unfold contacts_with, contact_ids in *.
  set (cid := contact_id_in P contactData w).
  set (fields := contact_fields_in P deviceKey contactData w).
  destruct (find_contact cid (contacts w)) as [existing |] eqn:Hfind;
    cbn [fst snd contacts with_contacts tick bump].
  - exists (set_fields cid fields existing).
    destruct (find_contact_In _ _ _ Hfind) as [_ Hid].
    split; [reflexivity | split; [| split; [| split]]].
    + rewrite filter_map_set_fields, (filter_unique cid _ existing Hnd Hfind).
      reflexivity.
    + unfold set_fields. rewrite Hid, String.eqb_refl. reflexivity.
    + rewrite map_set_fields_ids. exact Hnd.
    + reflexivity.
  - exists (mkContact (uuid_at P (tick w)) cid fields).
    apply find_contact_absent in Hfind.
    split; [reflexivity | split; [| split; [| split]]].
    + rewrite List.filter_app, (filter_absent cid _ Hfind).
      cbn [List.filter c_contactId app]. rewrite String.eqb_refl. reflexivity.
    + reflexivity.
    + rewrite List.map_app. apply NoDup_snoc; assumption.
    + reflexivity.
Qed.

(** *** The columns of a saved contact are those of the payload *)

Lemma first_present_1 (a e : jv) : first_present [a] e = a ||| e.
Proof. reflexivity. Qed.

Lemma first_present_2 (a b e : jv) : first_present [a; b] e = a ||| b ||| e.
Proof.
  cbn [first_present]. unfold js_or.
  destruct (truthy a) eqn:Ha; repeat (cbv iota; rewrite ?Ha); reflexivity.
Qed.

Lemma first_present_3 (a b c e : jv) :
  first_present [a; b; c] e = a ||| b ||| c ||| e.
Proof.
  cbn [first_present]. unfold js_or.
  destruct (truthy a) eqn:Ha; repeat (cbv iota; rewrite ?Ha); [reflexivity |].
  destruct (truthy b) eqn:Hb; repeat (cbv iota; rewrite ?Hb); reflexivity.
Qed.

Lemma falsy_or_null (x : jv) : truthy (x ||| JNull) = false -> x ||| JNull = JNull.
Proof. unfold js_or. destruct (truthy x) eqn:E; [congruence | reflexivity]. Qed.

Lemma contact_number_spec (contact : jv) :
  contact_number contact = spec_contact_number contact.
Proof.
  unfold contact_number, spec_contact_number. cbv zeta.
  rewrite first_present_chain. cbn [at_path]. rewrite !opt_member_member.
  match goal with
  | |- context [negb (truthy ?n)] => set (number := n)
  end.
  destruct (truthy number) eqn:Hn; cbn [negb andb]; [reflexivity |].
  assert (Hnull : number = JNull) by exact (falsy_or_null _ Hn).
  rewrite Hnull. clear Hn Hnull. clearbody number.
  destruct (member contact "id") as [| | b | z | id | l | f];
    try (destruct (truthy _); reflexivity).
  destruct (truthy (JStr id)) eqn:Hid.
  - destruct (digits_before_at "" id); reflexivity.
  - destruct id; [reflexivity | discriminate].
Qed.

Lemma contact_website_spec (contact : jv) :
  contact_website contact = spec_contact_website contact.
Proof.
  unfold contact_website, spec_contact_website. cbn [at_path].
  rewrite !opt_member_member.
  destruct (member (member contact "businessProfile") "website");
    rewrite ?first_present_1, ?first_present_2; reflexivity.
Qed.

Lemma contact_categories_spec (contact : jv) :
  contact_categories contact = spec_contact_categories contact.
Proof.
  unfold contact_categories, spec_contact_categories. cbn [at_path].
  rewrite !opt_member_member.
  destruct (member (member contact "businessProfile") "categories");
    rewrite ?first_present_2; reflexivity.
Qed.

(** The [data] object of [saveContact] takes every column from the place
    of the payload the specification names for it. *)
Lemma contactRecord_spec (deviceKey : string) (contact : jv) (now : Z) :
  contactRecord deviceKey contact now = spec_contact_fields deviceKey contact now.
Proof.
  unfold contactRecord, spec_contact_fields. cbv zeta.
  rewrite contact_number_spec, contact_website_spec, contact_categories_spec.
  rewrite !first_present_1, !first_present_2, !first_present_3.
  cbn [at_path]. rewrite !opt_member_member. reflexivity.
Qed.

Lemma saveContacts_two (P : Platform) (deviceKey : string) (c1 c2 : jv) (w : World) :
  is_user_contact c1 = true ->
  is_user_contact c2 = true ->
  snd (saveContacts P deviceKey [c1; c2] w)
  = snd (saveContact P deviceKey c2 (snd (saveContact P deviceKey c1 w))).
Proof.
  intros H1 H2. unfold saveContacts. cbn [saveContacts_from].
  rewrite bind_split, (saveContacts_step_saves P deviceKey [] c1 w H1).
  destruct (fst (saveContact P deviceKey c1 w)) as [row1 | e1]; cbn [fst snd];
    rewrite bind_split, (saveContacts_step_saves P deviceKey _ c2 _ H2);
    destruct (fst (saveContact P deviceKey c2 _)); reflexivity.
Qed.

(** C5.  Bulk contact save treats a list of contact payloads as the list of
    those among them whose resolved identity ([id._serialized], else [id],
    else [contactId], else [number]) contains [@c.us]: a contact without
    the suffix produces no row and has no effect at all.  Saving a contact
    that has the suffix and then a contact with the same identity -- the
    same object, in particular -- leaves exactly one row with that
    [contactId], and its columns are those of the contact saved last: all
    of them are overwritten, none is merged.  They are the [data] object
    of [saveContact] for that contact, which is, column by column, the
    first value present among the places of the payload named for the
    column, [null] or the default of the column when none is. *)
Theorem contacts_filtered_and_upserted :
  forall (P : Platform) (deviceKey : string),
    (forall (contactsData : list jv) (w : World),
        saveContacts P deviceKey contactsData w
        = saveContacts P deviceKey (List.filter is_user_contact contactsData) w)
    /\ (forall (contactsData : list jv) (w : World),
          List.forallb (fun c => negb (is_user_contact c)) contactsData = true ->
          saveContacts P deviceKey contactsData w = (Ok [], w))
    /\ (forall (c1 c2 : jv) (w : World),
          NoDup (contact_ids w) ->
          is_user_contact c1 = true ->
          spec_contact_identity c2 = spec_contact_identity c1 ->
          (forall now, contact_ok P (contactRecord deviceKey c1 now) = true) ->
          (forall now, contact_ok P (contactRecord deviceKey c2 now) = true) ->
          exists row,
            contacts_with (spec_contact_identity c1)
              (snd (saveContacts P deviceKey [c1; c2] w)) = [row]
            /\ c_fields row
               = contactRecord deviceKey c2 (now_at P (3 + tick w)%nat)
            /\ c_fields row
               = spec_contact_fields deviceKey c2 (now_at P (3 + tick w)%nat)).
Proof.
  intros P deviceKey. split; [| split].
  - intros contactsData w. apply saveContacts_from_filter.
  - intros contactsData w Hall. unfold saveContacts.
    rewrite saveContacts_from_filter.
    replace (List.filter is_user_contact contactsData) with (@nil jv); [reflexivity |].
    induction contactsData as [| c rest IH]; [reflexivity |].
    cbn [List.forallb] in Hall. apply andb_prop in Hall. destruct Hall as [Hc Hrest].
    cbn [List.filter]. apply negb_true_iff in Hc. rewrite Hc. apply IH, Hrest.
  - intros c1 c2 w Hnd H1 Hsame Hok1 Hok2.
    assert (H2 : is_user_contact c2 = true).
    { unfold is_user_contact in *. rewrite Hsame. exact H1. }
    rewrite (saveContacts_two P deviceKey c1 c2 w H1 H2).
    destruct (saveContact_upsert P deviceKey c1 w
                (user_contact_not_nullish _ H1) (Hok1 _) Hnd)
      as (row1 & _ & _ & _ & Hnd1 & Htick1).
    set (w1 := snd (saveContact P deviceKey c1 w)) in *.
    destruct (saveContact_upsert P deviceKey c2 w1
                (user_contact_not_nullish _ H2) (Hok2 _) Hnd1)
      as (row2 & _ & Hone & Hfields & _ & _).
    exists row2. rewrite (user_contact_id P c2 w1 H2), Hsame in Hone.
    split; [exact Hone |].
    rewrite <- contactRecord_spec.
    rewrite Hfields. unfold contact_fields_in. rewrite Htick1.
    split; reflexivity.
Qed.

Lemma contacts_filtered_and_upserted_witness :
  let id := ("id", JObj [("_serialized", JStr "628111@c.us"); ("user", JStr "628111")]) in
  let c1 := JObj [id; ("name", JStr "Budi"); ("shortName", JStr "Bud");
                  ("isBusiness", JBool false)] in
  let c2 := JObj [id; ("pushname", JStr "Budi Santoso"); ("isBusiness", JBool true);
                  ("businessProfile", JObj [("email", JStr "budi@toko.example")])] in
  NoDup (contact_ids ready_world)
  /\ is_user_contact c1 = true
  /\ exists row,
       contacts_with "628111@c.us"
         (snd (saveContacts sample_platform "K3Y00001" [c1; c2] ready_world)) = [row]
       /\ c_deviceKey (c_fields row) = "K3Y00001"
       /\ c_name (c_fields row) = JStr "Budi Santoso"
       /\ c_contactName (c_fields row) = JStr "Budi Santoso"
       /\ c_shortName (c_fields row) = JNull
       /\ c_isBusiness (c_fields row) = JBool true
       /\ c_email (c_fields row) = JStr "budi@toko.example"
       /\ c_number (c_fields row) = JStr "628111"
       /\ c_serialized (c_fields row) = JStr "628111@c.us".
Proof.
  intros id c1 c2.
  assert (Hnd : NoDup (contact_ids ready_world)) by constructor.
  split; [exact Hnd | split; [reflexivity |]].
  destruct (contacts_filtered_and_upserted sample_platform "K3Y00001")
    as (_ & _ & Hupsert).
  destruct (Hupsert c1 c2 ready_world Hnd eq_refl eq_refl) as (row & Hone & _ & Hspec).
  - intros now. reflexivity.
  - intros now. reflexivity.
  - exists row. split; [exact Hone |]. rewrite Hspec.
    repeat split; reflexivity.
Defined.

(** *** The unique constraint is an invariant *)

Lemma saveContact_unique (P : Platform) (deviceKey : string) (contactData : jv)
  (w : World) :
  NoDup (contact_ids w) ->
  NoDup (contact_ids (snd (saveContact P deviceKey contactData w))).
Proof.
  intros Hnd. destruct (nullish contactData) eqn:Hc.
  - rewrite saveContact_nullish by exact Hc. exact Hnd.
  - destruct (contact_ok P (contact_fields_in P deviceKey contactData w)) eqn:Hok.
    + destruct (saveContact_upsert P deviceKey contactData w Hc Hok Hnd)
        as (row & _ & _ & _ & Hnd' & _).
      exact Hnd'.
    + rewrite saveContact_run by exact Hc. cbv zeta. rewrite Hok. exact Hnd.
Qed.

Lemma saveContacts_unique (P : Platform) (deviceKey : string)
  (contactsData : list jv) :
  forall (results : list Contact) (w : World),
    NoDup (contact_ids w) ->
    NoDup (contact_ids (snd (saveContacts_from P deviceKey results contactsData w))).
Proof.
  induction contactsData as [| contact rest IH]; intros results w Hnd.
  - exact Hnd.
  - cbn [saveContacts_from]. rewrite bind_split.
    destruct (is_user_contact contact) eqn:Huser.
    + rewrite saveContacts_step_saves by exact Huser.
      pose proof (saveContact_unique P deviceKey contact w Hnd) as Hnd'.
      destruct (fst (saveContact P deviceKey contact w)); cbn [fst snd];
        apply IH; exact Hnd'.
    + rewrite saveContacts_step_skips by exact Huser. cbn [fst snd].
      apply IH. exact Hnd.
Qed.

(* ------------------------------------------------------------------------- *)
(** ** The relay gateway                                                      *)
(* ------------------------------------------------------------------------- *)

Section Relay.

Variable P : Platform.

Lemma apiKeyAuth_valid (token : string) (user : User) (w : World) :
  token <> "" ->
  operator_of token w = Some user ->
  apiKeyAuth (Some token) w = (Ok (inr user), w).
Proof.
  intros Htok Hop. unfold apiKeyAuth. destruct token as [| a token]; [congruence |].
  rewrite try_catch_split. unfold apikeys_findFirst.
  rewrite bind_split. cbn [fst snd get_world bind ret].
  unfold operator_of in Hop.
  destruct (List.find _ (apikeys w)) as [[t s [u |]] |]; cbn in Hop; try discriminate.
  injection Hop as ->. reflexivity.
Qed.

(** With a valid key, a relay route is the handler of its operation. *)
Lemma relay_authenticated (op : RelayOp) (env : Env) (token : string)
  (user : User) (sessionId : string) (net : option Response) (w : World) :
  token <> "" ->
  operator_of token w = Some user ->
  relay P op env token sessionId net w
  = match op with
    | OpStart => start_handler P env (Some user) sessionId net w
    | OpQrImage => qr_image_handler env net w
    | OpGetContacts => getContacts_handler P env sessionId net w
    | _ => passthrough_handler env net w
    end.
Proof.
  intros Htok Hop. unfold relay. rewrite bind_split.
  rewrite (apiKeyAuth_valid token user w Htok Hop). cbn [fst snd].
  destruct op; reflexivity.
Qed.

Lemma relayed_run (env : Env) (body : M Reply) (w : World) :
  configuration_error env = None ->
  relayed env body w = try_catch body (fun _ => ret connectivity_error) w.
Proof. intros H. unfold relayed. rewrite H. reflexivity. Qed.

Lemma generateDeviceKey_loop_run (n : nat) :
  forall (result : string) (w : World),
  exists key, generateDeviceKey_loop P n result w = (Ok key, Nat.iter n bump w).
Proof.
  induction n as [| n IH]; intros result w.
  - exists result. reflexivity.
  - cbn [generateDeviceKey_loop]. unfold bind at 1, random_index at 1.
    destruct (IH (result ++ charAt chars (random_at P (tick w) mod String.length chars))%string
                 (bump w)) as [key Hkey].
    exists key. rewrite Hkey. f_equal. clear.
    induction n as [| n IHn]; [reflexivity |].
    simpl. rewrite IHn. reflexivity.
Qed.

Lemma generateDeviceKey_run (w : World) :
  generateDeviceKey P w = (Ok (drawn_key P w), Nat.iter 8 bump w).
Proof.
  unfold drawn_key. destruct (generateDeviceKey_loop_run 8 "" w) as [key Hkey].
  unfold generateDeviceKey. rewrite Hkey. reflexivity.
Qed.

(** The row [createDevice] hands to the store in world [w]. *)
Lemma createDevice_run (sessionId userId number status : string) (w : World) :
  let row := mkDevice (uuid_at P (8 + tick w)) (drawn_key P w) sessionId number
                      status userId (now_at P (9 + tick w)) in
  createDevice P sessionId userId number status w
  = if List.existsb (fun d => (d_sessionId d =? sessionId)%string
                              || (d_key d =? drawn_key P w)%string) (devices w)
    then (Throw PrismaUnique, Nat.iter 10 bump w)
    else (Ok row, with_devices (devices w ++ [row]) (Nat.iter 10 bump w)).
Proof.
  intros row. unfold createDevice. rewrite bind_split, generateDeviceKey_run.
  cbn [fst snd]. rewrite bind_uuidv4, bind_new_Date.
  unfold devices_create. rewrite bind_get_world. cbn [d_sessionId d_key].
  change (devices (bump (bump (Nat.iter 8 bump w)))) with (devices w).
  destruct (List.existsb _ (devices w)); reflexivity.
Qed.

Lemma is_true_not_nullish (data : jv) :
  member data "success" = JBool true -> nullish data = false.
Proof. destruct data; try reflexivity; discriminate. Qed.

(** The device block of the start handler returns whatever happens in
    it. *)
Lemma start_reply (env : Env) (apiKeyUser : option User) (sessionId : string)
  (response : Response) (w : World) :
  configuration_error env = None ->
  (r_status response = 200 -> nullish (parse_or_raw response) = false) ->
  fst (start_handler P env apiKeyUser sessionId (Some response) w)
  = Ok (json_reply (r_status response) (parse_or_raw response)).
Proof.
  intros Hcfg Hdata. unfold start_handler. rewrite (relayed_run _ _ _ Hcfg).
  rewrite try_catch_split. cbn [await_fetch]. rewrite bind_ret.
  destruct (Z.eqb_spec (r_status response) 200) as [E | E].
  - unfold prop. rewrite (Hdata E). rewrite bind_assoc, !bind_ret.
    rewrite bind_split.
    destruct (is_true _); [rewrite swallow_ok | cbn [fst snd ret]]; reflexivity.
  - rewrite bind_ret. reflexivity.
Qed.

(** After a successful answer the store is what [createDevice] leaves,
    also when [createDevice] throws. *)
Lemma start_world (env : Env) (user : User) (sessionId : string)
  (response : Response) (w : World) :
  configuration_error env = None ->
  r_status response = 200 ->
  member (parse_or_raw response) "success" = JBool true ->
  u_id user <> "" ->
  snd (start_handler P env (Some user) sessionId (Some response) w)
  = snd (createDevice P sessionId (u_id user) "" "connecting" w).
Proof.
  intros Hcfg Hstatus Hsuccess Huid. unfold start_handler.
  rewrite (relayed_run _ _ _ Hcfg). rewrite try_catch_split.
  cbn [await_fetch]. rewrite bind_ret, Hstatus. cbn [Z.eqb Pos.eqb].
  unfold prop. rewrite (is_true_not_nullish _ Hsuccess), bind_assoc, !bind_ret, Hsuccess.
  cbn [is_true].
  destruct (String.eqb_spec (u_id user) "") as [E | _]; [congruence |]. cbn [negb].
  rewrite bind_split, swallow_ok, swallow_snd. reflexivity.
Qed.

End Relay.

Lemma existsb_device_fresh (sid key : string) (ds : list Device) :
  find_device sid ds = None ->
  (forall d, In d ds -> d_key d <> key) ->
  List.existsb (fun d => (d_sessionId d =? sid)%string || (d_key d =? key)%string) ds
  = false.
Proof.
  unfold find_device. induction ds as [| d ds IH]; cbn [List.find List.existsb];
    intros Hfind Hkeys.
  - reflexivity.
  - destruct (d_sessionId d =? sid)%string; [discriminate |].
    destruct (String.eqb_spec (d_key d) key) as [E | _].
    + exfalso. apply (Hkeys d); [left; reflexivity | exact E].
    + cbn [orb]. apply IH; [exact Hfind |].
      intros d' Hin. apply Hkeys. right. exact Hin.
Qed.

Lemma existsb_device_present (sid key : string) (ds : list Device) (d : Device) :
  find_device sid ds = Some d ->
  List.existsb (fun d => (d_sessionId d =? sid)%string || (d_key d =? key)%string) ds
  = true.
Proof.
  intros Hfind. apply List.existsb_exists. exists d.
  apply List.find_some in Hfind. destruct Hfind as [Hin Heq].
  split; [exact Hin |]. rewrite Heq. reflexivity.
Qed.

Lemma devices_with_absent (sid : string) (ds : list Device) :
  find_device sid ds = None ->
  List.filter (fun d => (d_sessionId d =? sid)%string) ds = [].
Proof.
  unfold find_device. induction ds as [| d ds IH]; cbn [List.find List.filter].
  - reflexivity.
  - destruct (d_sessionId d =? sid)%string; [discriminate | exact IH].
Qed.

(** The unique [sessionId] is an invariant of [createDevice]. *)
Lemma createDevice_unique (P : Platform) (sessionId userId number status : string)
  (w : World) :
  NoDup (session_ids w) ->
  NoDup (session_ids (snd (createDevice P sessionId userId number status w))).
Proof.
  intros Hnd. rewrite createDevice_run. cbv zeta.
  destruct (List.existsb _ (devices w)) eqn:Hex; cbn [snd].
  - exact Hnd.
  - unfold session_ids in *. cbn [devices with_devices].
    rewrite List.map_app. apply NoDup_snoc; [exact Hnd |].
    cbn [List.map d_sessionId]. intros Hin.
    apply List.in_map_iff in Hin. destruct Hin as (d & Hd & Hin).
    assert (Htrue : List.existsb
                      (fun d => (d_sessionId d =? sessionId)%string
                                || (d_key d =? drawn_key P w)%string)
                      (devices w) = true).
    { apply List.existsb_exists. exists d. split; [exact Hin |].
      rewrite Hd, String.eqb_refl. reflexivity. }
    congruence.
Qed.

(** *** Replies on the wire *)

Lemma call_world (P : Platform) (op : RelayOp) (env : Env) (token sid : string)
  (net : option Response) (w : World) :
  snd (call P op env token sid net w) = snd (serve (relay P op env token sid net) w).
Proof. reflexivity. Qed.

Lemma call_reply (P : Platform) (op : RelayOp) (env : Env) (token sid : string)
  (net : option Response) (w : World) :
  fst (call P op env token sid net w)
  = on_wire P op (fst (serve (relay P op env token sid net) w)).
Proof. reflexivity. Qed.

Lemma member_boolean_object (data : jv) (k : string) (b : bool) :
  member data k = JBool b -> exists fields, data = JObj fields.
Proof.
  destruct data as [| | b0 | z | s | l | fields]; try discriminate.
  intros _. exists fields. reflexivity.
Qed.

(** The schema of status 200 passes an object whole, but on [qr-image]. *)
Lemma on_wire_object_200 (P : Platform) (op : RelayOp) (fields : list (string * jv)) :
  op <> OpQrImage ->
  on_wire P op (json_reply 200 (JObj fields)) = json_reply 200 (JObj fields).
Proof. intros Hop. destruct op; try congruence; reflexivity. Qed.

(** A reply [{success, message}] with a boolean and a string passes the
    schemas of 401 and 500 as it is. *)
Lemma on_wire_success_message (P : Platform) (op : RelayOp) (status : Z)
  (b : bool) (s : string) :
  status = 401 \/ status = 500 ->
  on_wire P op (json_reply status (JObj [("success", JBool b); ("message", JStr s)]))
  = json_reply status (JObj [("success", JBool b); ("message", JStr s)]).
Proof. intros [-> | ->]; reflexivity. Qed.

Lemma lookup_app (k : string) (l1 l2 : list (string * jv)) :
  lookup k (l1 ++ l2)
  = match lookup k l1 with
    | Some v => Some v
    | None => lookup k l2
    end.
Proof.
  induction l1 as [| [k' v] rest IH]; cbn [app lookup]; [reflexivity |].
  destruct (k =? k')%string; [reflexivity | exact IH].
Qed.

(** What a schema with declared properties lets through. *)
Lemma serialize_object_only (P : Platform) (props : list (string * PropertyType))
  (fields : list (string * jv)) :
  NoDup (List.map fst props) ->
  only_properties props fields (serialize_object P (Properties props) fields).
Proof.
  unfold serialize_object. intros Hnd. split; [| split].
  - intros k Hk. induction props as [| [k0 ty0] props IH];
      cbn [List.flat_map fst snd]; [reflexivity |].
    cbn [List.map fst In] in Hk. inversion Hnd; subst.
    rewrite lookup_app, (IH H2) by tauto.
    destruct (lookup k0 fields) as [[] |]; cbn [lookup]; try reflexivity;
      destruct (String.eqb_spec k k0); try reflexivity; subst; tauto.
  - intros k Hk. induction props as [| [k0 ty0] props IH];
      cbn [List.flat_map fst snd]; [reflexivity |].
    inversion Hnd; subst. rewrite lookup_app, (IH H2).
    destruct (String.eqb_spec k k0) as [-> | Hne].
    + rewrite Hk. reflexivity.
    + destruct (lookup k0 fields) as [[] |]; cbn [lookup]; try reflexivity;
        destruct (String.eqb_spec k k0); try reflexivity; contradiction.
  - intros k ty v Hin Hk Hty. induction props as [| [k0 ty0] props IH];
      cbn [List.flat_map fst snd]; [destruct Hin |].
    inversion Hnd; subst. rewrite lookup_app. destruct Hin as [E | Hin].
    + injection E as -> ->. rewrite Hk.
      destruct v; try (cbn [lookup]; rewrite String.eqb_refl, Hty; reflexivity).
      destruct ty; discriminate.
    + assert (Hne : k <> k0).
      { intros ->. apply H1. apply List.in_map_iff. exists (k0, ty). tauto. }
      rewrite (IH H2 Hin).
      destruct (lookup k0 fields) as [[] |]; cbn [lookup]; try reflexivity;
        destruct (String.eqb_spec k k0); try reflexivity; contradiction.
Qed.

(** A status for which the route declares no schema. *)
Lemma response_schema_none (op : RelayOp) (status : Z) :
  status <> 200 -> status <> 401 -> status <> 500 ->
  response_schema op status = None.
Proof.
  intros H200 H401 H500. unfold response_schema.
  destruct (Z.eqb_spec status 200); [contradiction |].
  destruct (Z.eqb_spec status 401); [contradiction |].
  destruct (Z.eqb_spec status 500); [contradiction | reflexivity].
Qed.

Lemma response_schema_refusal (op : RelayOp) (status : Z) :
  status = 401 \/ status = 500 ->
  response_schema op status = Some success_message.
Proof. intros [-> | ->]; reflexivity. Qed.

Lemma on_wire_code (P : Platform) (op : RelayOp) (r : Reply) :
  code (on_wire P op r) = code r.
Proof. unfold on_wire. destruct (payload r); reflexivity. Qed.

(** The provider's answer, handed to [reply.send], on the wire. *)
Lemma on_wire_reaches (P : Platform) (op : RelayOp) (status : Z) (data : jv) :
  reaches_caller op status data (on_wire P op (json_reply status data)).
Proof.
  split; [apply on_wire_code |].
  intros fields ->. unfold on_wire, json_reply. cbn [payload code].
  split; [| split].
  - intros H401 H500 Hopen. unfold response_schema.
    destruct (Z.eqb_spec status 200) as [E | E].
    + destruct op; try reflexivity. destruct Hopen; congruence.
    + destruct (Z.eqb_spec status 401); [contradiction |].
      destruct (Z.eqb_spec status 500); [contradiction | reflexivity].
  - intros Hstatus. rewrite (response_schema_refusal _ _ Hstatus).
    eexists. split; [reflexivity |].
    apply serialize_object_only. repeat constructor; cbn; intuition discriminate.
  - intros -> ->. eexists. split; [reflexivity |].
    apply serialize_object_only. repeat constructor; cbn; intuition discriminate.
Qed.

(** C2, as amended.  For a start relay with a valid operator key and a
    provider answer of status 200 whose [success] is [true]: the caller
    receives the provider's status and body, whether the device write
    succeeds or is refused; when the store held no device for the session
    (and the key drawn is not in use), it holds exactly one afterwards,
    [connecting] and owned by the operator; when it held one already, the
    unique [sessionId] refuses the write and the devices are as they
    were. *)
Theorem start_creates_device_when_absent :
  forall (P : Platform) (env : Env) (token : string) (user : User)
         (sid : string) (response : Response) (w : World),
    token <> "" ->
    operator_of token w = Some user ->
    u_id user <> "" ->
    configuration_error env = None ->
    r_status response = 200 ->
    member (parse_or_raw response) "success" = JBool true ->
    let out := call P OpStart env token sid (Some response) w in
    fst out = json_reply 200 (parse_or_raw response)
    /\ (find_device sid (devices w) = None ->
        (forall d, In d (devices w) -> d_key d <> drawn_key P w) ->
        started sid (u_id user) (snd out))
    /\ (forall d, find_device sid (devices w) = Some d ->
                  devices (snd out) = devices w).
Proof.
  intros P env token user sid response w Htok Hop Huid Hcfg Hstatus Hsuccess out.
  subst out. rewrite call_reply, call_world. unfold serve.
  rewrite (relay_authenticated P OpStart env token user sid (Some response) w Htok Hop).
  pose proof (start_reply P env (Some user) sid response w Hcfg
                (fun _ => is_true_not_nullish _ Hsuccess)) as Hreply.
  pose proof (start_world P env user sid response w Hcfg Hstatus Hsuccess Huid)
    as Hworld.
  destruct (start_handler P env (Some user) sid (Some response) w) as [[r | e] w'];
    cbn [fst snd] in *; [| discriminate].
  injection Hreply as ->. rewrite Hstatus. split; [| split].
  - destruct (member_boolean_object _ _ _ Hsuccess) as [fields ->].
    apply on_wire_object_200. discriminate.
  - intros Hnone Hkeys. rewrite Hworld, createDevice_run. cbv zeta.
    rewrite (existsb_device_fresh _ _ _ Hnone Hkeys). cbn [snd].
    eexists. unfold devices_with. cbn [devices with_devices].
    rewrite List.filter_app, (devices_with_absent _ _ Hnone).
    cbn [List.filter d_sessionId app]. rewrite String.eqb_refl.
    split; [reflexivity | split; reflexivity].
  - intros d Hsome. rewrite Hworld, createDevice_run. cbv zeta.
    rewrite (existsb_device_present _ (drawn_key P w) _ _ Hsome). cbn [snd].
    clear. generalize 10%nat. intros n.
    induction n as [| n IH]; [reflexivity | exact IH].
Qed.

Lemma start_creates_device_when_absent_witness :
  started "abc123" "user-1"
    (snd (call sample_platform OpStart sample_env "operator-key" "abc123"
            (Some success_response) fresh_world)).
Proof.
  apply (start_creates_device_when_absent sample_platform sample_env "operator-key"
           (mkUser "user-1") "abc123" success_response fresh_world).
  - discriminate.
  - reflexivity.
  - discriminate.
  - reflexivity.
  - reflexivity.
  - reflexivity.
  - reflexivity.
  - intros d [].
Defined.

(** C2 as stated fails: on a store in which the session has been started
    before and has reached [ready], a start relay with a valid key and a
    provider answer [200 {success: true}] is answered with the provider's
    200, and the one device of the session is not [connecting]. *)
Lemma start_on_started_session_stays_ready :
  operator_of "operator-key" ready_world = Some (mkUser "user-1")
  /\ r_status success_response = 200
  /\ member (parse_or_raw success_response) "success" = JBool true
  /\ code (fst (call sample_platform OpStart sample_env "operator-key"
                  "abc123" (Some success_response) ready_world)) = 200
  /\ List.map d_status
       (devices_with "abc123"
          (snd (call sample_platform OpStart sample_env "operator-key"
                  "abc123" (Some success_response) ready_world)))
     = ["ready"]
  /\ ~ started "abc123" "user-1"
        (snd (call sample_platform OpStart sample_env "operator-key"
                "abc123" (Some success_response) ready_world)).
Proof.
  repeat split; try reflexivity.
  intros [d [Hone [Hstatus _]]]. vm_compute in Hone.
  injection Hone as <-. discriminate Hstatus.
Qed.

(* ------------------------------------------------------------------------- *)
(** ** Relay: provider bodies and the contact list                            *)
(* ------------------------------------------------------------------------- *)

Lemma sync_contacts_ok (P : Platform) (sessionId : string) (data : jv) (w : World) :
  fst (sync_contacts P sessionId data w) = Ok tt.
Proof. apply swallow_ok. Qed.

(** What [getContacts] answers does not depend on the synchronization:
    not on the store, not on whether a device exists, not on what Prisma
    accepts. *)
Lemma getContacts_reply (P : Platform) (env : Env) (sessionId : string)
  (response : Response) (w : World) :
  configuration_error env = None ->
  (r_status response = 200 -> nullish (parse_or_raw response) = false) ->
  fst (getContacts_handler P env sessionId (Some response) w)
  = Ok (json_reply (r_status response) (limit_contacts (parse_or_raw response))).
Proof.
  intros Hcfg Hdata. unfold getContacts_handler. rewrite (relayed_run _ _ _ Hcfg).
  rewrite try_catch_split. cbn [await_fetch]. rewrite bind_ret.
  destruct (Z.eqb_spec (r_status response) 200) as [E | E].
  - unfold prop. rewrite (Hdata E). rewrite bind_assoc, !bind_ret.
    rewrite bind_split.
    destruct (_ && _); [rewrite sync_contacts_ok | cbn [fst snd ret]]; reflexivity.
  - rewrite bind_ret. reflexivity.
Qed.

Lemma lookup_set_field_same (k : string) (x : jv) (fields : list (string * jv)) :
  lookup k (set_field k x fields) = Some x.
Proof.
  induction fields as [| [k' v] rest IH]; cbn [set_field lookup].
  - rewrite String.eqb_refl. reflexivity.
  - destruct (k =? k')%string eqn:E; cbn [lookup]; rewrite E; [reflexivity | exact IH].
Qed.

Lemma lookup_set_field_other (k k' : string) (x : jv) (fields : list (string * jv)) :
  k' <> k -> lookup k' (set_field k x fields) = lookup k' fields.
Proof.
  intros Hne. induction fields as [| [k0 v] rest IH]; cbn [set_field lookup].
  - destruct (String.eqb_spec k' k) as [E | _]; [congruence | reflexivity].
  - destruct (String.eqb_spec k k0) as [-> | _]; cbn [lookup].
    + destruct (String.eqb_spec k' k0) as [E | _]; [congruence | reflexivity].
    + rewrite IH. reflexivity.
Qed.

Lemma keys_set_field (k : string) (x v : jv) (fields : list (string * jv)) :
  lookup k fields = Some v ->
  List.map fst (set_field k x fields) = List.map fst fields.
Proof.
  induction fields as [| [k' v'] rest IH]; cbn [set_field lookup List.map fst].
  - discriminate.
  - destruct (k =? k')%string; cbn [List.map fst]; [reflexivity |].
    intros H. rewrite (IH H). reflexivity.
Qed.

Lemma set_field_truncated (k : string) (items : list jv) (fields : list (string * jv)) :
  lookup k fields = Some (JArr items) ->
  truncated_at k items fields (set_field k (JArr (List.firstn 10 items)) fields).
Proof.
  intros Hk. split; [apply lookup_set_field_same | split].
  - intros k' Hne. apply lookup_set_field_other. exact Hne.
  - apply (keys_set_field k _ _ _ Hk).
Qed.

Lemma long_array_spec (v : jv) (items : list jv) :
  long_array v = Some items ->
  v = JArr items /\ (10 <? List.length items)%nat = true.
Proof.
  destruct v as [| | b | z | s | l | f]; try discriminate. cbn [long_array].
  destruct (10 <? List.length l)%nat eqn:E; [| discriminate].
  intros H. injection H as <-. split; [reflexivity | exact E].
Qed.

Lemma long_array_longer (v : jv) :
  long_array v = None -> longer_than_10 v = false.
Proof.
  destruct v as [| | b | z | s | l | f]; try reflexivity. cbn [long_array longer_than_10].
  destruct (10 <? List.length l)%nat; [discriminate | reflexivity].
Qed.

Lemma member_array_object (data : jv) (k : string) (items : list jv) :
  member data k = JArr items ->
  exists fields, data = JObj fields /\ lookup k fields = Some (JArr items).
Proof.
  destruct data as [| | b | z | s | l | fields]; try discriminate.
  cbn [member]. destruct (lookup k fields) as [x |] eqn:Hk; [| discriminate].
  intros ->. exists fields. split; [reflexivity | exact Hk].
Qed.

(** What the limiter hands to [reply.send] for an answer that has a
    contact array. *)
Lemma limit_contacts_cut (data : jv) (place : Place) (items : list jv) :
  contact_array data = Some (place, items) ->
  match place with
  | TopLevel => limit_contacts data = JArr (List.firstn 10 items)
  | UnderKey k =>
      exists fields,
        data = JObj fields /\ lookup k fields = Some (JArr items)
        /\ limit_contacts data = JObj (set_field k (JArr (List.firstn 10 items)) fields)
  end.
Proof.
  unfold contact_array, limit_contacts. intros H.
  destruct (long_array data) as [top |] eqn:Htop.
  - injection H as <- <-. destruct (long_array_spec _ _ Htop) as [-> Hlen].
    cbn [longer_than_10 slice_0_10]. rewrite Hlen. reflexivity.
  - rewrite (long_array_longer _ Htop).
    destruct (long_array (member data "contacts")) as [cs |] eqn:Hcs.
    + injection H as <- <-. destruct (long_array_spec _ _ Hcs) as [Hm Hlen].
      destruct (member_array_object _ _ _ Hm) as (fields & -> & Hk).
      exists fields. split; [reflexivity | split; [exact Hk |]].
      rewrite Hm. cbn [truthy typeof_object andb longer_than_10 slice_0_10 spread_with].
      rewrite Hlen. reflexivity.
    + rewrite (long_array_longer _ Hcs), andb_false_r.
      destruct (long_array (member data "data")) as [ds |] eqn:Hds; [| discriminate].
      injection H as <- <-. destruct (long_array_spec _ _ Hds) as [Hm Hlen].
      destruct (member_array_object _ _ _ Hm) as (fields & -> & Hk).
      exists fields. split; [reflexivity | split; [exact Hk |]].
      rewrite Hm. cbn [truthy typeof_object andb longer_than_10 slice_0_10 spread_with].
      rewrite Hlen. reflexivity.
Qed.

Lemma contact_array_not_nullish (data : jv) (place : Place) (items : list jv) :
  contact_array data = Some (place, items) -> nullish data = false.
Proof. destruct data; try reflexivity; discriminate. Qed.

(** C6, as amended.  A get-contacts relay whose provider answer holds a
    contact array -- an array of more than ten entries that is the answer
    itself, or else is under its [contacts] key, or else under its [data]
    key -- is answered with the provider's status.  When that status is
    neither 401 nor 500, the caller receives the answer with that array
    cut to its first ten entries and every other property unchanged (a top-level array
    arrives as an array, but with status 200 as the object of its keys
    ["0"] to ["9"]); this holds for every store and every schema, that is
    whether the synchronization ran, failed, or was skipped for want of a
    device.  With status 401 or 500 the caller receives no property of
    the answer but [success] and [message], so none of the array. *)
Theorem getContacts_truncates_to_ten :
  forall (P : Platform) (env : Env) (token : string) (user : User)
         (sid : string) (response : Response) (w : World)
         (place : Place) (items : list jv),
    token <> "" ->
    operator_of token w = Some user ->
    configuration_error env = None ->
    contact_array (parse_or_raw response) = Some (place, items) ->
    (r_status response <> 401 ->
     r_status response <> 500 ->
     exists sent,
       fst (call P OpGetContacts env token sid (Some response) w)
       = json_reply (r_status response) sent
       /\ cut_to_ten (r_status response) place items (parse_or_raw response) sent)
    /\ (r_status response = 401 \/ r_status response = 500 ->
        exists body,
          fst (call P OpGetContacts env token sid (Some response) w)
          = json_reply (r_status response) (JObj body)
          /\ forall k, k <> "success" -> k <> "message" -> lookup k body = None).
Proof.
  intros P env token user sid response w place items Htok Hop Hcfg Harr.
  set (data := parse_or_raw response) in *.
  pose proof (contact_array_not_nullish _ _ _ Harr) as Hdata.
  assert (Hsent : fst (call P OpGetContacts env token sid (Some response) w)
                  = on_wire P OpGetContacts
                      (json_reply (r_status response) (limit_contacts data))).
  { rewrite call_reply. unfold serve.
    rewrite (relay_authenticated P OpGetContacts env token user sid (Some response) w
               Htok Hop).
    pose proof (getContacts_reply P env sid response w Hcfg (fun _ => Hdata)) as Hfst.
    destruct (getContacts_handler P env sid (Some response) w) as [[r | e] w'];
      cbn [fst] in *; [| discriminate].
    injection Hfst as ->. reflexivity. }
  rewrite Hsent. unfold on_wire, json_reply. cbn [payload code].
  pose proof (limit_contacts_cut _ _ _ Harr) as Hcut.
  split.
  - intros H401 H500. eexists. split; [reflexivity |].
    destruct place as [| k].
    + rewrite Hcut. cbn [cut_to_ten]. unfold response_schema.
      destruct (Z.eqb_spec (r_status response) 200) as [E | E]; [reflexivity |].
      destruct (Z.eqb_spec (r_status response) 401); [contradiction |].
      destruct (Z.eqb_spec (r_status response) 500); [contradiction | reflexivity].
    + destruct Hcut as (fields & Hobj & Hk & Hlimit). rewrite Hlimit.
      exists fields, (set_field k (JArr (List.firstn 10 items)) fields).
      split; [exact Hobj | split; [| apply set_field_truncated; exact Hk]].
      unfold response_schema.
      destruct (Z.eqb_spec (r_status response) 200) as [E | E]; [reflexivity |].
      destruct (Z.eqb_spec (r_status response) 401); [contradiction |].
      destruct (Z.eqb_spec (r_status response) 500); [contradiction | reflexivity].
  - intros Hstatus. rewrite (response_schema_refusal _ _ Hstatus).
    destruct place as [| k].
    + rewrite Hcut. exists []. split; [reflexivity | reflexivity].
    + destruct Hcut as (fields & _ & _ & Hlimit). rewrite Hlimit.
      eexists. split; [reflexivity |].
      intros k' Hs Hm.
      assert (Hnd : NoDup (List.map fst [("success", TBoolean); ("message", TString)])).
      { repeat constructor; cbn; intuition discriminate. }
      destruct (serialize_object_only P _
                  (set_field k (JArr (List.firstn 10 items)) fields) Hnd)
        as (Hkeys & _ & _).
      apply Hkeys. cbn [List.map fst In]. intros [E | [E | []]];
        [apply Hs | apply Hm]; symmetry; exact E.
Qed.

Lemma getContacts_truncates_to_ten_witness :
  find_device "abc123" (devices fresh_world) = None
  /\ exists sent,
       fst (call sample_platform OpGetContacts sample_env "operator-key"
              "abc123" (Some contacts_response) fresh_world)
       = json_reply 200 sent
       /\ cut_to_ten 200 (UnderKey "contacts") twelve_contacts
            (parse_or_raw contacts_response) sent.
Proof.
  split; [reflexivity |].
  destruct (getContacts_truncates_to_ten sample_platform sample_env "operator-key"
              (mkUser "user-1") "abc123" contacts_response fresh_world
              (UnderKey "contacts") twelve_contacts) as [Hcut _].
  - discriminate.
  - reflexivity.
  - reflexivity.
  - reflexivity.
  - apply Hcut; discriminate.
Defined.

(** C6 as stated fails.  An answer [200] that holds twelve contacts under
    [contacts] and twelve under [data] reaches the caller with the array
    under [data], an array of more than ten entries under the [data] key,
    whole; and an answer [500] that holds twelve contacts under [contacts]
    reaches the caller without any of them, and without its other
    properties but [success]. *)
Lemma getContacts_long_array_uncut_or_dropped :
  (exists sent,
      fst (call sample_platform OpGetContacts sample_env "operator-key"
             "abc123" (Some two_arrays_response) fresh_world)
      = json_reply 200 sent
      /\ long_array (member (parse_or_raw two_arrays_response) "data")
         = Some twelve_contacts
      /\ member sent "data" = JArr twelve_contacts
      /\ List.length twelve_contacts = 12%nat)
  /\ contact_array (parse_or_raw failing_contacts_response)
     = Some (UnderKey "contacts", twelve_contacts)
  /\ fst (call sample_platform OpGetContacts sample_env "operator-key"
            "abc123" (Some failing_contacts_response) fresh_world)
     = json_reply 500 (JObj [("success", JBool false)]).
Proof.
  split; [| split; reflexivity].
  eexists. split; [reflexivity | split; [reflexivity | split; reflexivity]].
Qed.

(** The raw-text fallback on the wire. *)
Lemma on_wire_raw (P : Platform) (op : RelayOp) (status : Z) (text : string) :
  op <> OpQrImage ->
  on_wire P op (json_reply status (JObj [("raw", JStr text)]))
  = json_reply status (if (status =? 401) || (status =? 500)
                       then JObj []
                       else JObj [("raw", JStr text)]).
Proof.
  intros Hop. unfold on_wire, json_reply, response_schema. cbn [payload code].
  destruct (Z.eqb_spec status 200) as [-> | _].
  - destruct op; try congruence; reflexivity.
  - destruct ((status =? 401) || (status =? 500)); reflexivity.
Qed.

(** C8, at the operation on which the code departs from it.  With a valid
    key and a provider body that is not JSON, every relay operation but
    [qr-image] answers the provider's status with [{raw: text}] (with
    status 401 or 500 the schema of the route lets no [raw] property
    through, and the caller receives the empty object);
    [qr-image] reads the body with [response.json()], whose failure lands
    in the handler's [catch]: the body is lost and the caller gets the 500
    of a connectivity failure. *)
Theorem qr_image_loses_non_json_body :
  forall (P : Platform) (env : Env) (token : string) (user : User)
         (sid : string) (status : Z) (text : string) (w : World),
    token <> "" ->
    operator_of token w = Some user ->
    configuration_error env = None ->
    (forall op, op <> OpQrImage ->
       fst (call P op env token sid (Some (mkResponse status text None)) w)
       = json_reply status (if (status =? 401) || (status =? 500)
                            then JObj []
                            else JObj [("raw", JStr text)]))
    /\ fst (call P OpQrImage env token sid
              (Some (mkResponse status text None)) w)
       = json_reply 500 (JObj [("success", JBool false);
                              ("message", JStr "Failed to connect to remote API")]).
Proof.
  intros P env token user sid status text w Htok Hop Hcfg.
  set (response := mkResponse status text None).
  assert (Hpass : fst (passthrough_handler env (Some response) w)
                  = Ok (json_reply status (JObj [("raw", JStr text)]))).
  { unfold passthrough_handler. rewrite (relayed_run _ _ _ Hcfg). reflexivity. }
  split.
  - intros op Hop'. rewrite <- (on_wire_raw P op status text Hop').
    rewrite call_reply. f_equal. unfold serve.
    rewrite (relay_authenticated P op env token user sid (Some response) w Htok Hop).
    destruct op; try congruence;
      try (destruct (passthrough_handler env (Some response) w) as [[r | e] w'];
           cbn [fst] in *; [injection Hpass as ->; reflexivity | discriminate]).
    + pose proof (start_reply P env (Some user) sid response w Hcfg (fun _ => eq_refl))
        as Hfst.
      destruct (start_handler P env (Some user) sid (Some response) w) as [[r | e] w'];
        cbn [fst] in *; [injection Hfst as ->; reflexivity | discriminate].
    + pose proof (getContacts_reply P env sid response w Hcfg (fun _ => eq_refl))
        as Hfst.
      destruct (getContacts_handler P env sid (Some response) w) as [[r | e] w'];
        cbn [fst] in *; [injection Hfst as ->; reflexivity | discriminate].
  - rewrite call_reply. unfold serve.
    rewrite (relay_authenticated P OpQrImage env token user sid (Some response) w
               Htok Hop).
    unfold qr_image_handler. rewrite (relayed_run _ _ _ Hcfg). reflexivity.
Qed.

Lemma qr_image_loses_non_json_body_witness :
  fst (call sample_platform OpQrImage sample_env "operator-key" "abc123"
         (Some html_response) ready_world)
  = json_reply 500 (JObj [("success", JBool false);
                          ("message", JStr "Failed to connect to remote API")]).
Proof.
  apply (qr_image_loses_non_json_body sample_platform sample_env "operator-key"
           (mkUser "user-1") "abc123" 502 "<html>Bad Gateway</html>" ready_world).
  - discriminate.
  - reflexivity.
  - reflexivity.
Defined.

(* ------------------------------------------------------------------------- *)
(** ** The scenario of the specification, run                                 *)
(* ------------------------------------------------------------------------- *)

(** After start, [ready] and one message: one device, [ready], and one
    message row with the identity, text and timestamp of the payload.  The
    sender is the [from] string as delivered: [from.user] exists only when
    [from] is an object. *)
Example scenario_runs :
  List.map (fun d => (d_sessionId d, d_status d, d_userId d)) (devices scenario_world)
  = [("abc123", "ready", "user-1")]
  /\ List.map (fun m => (m_messageId m, m_from m, m_text m, m_timestamp m))
       (messages scenario_world)
     = [(JStr "msg1", JStr "111@c.us", JStr "hi", JNum 1000)].
Proof. split; vm_compute; reflexivity. Qed.

(* ------------------------------------------------------------------------- *)
(** ** Further properties: the device operations                              *)
(* ------------------------------------------------------------------------- *)

Lemma string_length_app (a b : string) :
  String.length (a ++ b) = (String.length a + String.length b)%nat.
Proof. induction a as [| c a IH]; cbn; [reflexivity | rewrite IH; reflexivity]. Qed.

Lemma string_forall_app (p : ascii -> bool) (a b : string) :
  string_forall p (a ++ b) = string_forall p a && string_forall p b.
Proof.
  induction a as [| c a IH]; cbn; [reflexivity |].
  rewrite IH, andb_assoc. reflexivity.
Qed.

Lemma charAt_chars (i : nat) :
  (i < 36)%nat ->
  exists c, charAt chars i = String c EmptyString /\ is_key_char c = true.
Proof.
  intros Hi.
  do 36 (destruct i as [| i]; [eexists; split; reflexivity |]).
  lia.
Qed.

Lemma generateDeviceKey_loop_shape (P : Platform) (n : nat) :
  forall (result : string) (w : World),
  exists key,
    fst (generateDeviceKey_loop P n result w) = Ok key
    /\ String.length key = (String.length result + n)%nat
    /\ (string_forall is_key_char result = true ->
        string_forall is_key_char key = true).
Proof.
  induction n as [| n IH]; intros result w.
  - exists result. cbn. split; [reflexivity | split; [lia | auto]].
  - cbn [generateDeviceKey_loop]. unfold bind at 1, random_index at 1.
    change (String.length chars) with 36%nat.
    destruct (charAt_chars (random_at P (tick w) mod 36))
      as (c & Hc & Hkey); [apply Nat.mod_upper_bound; discriminate |].
    destruct (IH (result ++ charAt chars (random_at P (tick w) mod 36))%string (bump w))
      as (key & Hrun & Hlen & Hall).
    exists key. split; [exact Hrun | split].
    + rewrite Hlen, string_length_app, Hc. cbn. lia.
    + intros Hres. apply Hall. rewrite string_forall_app, Hres, Hc. cbn.
      rewrite Hkey. reflexivity.
Qed.

(** X1.  [generateDeviceKey] returns eight characters, each an uppercase letter
    or a digit, whatever [Math.random] draws. *)
Theorem generateDeviceKey_shape :
  forall (P : Platform) (w : World),
  exists key,
    fst (generateDeviceKey P w) = Ok key
    /\ String.length key = 8%nat
    /\ string_forall is_key_char key = true.
Proof.
  intros P w. destruct (generateDeviceKey_loop_shape P 8 "" w) as (key & Hrun & Hlen & Hall).
  exists key. split; [exact Hrun | split; [exact Hlen | apply Hall; reflexivity]].
Qed.

Lemma find_device_app_new (sid : string) (ds : list Device) (row : Device) :
  find_device sid ds = None ->
  d_sessionId row = sid ->
  find_device sid (ds ++ [row]) = Some row.
Proof.
  unfold find_device. intros Hnone Hrow.
  induction ds as [| d ds IH]; cbn [List.find app] in *.
  - rewrite Hrow, String.eqb_refl. reflexivity.
  - destruct (d_sessionId d =? sid)%string; [discriminate | apply IH, Hnone].
Qed.

Lemma find_device_app_other (sid : string) (ds : list Device) (row : Device) :
  d_sessionId row <> sid ->
  find_device sid (ds ++ [row]) = find_device sid ds.
Proof.
  unfold find_device. intros Hrow.
  induction ds as [| d ds IH]; cbn [List.find app].
  - destruct (String.eqb_spec (d_sessionId row) sid); [contradiction | reflexivity].
  - destruct (d_sessionId d =? sid)%string; [reflexivity | exact IH].
Qed.

Lemma find_key_app_new (key : string) (ds : list Device) (row : Device) :
  (forall d, In d ds -> d_key d <> key) ->
  d_key row = key ->
  find_device_by_key key (ds ++ [row]) = Some row.
Proof.
  unfold find_device_by_key. intros Hfresh Hrow.
  induction ds as [| d ds IH]; cbn [List.find app].
  - rewrite Hrow, String.eqb_refl. reflexivity.
  - destruct (String.eqb_spec (d_key d) key) as [E | _].
    + exfalso. apply (Hfresh d); [left; reflexivity | exact E].
    + apply IH. intros d' Hin. apply Hfresh. right. exact Hin.
Qed.

(** X2.  A [createDevice] for a session without a device, with a key that is
    not in use, succeeds; afterwards both [getDeviceBySessionId] and
    [getDeviceByKey] return the row it wrote, which carries the arguments
    of the call, and the lookup of every other session is as before. *)
Theorem createDevice_then_lookup :
  forall (P : Platform) (sid uid number status : string) (w : World),
    find_device sid (devices w) = None ->
    (forall d, In d (devices w) -> d_key d <> drawn_key P w) ->
    exists row w',
      createDevice P sid uid number status w = (Ok row, w')
      /\ (d_sessionId row, d_userId row, d_number row, d_status row)
         = (sid, uid, number, status)
      /\ fst (getDeviceBySessionId (JStr sid) w') = Ok (Some row)
      /\ fst (getDeviceByKey (d_key row) w') = Ok (Some row)
      /\ (forall sid', sid' <> sid ->
            fst (getDeviceBySessionId (JStr sid') w')
            = fst (getDeviceBySessionId (JStr sid') w)).
Proof.
  intros P sid uid number status w Hnone Hfresh.
  rewrite createDevice_run. cbv zeta.
  rewrite (existsb_device_fresh _ _ _ Hnone Hfresh).
  eexists. eexists. split; [reflexivity |].
  split; [reflexivity |].
  rewrite !getDeviceBySessionId_result. unfold getDeviceByKey.
  rewrite bind_get_world. cbn [fst ret devices with_devices d_key].
  split; [| split].
  - rewrite find_device_app_new; [reflexivity | exact Hnone | reflexivity].
  - rewrite find_key_app_new; [reflexivity | exact Hfresh | reflexivity].
  - intros sid' Hne. rewrite getDeviceBySessionId_result.
    cbn [devices with_devices].
    rewrite find_device_app_other; [| cbn; congruence].
    clear. generalize 10%nat. intros n.
    induction n as [| n IH]; [reflexivity | exact IH].
Qed.

Lemma createDevice_then_lookup_witness :
  exists row w',
    createDevice sample_platform "s-2" "user-1" "" "connecting" ready_world
    = (Ok row, w')
    /\ fst (getDeviceBySessionId (JStr "s-2") w') = Ok (Some row)
    /\ fst (getDeviceBySessionId (JStr "abc123") w')
       = fst (getDeviceBySessionId (JStr "abc123") ready_world).
Proof.
  destruct (createDevice_then_lookup sample_platform "s-2" "user-1" "" "connecting"
              ready_world)
    as (row & w' & Hrun & _ & Hsid & _ & Hother).
  - reflexivity.
  - intros d [<- | []]. vm_compute. discriminate.
  - exists row, w'. split; [exact Hrun | split; [exact Hsid |]].
    apply Hother. discriminate.
Defined.

Lemma set_status_identity (sid status : string) (now : Z) (d : Device) :
  device_identity (set_status sid status now d) = device_identity d.
Proof. unfold set_status. destruct (_ =? _)%string; reflexivity. Qed.

Lemma updateDeviceStatus_result (P : Platform) (sid status : string) (w : World) :
  fst (updateDeviceStatus P (JStr sid) status w)
  = match find_device sid (devices w) with
    | Some d => Ok (set_status sid status (now_at P (tick w)) d)
    | None => Throw PrismaNotFound
    end.
Proof.
  unfold updateDeviceStatus. rewrite bind_new_Date.
  unfold devices_update_status, string_arg. rewrite bind_ret, bind_get_world.
  cbn [devices bump]. destruct (find_device sid (devices w)); reflexivity.
Qed.

(** X3.  [updateDeviceStatus] throws and changes no device when the session has
    none; otherwise it returns the row with the new status and, in the
    whole table, changes nothing but the status and the time of update of
    that session: uuid, key, number and owner of every row, the status of
    every other session, the messages and the contacts stay. *)
Theorem updateDeviceStatus_touches_status_only :
  forall (P : Platform) (sid status : string) (w : World),
    let out := updateDeviceStatus P (JStr sid) status w in
    (find_device sid (devices w) = None ->
     fst out = Throw PrismaNotFound /\ devices (snd out) = devices w)
    /\ (forall d, find_device sid (devices w) = Some d ->
          exists d', fst out = Ok d' /\ d_status d' = status
                     /\ device_identity d' = device_identity d
                     /\ find_device sid (devices (snd out)) = Some d')
    /\ List.map device_identity (devices (snd out))
       = List.map device_identity (devices w)
    /\ (forall sid', sid' <> sid -> status_of sid' (snd out) = status_of sid' w)
    /\ messages (snd out) = messages w
    /\ contacts (snd out) = contacts w.
Proof.
  intros P sid status w out. subst out.
  rewrite updateDeviceStatus_result, updateDeviceStatus_devices.
  split; [| split; [| split; [| split; [| split]]]].
  - intros Hnone. rewrite Hnone. split; reflexivity.
  - intros d Hsome. rewrite Hsome. eexists. split; [reflexivity |].
    pose proof (find_device_sessionId _ _ _ Hsome) as Hsid.
    split; [| split].
    + unfold set_status. rewrite Hsid, String.eqb_refl. reflexivity.
    + apply set_status_identity.
    + rewrite find_device_set_status, Hsome. reflexivity.
  - destruct (find_device sid (devices w)); [| reflexivity].
    rewrite List.map_map. apply List.map_ext. intros d1. apply set_status_identity.
  - intros sid' Hne. unfold status_of. rewrite updateDeviceStatus_devices.
    destruct (find_device sid (devices w)) as [d0 |]; [| reflexivity].
    rewrite find_device_set_status.
    destruct (find_device sid' (devices w)) as [d |] eqn:Hfind; [| reflexivity].
    cbn [option_map]. unfold set_status.
    rewrite (find_device_sessionId _ _ _ Hfind).
    destruct (String.eqb_spec sid' sid) as [E | _]; [contradiction | reflexivity].
  - apply updateDeviceStatus_messages.
  - apply updateDeviceStatus_contacts.
Qed.

Lemma updateDeviceStatus_touches_status_only_witness :
  fst (updateDeviceStatus sample_platform (JStr "ghost") "ready" ready_world)
  = Throw PrismaNotFound
  /\ status_of "abc123"
       (snd (updateDeviceStatus sample_platform (JStr "other") "qr" ready_world))
     = status_of "abc123" ready_world.
Proof.
  destruct (updateDeviceStatus_touches_status_only sample_platform "ghost" "ready"
              ready_world) as (Hmissing & _).
  destruct (updateDeviceStatus_touches_status_only sample_platform "other" "qr"
              ready_world) as (_ & _ & _ & Hothers & _).
  split.
  - apply Hmissing. reflexivity.
  - apply Hothers. discriminate.
Defined.

Lemma filter_out_absent (sid : string) (ds : list Device) :
  find_device sid ds = None ->
  List.filter (fun d => negb (d_sessionId d =? sid)%string) ds = ds.
Proof.
  unfold find_device. induction ds as [| d ds IH]; cbn [List.find List.filter].
  - reflexivity.
  - destruct (d_sessionId d =? sid)%string; [discriminate |].
    intros H. cbn [negb]. rewrite (IH H). reflexivity.
Qed.

Lemma find_device_filter_out (sid sid' : string) (ds : list Device) :
  find_device sid' (List.filter (fun d => negb (d_sessionId d =? sid)%string) ds)
  = if (sid' =? sid)%string then None else find_device sid' ds.
Proof.
  unfold find_device. induction ds as [| d ds IH]; cbn [List.find List.filter].
  - destruct (sid' =? sid)%string; reflexivity.
  - destruct (String.eqb_spec (d_sessionId d) sid) as [E | E]; cbn [negb List.find].
    + rewrite IH. destruct (String.eqb_spec sid' sid) as [E' | E']; [reflexivity |].
      destruct (String.eqb_spec (d_sessionId d) sid') as [E'' | _]; [congruence | reflexivity].
    + destruct (String.eqb_spec (d_sessionId d) sid') as [E' | _].
      * destruct (String.eqb_spec sid' sid) as [E'' | _]; [congruence | reflexivity].
      * exact IH.
Qed.

(** X4.  [deleteDevice] throws and changes nothing when the session has no
    device; otherwise it returns the device and the session has none
    afterwards.  It never changes the device of another session, and
    deleting a session right after creating it gives the devices back as
    they were. *)
Theorem deleteDevice_removes_the_session :
  forall (sid : string) (w : World),
    (find_device sid (devices w) = None ->
     deleteDevice sid w = (Throw PrismaNotFound, w))
    /\ (forall d, find_device sid (devices w) = Some d ->
          fst (deleteDevice sid w) = Ok d
          /\ find_device sid (devices (snd (deleteDevice sid w))) = None)
    /\ (forall sid', sid' <> sid ->
          find_device sid' (devices (snd (deleteDevice sid w)))
          = find_device sid' (devices w))
    /\ (forall (P : Platform) (uid number status : string),
          find_device sid (devices w) = None ->
          devices (snd (deleteDevice sid
                          (snd (createDevice P sid uid number status w))))
          = devices w).
Proof.
  intros sid w.
  assert (Hdel : forall w0,
            devices (snd (deleteDevice sid w0))
            = List.filter (fun d => negb (d_sessionId d =? sid)%string) (devices w0)).
  { intros w0. unfold deleteDevice. rewrite bind_get_world.
    destruct (find_device sid (devices w0)) eqn:Hfind; cbn [snd].
    - reflexivity.
    - cbn [throw snd]. rewrite filter_out_absent by exact Hfind. reflexivity. }
  split; [| split; [| split]].
  - intros Hnone. unfold deleteDevice. rewrite bind_get_world, Hnone. reflexivity.
  - intros d Hsome. split.
    + unfold deleteDevice. rewrite bind_get_world, Hsome. reflexivity.
    + rewrite Hdel, find_device_filter_out, String.eqb_refl. reflexivity.
  - intros sid' Hne. rewrite Hdel, find_device_filter_out.
    destruct (String.eqb_spec sid' sid); [contradiction | reflexivity].
  - intros P uid number status Hnone. rewrite Hdel, createDevice_run. cbv zeta.
    destruct (List.existsb _ (devices w)); cbn [snd].
    + replace (devices (Nat.iter 10 bump w)) with (devices w) by reflexivity.
      apply filter_out_absent, Hnone.
    + cbn [devices with_devices]. rewrite List.filter_app.
      rewrite (filter_out_absent _ _ Hnone). cbn [List.filter d_sessionId].
      rewrite String.eqb_refl. cbn [negb]. apply List.app_nil_r.
Qed.

Lemma deleteDevice_removes_the_session_witness :
  deleteDevice "ghost" ready_world = (Throw PrismaNotFound, ready_world)
  /\ find_device "abc123" (devices (snd (deleteDevice "abc123" ready_world))) = None.
Proof.
  destruct (deleteDevice_removes_the_session "ghost" ready_world) as (Hmissing & _).
  destruct (deleteDevice_removes_the_session "abc123" ready_world) as (_ & Hthere & _).
  split.
  - apply Hmissing. reflexivity.
  - eapply Hthere. reflexivity.
Defined.

(* ------------------------------------------------------------------------- *)
(** ** Further properties: the webhook                                        *)
(* ------------------------------------------------------------------------- *)

Ltac blind_step :=
  match goal with
  | |- stable _ (bind _ _) => apply stable_bind; [| intros ?]
  | |- stable _ (try_catch _ _) => apply stable_try_catch; [| intros ?]
  | |- stable _ (ret _) => apply stable_ret
  | |- stable _ (throw _) => apply stable_throw
  | |- stable _ (prop _ _) => apply stable_prop
  | |- stable _ get_world => apply stable_get_world
  | |- stable _ (uuidv4 _) => apply stable_uuidv4; assumption
  | |- stable _ (new_Date _) => apply stable_new_Date; assumption
  | |- stable _ (modify _) => apply stable_modify; intros ?; auto
  | |- stable _ (if ?c then _ else _) => destruct c
  | |- stable _ (match ?x with _ => _ end) => destruct x
  end.

Section Blind.

(** An observation of the store that does not look at the devices, the
    messages, [lastWebhook] or [tick]. *)
Context {X : Type} (obs : World -> X).
Hypothesis obs_bump : forall w, obs (bump w) = obs w.
Hypothesis obs_devices : forall ds w, obs (with_devices ds w) = obs w.
Hypothesis obs_messages : forall ms w, obs (with_messages ms w) = obs w.
Hypothesis obs_lastWebhook : forall v w, obs (with_lastWebhook v w) = obs w.

Variable P : Platform.

Lemma blind_status_update (sessionId dataType : jv) :
  stable obs (webhook_status_update P sessionId dataType).
Proof.
  unfold webhook_status_update, updateDeviceStatus, devices_update_status, string_arg.
  repeat blind_step.
Qed.

Lemma blind_save_message (messageData sessionId : jv) :
  stable obs (webhook_save_message P messageData sessionId).
Proof.
  unfold webhook_save_message, getDeviceBySessionId, devices_findUnique, string_arg,
    saveMessage, messages_create.
  repeat blind_step.
Qed.

Lemma blind_deliver (env : Env) (apiKey : option string) (body : jv) (w : World) :
  obs (snd (deliver P env apiKey body w)) = obs w.
Proof.
  unfold deliver, serve.
  destruct (strict_eq apiKey (WHATSAPP_WEBHOOK_AUTH env)) eqn:Hauth.
  - destruct (nullish body) eqn:Hbody.
    + unfold webhook_handler. rewrite Hauth. cbn [negb].
      rewrite bind_split. unfold prop. rewrite Hbody. reflexivity.
    + rewrite (webhook_authorized P env apiKey body w Hauth Hbody). cbv zeta.
      assert (Hw2 : obs (snd (webhook_status_update P (member body "sessionId")
                                 (member body "dataType") (after_receipt P body w)))
                    = obs w).
      { rewrite blind_status_update. unfold after_receipt.
        rewrite obs_lastWebhook. apply obs_bump. }
      destruct (fst (webhook_log_switch _ _ _)) as [[] | e]; cbn [snd].
      * rewrite blind_save_message. exact Hw2.
      * exact Hw2.
  - rewrite (webhook_unauthorized P env apiKey body w Hauth). reflexivity.
Qed.

End Blind.

Section WebhookFrame.

Variable P : Platform.

Lemma updateDeviceStatus_identities (sessionId : jv) (status : string) :
  stable (fun w => List.map device_identity (devices w))
         (updateDeviceStatus P sessionId status).
Proof.
  intros w. destruct sessionId as [| | b | z | s | l | f];
    try (rewrite updateDeviceStatus_not_string; reflexivity).
  rewrite updateDeviceStatus_devices.
  destruct (find_device s (devices w)); [| reflexivity].
  rewrite List.map_map. apply List.map_ext. intros d1. apply set_status_identity.
Qed.

Lemma status_update_identities (sessionId dataType : jv) :
  stable (fun w => List.map device_identity (devices w))
         (webhook_status_update P sessionId dataType).
Proof.
  unfold webhook_status_update. apply stable_try_catch; [| intros; apply stable_ret].
  destruct (_ && _); [| apply stable_ret].
  destruct dataType; try apply stable_ret.
  apply stable_bind; [apply updateDeviceStatus_identities | intros; apply stable_ret].
Qed.

(** [saveMessage] appends at most one row and leaves the rows there
    are. *)
Lemma saveMessage_appends (deviceKey : string) (messageData : jv) (w : World) :
  prefix_of (messages w) (messages (snd (saveMessage P deviceKey messageData w)))
  /\ (List.length (messages (snd (saveMessage P deviceKey messageData w)))
      <= S (List.length (messages w)))%nat.
Proof.
  destruct (nullish (select_message messageData)) eqn:Hsel.
  - unfold saveMessage. cbv zeta. rewrite bind_uuidv4. unfold prop. rewrite Hsel.
    cbn [bind throw snd messages bump]. split; [exists []; symmetry; apply List.app_nil_r | lia].
  - rewrite saveMessage_run by exact Hsel.
    destruct (message_ok P _); cbn [snd messages with_messages bump].
    + split; [eexists; reflexivity |]. rewrite List.length_app. cbn. lia.
    + split; [exists []; symmetry; apply List.app_nil_r | lia].
Qed.

Lemma save_message_appends (messageData sessionId : jv) (w : World) :
  prefix_of (messages w)
            (messages (snd (webhook_save_message P messageData sessionId w)))
  /\ (List.length (messages (snd (webhook_save_message P messageData sessionId w)))
      <= S (List.length (messages w)))%nat.
Proof.
  assert (Hsame : prefix_of (messages w) (messages w)
                  /\ (List.length (messages w) <= S (List.length (messages w)))%nat).
  { split; [exists []; symmetry; apply List.app_nil_r | lia]. }
  unfold webhook_save_message. destruct (_ && _); [| exact Hsame].
  rewrite try_catch_split, bind_split.
  destruct sessionId as [| | b | z | s | l | f]; try exact Hsame.
  rewrite getDeviceBySessionId_result, getDeviceBySessionId_pure.
  destruct (find_device s (devices w)) as [d |]; [| exact Hsame].
  rewrite bind_split.
  destruct (fst (saveMessage P (d_key d) messageData w)); cbn [fst snd ret];
    apply saveMessage_appends.
Qed.

End WebhookFrame.

(** X5.  No webhook delivery, authenticated or not, creates or deletes a
    device or changes the uuid, key, number or owner of one; none removes
    or rewrites a message row, and none adds more than one; none touches
    the contacts or the API keys. *)
Theorem webhook_never_rewrites :
  forall (P : Platform) (env : Env) (apiKey : option string) (body : jv)
         (w : World),
    let w' := snd (deliver P env apiKey body w) in
    List.map device_identity (devices w') = List.map device_identity (devices w)
    /\ prefix_of (messages w) (messages w')
    /\ (List.length (messages w') <= S (List.length (messages w)))%nat
    /\ contacts w' = contacts w
    /\ apikeys w' = apikeys w.
Proof.
  intros P env apiKey body w w'. subst w'.
  assert (Hsame : prefix_of (messages w) (messages w)
                  /\ (List.length (messages w) <= S (List.length (messages w)))%nat).
  { split; [exists []; symmetry; apply List.app_nil_r | lia]. }
  split; [| split; [| split; [| split]]];
    try (apply (blind_deliver (X := list Contact) contacts); reflexivity);
    try (apply (blind_deliver (X := list ApiKey) apikeys); reflexivity).
  all: unfold deliver, serve;
    destruct (strict_eq apiKey (WHATSAPP_WEBHOOK_AUTH env)) eqn:Hauth;
    [| rewrite (webhook_unauthorized P env apiKey body w Hauth);
       first [reflexivity | apply Hsame]].
  all: destruct (nullish body) eqn:Hbody;
    [unfold webhook_handler; rewrite Hauth; cbn [negb];
     rewrite bind_split; unfold prop; rewrite Hbody; cbn [fst snd throw];
     first [reflexivity | apply Hsame] |].
  all: rewrite (webhook_authorized P env apiKey body w Hauth Hbody); cbv zeta.
  all: set (w2 := snd (webhook_status_update P (member body "sessionId")
                         (member body "dataType") (after_receipt P body w))).
  all: assert (Hmsg : messages w2 = messages w)
    by (subst w2; rewrite status_update_messages; reflexivity).
  all: assert (Hid : List.map device_identity (devices w2)
                     = List.map device_identity (devices w))
    by (subst w2; rewrite (status_update_identities P); reflexivity).
  all: destruct (fst (webhook_log_switch _ _ _)) as [[] | e]; cbn [snd].
  - rewrite save_message_devices. exact Hid.
  - exact Hid.
  - rewrite <- Hmsg. apply save_message_appends.
  - rewrite Hmsg. apply Hsame.
  - rewrite <- Hmsg. apply save_message_appends.
  - rewrite Hmsg. apply Hsame.
Qed.

Lemma status_update_keeps_key (P : Platform) (sid : string) (sessionId dataType : jv)
  (w : World) (d : Device) :
  find_device sid (devices w) = Some d ->
  exists d', find_device sid
               (devices (snd (webhook_status_update P sessionId dataType w)))
             = Some d'
             /\ d_key d' = d_key d.
Proof.
  intros Hfind.
  assert (Hsame : forall w', devices w' = devices w ->
            exists d', find_device sid (devices w') = Some d' /\ d_key d' = d_key d).
  { intros w' Hw'. exists d. rewrite Hw'. split; [exact Hfind | reflexivity]. }
  unfold webhook_status_update.
  destruct (_ && _); [| apply Hsame; reflexivity].
  destruct dataType as [| | b | z | dt | l | f]; try (apply Hsame; reflexivity).
  rewrite swallow_snd.
  destruct sessionId as [| | b | z | s | l | f];
    try (apply Hsame; apply updateDeviceStatus_not_string; reflexivity).
  rewrite updateDeviceStatus_devices.
  destruct (find_device s (devices w)); [| apply Hsame; reflexivity].
  rewrite find_device_set_status, Hfind. cbn [option_map].
  eexists. split; [reflexivity |].
  unfold set_status. destruct (_ =? _)%string; reflexivity.
Qed.

(** X6.  An authenticated delivery for a session that has a device, in which
    the handler finds message data, stores exactly one message row under
    the key of that device, normalized from that data -- whatever the
    [dataType], a lifecycle event with a [data] object included --
    provided the log switch does not throw and the columns are accepted. *)
Theorem webhook_stores_message_under_device_key :
  forall (P : Platform) (env : Env) (apiKey : option string) (body : jv)
         (w : World) (sid : string) (d : Device),
    strict_eq apiKey (WHATSAPP_WEBHOOK_AUTH env) = true ->
    member body "sessionId" = JStr sid ->
    sid <> "" ->
    find_device sid (devices w) = Some d ->
    truthy (webhook_messageData body) = true ->
    reads_device (member body "dataType") && nullish (member body "data") = false ->
    (forall uuid now,
        message_ok P (messageRecord uuid (d_key d)
                        (select_message (webhook_messageData body)) now) = true) ->
    exists uuid now,
      messages (snd (deliver P env apiKey body w))
      = (messages w
         ++ [messageRecord uuid (d_key d)
               (select_message (webhook_messageData body)) now])%list.
Proof.
  intros P env apiKey body w sid d Hauth Hsid Hne Hfind Hdata Hsafe Hok.
  assert (Hbody : nullish body = false).
  { destruct body; try reflexivity; discriminate. }
  unfold deliver, serve.
  rewrite (webhook_authorized P env apiKey body w Hauth Hbody). cbv zeta.
  rewrite log_switch_result, Hsafe. cbn [snd]. rewrite Hsid.
  set (w2 := snd (webhook_status_update P (JStr sid) (member body "dataType")
                    (after_receipt P body w))).
  destruct (status_update_keeps_key P sid (JStr sid) (member body "dataType")
              (after_receipt P body w) d Hfind) as (d' & Hfind' & Hkey).
  fold w2 in Hfind'.
  assert (Hmsg : messages w2 = messages w).
  { subst w2. rewrite status_update_messages. reflexivity. }
  unfold webhook_save_message. rewrite Hdata.
  assert (Htruthy : truthy (JStr sid) = true).
  { cbn. destruct (String.eqb_spec sid ""); [contradiction | reflexivity]. }
  rewrite Htruthy. cbn [andb].
  rewrite try_catch_split, bind_split, getDeviceBySessionId_result,
    getDeviceBySessionId_pure, Hfind'.
  rewrite bind_split, saveMessage_run
    by (apply select_message_not_nullish, truthy_not_nullish, Hdata).
  unfold message_row. rewrite Hkey, Hok. cbn [fst snd ret messages with_messages].
  rewrite Hmsg. eexists. eexists. reflexivity.
Qed.

Lemma webhook_stores_message_under_device_key_witness :
  exists uuid now,
    messages (snd (deliver sample_platform sample_env (Some "hook-secret")
                     (JObj [("sessionId", JStr "abc123"); ("dataType", JStr "qr");
                            ("data", JObj [("qr", JStr "2@abc")])])
                     ready_world))
    = (messages ready_world
       ++ [messageRecord uuid "K3Y00001" (JObj [("qr", JStr "2@abc")]) now])%list.
Proof.
  apply (webhook_stores_message_under_device_key sample_platform sample_env
           (Some "hook-secret")
           (JObj [("sessionId", JStr "abc123"); ("dataType", JStr "qr");
                  ("data", JObj [("qr", JStr "2@abc")])])
           ready_world "abc123"
           (mkDevice "uuid-dev" "K3Y00001" "abc123" "" "ready" "user-1" 1700000000)).
  - reflexivity.
  - reflexivity.
  - discriminate.
  - reflexivity.
  - reflexivity.
  - reflexivity.
  - intros uuid now. reflexivity.
Defined.



(** X8.  [GET /webhook/last] answers with the [dataType], [data] and
    [sessionId] of the last authenticated delivery that had a body, also
    when that delivery itself was answered with an error; a refused
    delivery does not change its answer, and before the first delivery it
    answers that none has been received. *)
Theorem webhook_last_shows_last_delivery :
  forall (P : Platform) (env : Env) (apiKey : option string) (body : jv)
         (w : World),
    (strict_eq apiKey (WHATSAPP_WEBHOOK_AUTH env) = true ->
     nullish body = false ->
     fst (serve webhook_last_handler (snd (deliver P env apiKey body w)))
     = json_reply 200
         (JObj [("dataType", member body "dataType"); ("data", member body "data");
                ("sessionId", member body "sessionId");
                ("receivedAt", JNum (now_at P (tick w)))]))
    /\ (strict_eq apiKey (WHATSAPP_WEBHOOK_AUTH env) = false ->
        fst (serve webhook_last_handler (snd (deliver P env apiKey body w)))
        = fst (serve webhook_last_handler w))
    /\ (lastWebhook w = JNull ->
        fst (serve webhook_last_handler w)
        = json_reply 200 (JObj [("message", JStr "No webhook received yet")])).
Proof.
  intros P env apiKey body w. split; [| split].
  - intros Hauth Hbody.
    assert (Hlast : lastWebhook (snd (deliver P env apiKey body w))
                    = lastWebhook (after_receipt P body w)).
    { unfold deliver, serve.
      rewrite (webhook_authorized P env apiKey body w Hauth Hbody). cbv zeta.
      assert (Hupd : forall sessionId dataType,
                stable lastWebhook (webhook_status_update P sessionId dataType)).
      { intros. unfold webhook_status_update, updateDeviceStatus,
          devices_update_status, string_arg. repeat stable_step. }
      assert (Hsave : forall messageData sessionId,
                stable lastWebhook (webhook_save_message P messageData sessionId)).
      { intros. unfold webhook_save_message, getDeviceBySessionId,
          devices_findUnique, string_arg, saveMessage, messages_create.
        repeat stable_step. }
      destruct (fst (webhook_log_switch _ _ _)) as [[] | e]; cbn [snd].
      - rewrite Hsave, Hupd. reflexivity.
      - rewrite Hupd. reflexivity. }
    unfold serve, webhook_last_handler. rewrite bind_get_world, Hlast.
    reflexivity.
  - intros Hauth. unfold deliver at 1, serve at 2.
    rewrite (webhook_unauthorized P env apiKey body w Hauth). reflexivity.
  - intros Hnull. unfold serve, webhook_last_handler.
    rewrite bind_get_world, Hnull. reflexivity.
Qed.

Lemma webhook_last_shows_last_delivery_witness :
  code (fst (deliver sample_platform sample_env (Some "hook-secret")
               (JObj [("sessionId", JStr "abc123"); ("dataType", JStr "device_linked")])
               ready_world)) = 500
  /\ fst (serve webhook_last_handler
            (snd (deliver sample_platform sample_env (Some "hook-secret")
                    (JObj [("sessionId", JStr "abc123");
                           ("dataType", JStr "device_linked")])
                    ready_world)))
     = json_reply 200
         (JObj [("dataType", JStr "device_linked"); ("data", JUndefined);
                ("sessionId", JStr "abc123"); ("receivedAt", JNum 1700000000)]).
Proof.
  split; [reflexivity |].
  destruct (webhook_last_shows_last_delivery sample_platform sample_env
              (Some "hook-secret")
              (JObj [("sessionId", JStr "abc123"); ("dataType", JStr "device_linked")])
              ready_world) as (Hshow & _).
  apply Hshow; reflexivity.
Defined.

(* ------------------------------------------------------------------------- *)
(** ** Further properties: contacts                                           *)
(* ------------------------------------------------------------------------- *)

Lemma prefix_of_refl {A} (l : list A) : prefix_of l l.
Proof. exists []. symmetry. apply List.app_nil_r. Qed.

Lemma prefix_of_trans {A} (l1 l2 l3 : list A) :
  prefix_of l1 l2 -> prefix_of l2 l3 -> prefix_of l1 l3.
Proof.
  intros [r1 ->] [r2 ->]. exists (r1 ++ r2)%list. symmetry. apply List.app_assoc.
Qed.

Section ContactFrame.

Variable P : Platform.
Variable deviceKey : string.

Lemma set_fields_identity (cid : string) (f : ContactFields) (c : Contact) :
  contact_identity (set_fields cid f c) = contact_identity c.
Proof. unfold set_fields. destruct (_ =? _)%string; reflexivity. Qed.

(** The rows there are keep their uuid and [contactId]; a new row comes
    last. *)
Lemma saveContact_keeps_rows (contactData : jv) (w : World) :
  prefix_of (List.map contact_identity (contacts w))
            (List.map contact_identity
               (contacts (snd (saveContact P deviceKey contactData w)))).
Proof.
  destruct (nullish contactData) eqn:Hc.
  - rewrite saveContact_nullish by exact Hc. apply prefix_of_refl.
  - rewrite saveContact_run by exact Hc. cbv zeta.
    destruct (contact_ok P _); [| apply prefix_of_refl].
    destruct (find_contact _ (contacts w)); cbn [snd contacts with_contacts].
    + rewrite List.map_map.
      match goal with
      | |- prefix_of _ (List.map ?g ?l) =>
          replace (List.map g l) with (List.map contact_identity l);
          [apply prefix_of_refl |]
      end.
      apply List.map_ext. intros c0. symmetry. apply set_fields_identity.
    + rewrite List.map_app. eexists. reflexivity.
Qed.

Lemma saveContact_blind {X} (obs : World -> X) (contactData : jv) :
  (forall w, obs (bump w) = obs w) ->
  (forall cs w, obs (with_contacts cs w) = obs w) ->
  stable obs (saveContact P deviceKey contactData).
Proof.
  intros Hbump Hcontacts. unfold saveContact. cbv zeta.
  unfold contacts_findUnique, contacts_update, contacts_create.
  repeat blind_step.
Qed.

Lemma saveContacts_step_blind {X} (obs : World -> X) (results : list Contact)
  (contact : jv) :
  (forall w, obs (bump w) = obs w) ->
  (forall cs w, obs (with_contacts cs w) = obs w) ->
  stable obs (saveContacts_step P deviceKey results contact).
Proof.
  intros Hbump Hcontacts. unfold saveContacts_step.
  apply stable_try_catch; [| intros; apply stable_ret].
  apply stable_bind; [apply stable_prop | intros _].
  cbv zeta. destruct (includes _ _); [| apply stable_ret].
  apply stable_bind; [apply saveContact_blind; assumption | intros; apply stable_ret].
Qed.

Lemma saveContacts_from_blind {X} (obs : World -> X) (contactsData : list jv) :
  (forall w, obs (bump w) = obs w) ->
  (forall cs w, obs (with_contacts cs w) = obs w) ->
  forall results, stable obs (saveContacts_from P deviceKey results contactsData).
Proof.
  intros Hbump Hcontacts.
  induction contactsData as [| contact rest IH]; intros results;
    cbn [saveContacts_from].
  - apply stable_ret.
  - apply stable_bind; [apply saveContacts_step_blind; assumption | intros; apply IH].
Qed.

Lemma saveContacts_step_ok (results : list Contact) (contact : jv) (w : World) :
  exists results',
    fst (saveContacts_step P deviceKey results contact w) = Ok results'
    /\ (List.length results'
        <= List.length results + (if is_user_contact contact then 1 else 0))%nat.
Proof.
  destruct (is_user_contact contact) eqn:Huser.
  - rewrite saveContacts_step_saves by exact Huser.
    destruct (fst (saveContact P deviceKey contact w)) as [row | e]; cbn [fst].
    + eexists. split; [reflexivity |]. rewrite List.length_app. cbn. lia.
    + eexists. split; [reflexivity | lia].
  - rewrite saveContacts_step_skips by exact Huser.
    eexists. split; [reflexivity | lia].
Qed.

Lemma saveContacts_from_ok (contactsData : list jv) :
  forall (results : list Contact) (w : World),
  exists results',
    fst (saveContacts_from P deviceKey results contactsData w) = Ok results'
    /\ (List.length results'
        <= List.length results
           + List.length (List.filter is_user_contact contactsData))%nat.
Proof.
  induction contactsData as [| contact rest IH]; intros results w.
  - exists results. split; [reflexivity | cbn; lia].
  - cbn [saveContacts_from]. rewrite bind_split.
    destruct (saveContacts_step_ok results contact w) as (r1 & Hr1 & Hlen1).
    rewrite Hr1.
    destruct (IH r1 (snd (saveContacts_step P deviceKey results contact w)))
      as (r2 & Hr2 & Hlen2).
    exists r2. split; [exact Hr2 |]. cbn [List.filter].
    destruct (is_user_contact contact); cbn [List.length]; lia.
Qed.

Lemma saveContacts_from_keeps_rows (contactsData : list jv) :
  forall (results : list Contact) (w : World),
    prefix_of (List.map contact_identity (contacts w))
              (List.map contact_identity
                 (contacts (snd (saveContacts_from P deviceKey results
                                   contactsData w)))).
Proof.
  induction contactsData as [| contact rest IH]; intros results w.
  - apply prefix_of_refl.
  - cbn [saveContacts_from]. rewrite bind_split.
    destruct (saveContacts_step_ok results contact w) as (r1 & Hr1 & _).
    rewrite Hr1. eapply prefix_of_trans; [| apply IH].
    destruct (is_user_contact contact) eqn:Huser.
    + rewrite saveContacts_step_saves by exact Huser.
      destruct (fst (saveContact P deviceKey contact w)); cbn [snd];
        apply saveContact_keeps_rows.
    + rewrite saveContacts_step_skips by exact Huser. apply prefix_of_refl.
Qed.

End ContactFrame.

(** X9.  [saveContacts] never throws, whatever the list holds and whatever
    Prisma refuses: it returns at most one row per contact that has the
    suffix, and it changes neither the devices, the messages nor the API
    keys. *)
Theorem saveContacts_never_throws :
  forall (P : Platform) (deviceKey : string) (contactsData : list jv) (w : World),
  exists results,
    fst (saveContacts P deviceKey contactsData w) = Ok results
    /\ (List.length results
        <= List.length (List.filter is_user_contact contactsData))%nat
    /\ devices (snd (saveContacts P deviceKey contactsData w)) = devices w
    /\ messages (snd (saveContacts P deviceKey contactsData w)) = messages w
    /\ apikeys (snd (saveContacts P deviceKey contactsData w)) = apikeys w.
Proof.
  intros P deviceKey contactsData w. unfold saveContacts.
  destruct (saveContacts_from_ok P deviceKey contactsData [] w) as (results & Hrun & Hlen).
  exists results. split; [exact Hrun | split; [exact Hlen |]].
  split; [| split];
    apply (saveContacts_from_blind P deviceKey); intros; reflexivity.
Qed.

(** X10.  [saveContacts] never deletes a contact and never changes the uuid or
    the [contactId] of one: the rows there were are still there, in their
    order, new rows after them; and a table that satisfies the unique
    [contactId] satisfies it afterwards. *)
Theorem saveContacts_never_removes :
  forall (P : Platform) (deviceKey : string) (contactsData : list jv) (w : World),
    prefix_of (List.map contact_identity (contacts w))
              (List.map contact_identity
                 (contacts (snd (saveContacts P deviceKey contactsData w))))
    /\ (NoDup (contact_ids w) ->
        NoDup (contact_ids (snd (saveContacts P deviceKey contactsData w)))).
Proof.
  intros P deviceKey contactsData w. split.
  - apply saveContacts_from_keeps_rows.
  - apply saveContacts_unique.
Qed.

Lemma saveContacts_never_removes_witness :
  NoDup (contact_ids ready_world)
  /\ NoDup (contact_ids
              (snd (saveContacts sample_platform "K3Y00001" twelve_contacts ready_world))).
Proof.
  assert (Hnd : NoDup (contact_ids ready_world)) by constructor.
  split; [exact Hnd |].
  apply (saveContacts_never_removes sample_platform "K3Y00001" twelve_contacts
           ready_world).
  exact Hnd.
Defined.

Lemma string_app_assoc (a b c : string) : ((a ++ b) ++ c = a ++ (b ++ c))%string.
Proof. induction a as [| x a IH]; cbn; [reflexivity | rewrite IH; reflexivity]. Qed.

Lemma string_app_nil_r (a : string) : (a ++ "" = a)%string.
Proof. induction a as [| x a IH]; cbn; [reflexivity | rewrite IH; reflexivity]. Qed.

Lemma prefix_app (a b : string) : String.prefix a (a ++ b) = true.
Proof.
  induction a as [| x a IH]; cbn.
  - destruct b; reflexivity.
  - destruct (Ascii.ascii_dec x x); [exact IH | contradiction].
Qed.

Lemma includes_here (needle s : string) :
  String.prefix needle s = true -> includes needle s = true.
Proof. intros H. destruct s; cbn [includes]; rewrite H; reflexivity. Qed.

Lemma includes_later (needle p s : string) :
  includes needle s = true -> includes needle (p ++ s) = true.
Proof.
  intros H. induction p as [| x p IH]; cbn [append]; [exact H |].
  cbn [includes]. rewrite IH. apply orb_true_r.
Qed.

(** What the scan returns is a run of digits that stands in front of an
    [@]. *)
Lemma digits_before_at_sound (s : string) :
  forall (run d : string),
    string_forall is_digit run = true ->
    digits_before_at run s = Some d ->
    d <> "" /\ string_forall is_digit d = true
    /\ includes (d ++ "@") (run ++ s) = true.
Proof.
  induction s as [| c rest IH]; intros run d Hrun Hscan; cbn [digits_before_at] in Hscan.
  - discriminate.
  - destruct (is_digit c) eqn:Hc.
    + destruct (IH (run ++ String c EmptyString)%string d) as (Hne & Hall & Hin).
      * rewrite string_forall_app, Hrun. cbn. rewrite Hc. reflexivity.
      * exact Hscan.
      * split; [exact Hne | split; [exact Hall |]].
        rewrite string_app_assoc in Hin. exact Hin.
    + destruct (Ascii.eqb_spec c "@"%char) as [-> | Hat]; cbn [andb] in Hscan.
      * destruct (String.eqb_spec run "") as [E | E]; cbn [negb] in Hscan.
        -- destruct (IH "" d eq_refl Hscan) as (Hne & Hall & Hin).
           split; [exact Hne | split; [exact Hall |]].
           apply includes_later with (p := (run ++ "@")%string) in Hin.
           rewrite string_app_assoc in Hin. exact Hin.
        -- injection Hscan as <-.
           split; [exact E | split; [exact Hrun |]].
           apply includes_here.
           change (run ++ String "@" rest)%string
             with (run ++ ("@" ++ rest))%string.
           rewrite <- string_app_assoc. apply prefix_app.
      * destruct (IH "" d eq_refl Hscan) as (Hne & Hall & Hin).
        split; [exact Hne | split; [exact Hall |]].
        apply includes_later with (p := (run ++ String c "")%string) in Hin.
        rewrite string_app_assoc in Hin. exact Hin.
Qed.

(** A run of digits directly in front of the first [@] is what the scan
    returns. *)
Lemma digits_before_at_exact (digits : string) :
  forall (run rest : string),
    string_forall is_digit digits = true ->
    (run ++ digits)%string <> "" ->
    digits_before_at run (digits ++ String "@" rest) = Some (run ++ digits)%string.
Proof.
  induction digits as [| c digits IH]; intros run rest Hall Hne.
  - cbn [append digits_before_at]. rewrite string_app_nil_r in *.
    change (is_digit "@") with false. cbn [Ascii.eqb Bool.eqb andb].
    destruct (String.eqb_spec run ""); [contradiction | reflexivity].
  - cbn [string_forall] in Hall. apply andb_prop in Hall. destruct Hall as [Hc Hall].
    cbn [append digits_before_at]. rewrite Hc.
    rewrite IH; [| exact Hall |].
    + rewrite string_app_assoc. reflexivity.
    + rewrite string_app_assoc. cbn [append]. destruct run; discriminate.
Qed.

(** X11.  The number [saveContact] stores: a [number], [phoneNumber], [phone] or
    [id.user] of the payload when it has one; otherwise, for a payload
    whose [id] is a string, the digits in front of the first [@] that
    follows a digit -- so for an id [<digits>@<domain>] the digits, and in
    every case a non-empty run of digits that stands in front of an [@] of
    the id. *)
Theorem contact_number_from_serialized_id :
  forall (contactData : jv) (id : string),
    member contactData "id" = JStr id ->
    truthy (member contactData "number" ||| member contactData "phoneNumber"
            ||| member contactData "phone") = false ->
    (forall digits rest,
        id = (digits ++ String "@" rest)%string ->
        digits <> "" ->
        string_forall is_digit digits = true ->
        contact_number contactData = JStr digits)
    /\ (forall d,
          digits_before_at "" id = Some d ->
          contact_number contactData = JStr d
          /\ d <> "" /\ string_forall is_digit d = true
          /\ includes (d ++ "@") id = true)
    /\ (digits_before_at "" id = None ->
        contact_number contactData = JNull).
Proof.
  intros contactData id Hid Hnone.
  assert (Hshape : contact_number contactData
                   = if truthy (JStr id)
                     then match digits_before_at "" id with
                          | Some digits => JStr digits
                          | None => JNull
                          end
                     else JNull).
  { unfold contact_number. rewrite Hid. cbn [opt_member nullish member].
    remember (member contactData "number" ||| member contactData "phoneNumber"
              ||| member contactData "phone") as direct eqn:Hdirect.
    unfold js_or. rewrite Hnone. cbn [truthy negb andb].
    destruct (negb (id =? "")%string); cbn [andb]; reflexivity. }
  split; [| split].
  - intros digits rest -> Hne Hall.
    rewrite Hshape, (digits_before_at_exact digits "" rest Hall) by exact Hne.
    cbn [append truthy]. destruct digits; [contradiction | reflexivity].
  - intros d Hscan.
    destruct (digits_before_at_sound id "" d eq_refl Hscan) as (Hne & Hall & Hin).
    split; [| split; [exact Hne | split; [exact Hall | exact Hin]]].
    rewrite Hshape, Hscan. cbn [truthy].
    destruct id; [discriminate Hscan | reflexivity].
  - intros Hscan. rewrite Hshape, Hscan. destruct (truthy (JStr id)); reflexivity.
Qed.

Lemma contact_number_from_serialized_id_witness :
  contact_number (JObj [("id", JStr "6281234@c.us"); ("name", JStr "Budi")])
  = JStr "6281234".
Proof.
  destruct (contact_number_from_serialized_id
              (JObj [("id", JStr "6281234@c.us"); ("name", JStr "Budi")])
              "6281234@c.us" eq_refl eq_refl) as (Hexact & _).
  apply (Hexact "6281234" "c.us"); [reflexivity | discriminate | reflexivity].
Defined.

Lemma saveContacts_one (P : Platform) (deviceKey : string) (c : jv) (w : World) :
  is_user_contact c = true ->
  snd (saveContacts P deviceKey [c] w) = snd (saveContact P deviceKey c w).
Proof.
  intros Huser. unfold saveContacts. cbn [saveContacts_from].
  rewrite bind_split, (saveContacts_step_saves P deviceKey [] c w Huser).
  destruct (fst (saveContact P deviceKey c w)); reflexivity.
Qed.

(** X12.  Contact rows are keyed by [contactId] alone.  When a device saves a
    contact that another device has saved before, no second row appears:
    the one row of the contact is re-scoped to the device that saved last,
    and the first device no longer has it. *)
Theorem contact_follows_last_device :
  forall (P : Platform) (keyA keyB : string) (c : jv) (w : World),
    NoDup (contact_ids w) ->
    is_user_contact c = true ->
    (forall now, contact_ok P (contactRecord keyA c now) = true) ->
    (forall now, contact_ok P (contactRecord keyB c now) = true) ->
    let w' := snd (saveContacts P keyB [c] (snd (saveContacts P keyA [c] w))) in
    (exists row, contacts_with (spec_contact_identity c) w' = [row]
                 /\ c_deviceKey (c_fields row) = keyB)
    /\ (keyA <> keyB -> ~ has_contact (spec_contact_identity c) keyA w').
Proof.
  intros P keyA keyB c w Hnd Huser HokA HokB w'.
  assert (Hone : exists row, contacts_with (spec_contact_identity c) w' = [row]
                             /\ c_deviceKey (c_fields row) = keyB).
  { subst w'. rewrite !saveContacts_one by exact Huser.
    destruct (saveContact_upsert P keyA c w (user_contact_not_nullish _ Huser)
                (HokA _) Hnd) as (rowA & _ & _ & _ & HndA & _).
    set (wA := snd (saveContact P keyA c w)) in *.
    destruct (saveContact_upsert P keyB c wA (user_contact_not_nullish _ Huser)
                (HokB _) HndA) as (rowB & _ & Hrows & Hfields & _ & _).
    rewrite (user_contact_id P c wA Huser) in Hrows.
    exists rowB. split; [exact Hrows |]. rewrite Hfields. reflexivity. }
  split; [exact Hone |].
  intros Hne (row' & Hin & Hcid & Hkey).
  destruct Hone as (row & Hrows & HkeyB).
  assert (Hin' : In row' (contacts_with (spec_contact_identity c) w')).
  { unfold contacts_with. apply List.filter_In. split; [exact Hin |].
    rewrite Hcid. apply String.eqb_refl. }
  rewrite Hrows in Hin'. destruct Hin' as [<- | []]. congruence.
Qed.

Lemma contact_follows_last_device_witness :
  let c := JObj [("id", JObj [("_serialized", JStr "628111@c.us")])] in
  exists row,
    contacts_with "628111@c.us"
      (snd (saveContacts sample_platform "KEYBBBBB" [c]
              (snd (saveContacts sample_platform "KEYAAAAA" [c] ready_world))))
    = [row]
    /\ c_deviceKey (c_fields row) = "KEYBBBBB".
Proof.
  intros c.
  apply (contact_follows_last_device sample_platform "KEYAAAAA" "KEYBBBBB" c
           ready_world).
  - constructor.
  - reflexivity.
  - intros now. reflexivity.
  - intros now. reflexivity.
Defined.

Lemma contact_id_without_identity (P : Platform) (c : jv) (w : World) :
  truthy (identity_chain c) = false ->
  contact_id_in P c w = uuid_at P (tick w).
Proof.
  intros Hchain. unfold contact_id_in, js_or. rewrite Hchain. reflexivity.
Qed.

(** X13.  [saveContact] is an upsert only for a contact that has an identity.  A
    contact without [id], [contactId] and [number] is stored under a
    generated uuid, so saving the same object twice stores two rows; bulk
    save never gets there, since it skips such a contact. *)
Theorem saveContact_without_identity_duplicates :
  forall (P : Platform) (deviceKey : string) (c : jv) (w : World),
    nullish c = false ->
    truthy (identity_chain c) = false ->
    (forall now, contact_ok P (contactRecord deviceKey c now) = true) ->
    ~ In (uuid_at P (tick w)) (contact_ids w) ->
    ~ In (uuid_at P (2 + tick w)) (contact_ids w) ->
    uuid_at P (2 + tick w) <> uuid_at P (tick w) ->
    contact_ids (snd (saveContact P deviceKey c (snd (saveContact P deviceKey c w))))
    = (contact_ids w ++ [uuid_at P (tick w); uuid_at P (2 + tick w)])%list
    /\ saveContacts P deviceKey [c; c] w = (Ok [], w).
Proof.
  intros P deviceKey c w Hc Hchain Hok Hfresh1 Hfresh2 Hdiff. split.
  - rewrite (saveContact_run P deviceKey c w Hc). cbv zeta.
    unfold contact_fields_in at 1.
    rewrite (Hok _), (contact_id_without_identity P c w Hchain).
    apply find_contact_absent in Hfresh1. rewrite Hfresh1. cbn [snd].
    set (row1 := mkContact (uuid_at P (tick w)) (uuid_at P (tick w))
                   (contact_fields_in P deviceKey c w)).
    set (w1 := with_contacts (contacts w ++ [row1]) (bump (bump w))).
    rewrite (saveContact_run P deviceKey c w1 Hc). cbv zeta.
    unfold contact_fields_in at 1.
    rewrite (Hok _), (contact_id_without_identity P c w1 Hchain).
    change (tick w1) with (2 + tick w)%nat.
    assert (Hnone : find_contact (uuid_at P (2 + tick w)) (contacts w1) = None).
    { apply find_contact_absent. subst w1. cbn [contacts with_contacts].
      rewrite List.map_app. intros Hin. apply List.in_app_or in Hin.
      destruct Hin as [Hin | [Hin | []]].
      - exact (Hfresh2 Hin).
      - apply Hdiff. symmetry. exact Hin. }
    rewrite Hnone. unfold contact_ids. cbn [snd contacts with_contacts].
    subst w1. cbn [contacts with_contacts]. rewrite !List.map_app.
    rewrite <- List.app_assoc. reflexivity.
  - unfold saveContacts. cbn [saveContacts_from].
    assert (Hskip : is_user_contact c = false).
    { unfold is_user_contact. rewrite spec_contact_identity_chain.
      unfold js_or. rewrite Hchain. reflexivity. }
    rewrite bind_split, saveContacts_step_skips by exact Hskip. cbn [fst snd].
    rewrite bind_split, saveContacts_step_skips by exact Hskip. reflexivity.
Qed.

Lemma saveContact_without_identity_duplicates_witness :
  contact_ids
    (snd (saveContact sample_platform "K3Y00001" (JObj [("name", JStr "Budi")])
            (snd (saveContact sample_platform "K3Y00001" (JObj [("name", JStr "Budi")])
                    ready_world))))
  = ["uuid-0"; "uuid-2"].
Proof.
  apply (saveContact_without_identity_duplicates sample_platform "K3Y00001"
           (JObj [("name", JStr "Budi")]) ready_world).
  - reflexivity.
  - reflexivity.
  - intros now. reflexivity.
  - intros [].
  - intros [].
  - vm_compute. discriminate.
Defined.

(* ------------------------------------------------------------------------- *)
(** ** Further properties: the relay routes                                   *)
(* ------------------------------------------------------------------------- *)

Section RelayErrors.

Variable P : Platform.

Lemma apiKeyAuth_unknown (token : string) (w : World) :
  token <> "" ->
  operator_of token w = None ->
  apiKeyAuth (Some token) w = (Ok (inl key_invalid), w).
Proof.
  intros Htok Hop. unfold apiKeyAuth. destruct token as [| a token]; [congruence |].
  rewrite try_catch_split. unfold apikeys_findFirst.
  rewrite bind_split. cbn [fst snd get_world bind ret].
  unfold operator_of in Hop.
  destruct (List.find _ (apikeys w)) as [[t s [u |]] |]; cbn in Hop;
    try discriminate; reflexivity.
Qed.

End RelayErrors.

(** X14.  A relay call whose API key is empty, unknown, inactive or bound to no
    user is answered with 401 and changes nothing in the store, for every
    operation and whatever the provider would have answered. *)
Theorem relay_refuses_bad_key :
  forall (P : Platform) (op : RelayOp) (env : Env) (token sid : string)
         (net : option Response) (w : World),
    (token = "" -> call P op env token sid net w = (key_required, w))
    /\ (token <> "" -> operator_of token w = None ->
        call P op env token sid net w = (key_invalid, w)).
Proof.
  intros P op env token sid net w. split.
  - intros ->. reflexivity.
  - intros Htok Hop. unfold call, serve, relay. rewrite bind_split.
    rewrite (apiKeyAuth_unknown token w Htok Hop). reflexivity.
Qed.

Lemma relay_refuses_bad_key_witness :
  call sample_platform OpStart sample_env "stolen-key" "abc123"
    (Some success_response) fresh_world
  = (key_invalid, fresh_world).
Proof.
  apply (relay_refuses_bad_key sample_platform OpStart sample_env "stolen-key"
           "abc123" (Some success_response) fresh_world).
  - discriminate.
  - reflexivity.
Defined.

Lemma relay_handler_cases (P : Platform) (op : RelayOp) (env : Env)
  (user : option User) (sid : string) (net : option Response) (w : World)
  (r : Reply) :
  configuration_error env = Some r \/ (configuration_error env = None /\ net = None /\ r = connectivity_error) ->
  start_handler P env user sid net w = (Ok r, w)
  /\ qr_image_handler env net w = (Ok r, w)
  /\ getContacts_handler P env sid net w = (Ok r, w)
  /\ passthrough_handler env net w = (Ok r, w).
Proof.
  intros [Hcfg | (Hcfg & -> & ->)];
    unfold start_handler, qr_image_handler, getContacts_handler,
      passthrough_handler, relayed; rewrite Hcfg; repeat split; reflexivity.
Qed.

(** X15.  With a valid key, a relay call made while [REMOTE_API_KEY] or
    [REMOTE_URL_API] is not set, or whose [fetch] is rejected, is answered
    with 500 and changes nothing in the store, for every operation.  The
    configuration message names [REMOTE_API_KEY] when that one is missing,
    also when both are. *)
Theorem relay_fails_before_the_provider_answers :
  forall (P : Platform) (op : RelayOp) (token : string) (user : User)
         (sid : string) (w : World),
    token <> "" ->
    operator_of token w = Some user ->
    (forall secret url net,
        call P op (mkEnv secret None url) token sid net w
        = (json_reply 500
             (JObj [("success", JBool false);
                    ("message",
                     JStr "Configuration error: REMOTE_API_KEY is not set")]), w))
    /\ (forall secret key a rest net,
          key = String a rest ->
          call P op (mkEnv secret (Some key) None) token sid net w
          = (json_reply 500
               (JObj [("success", JBool false);
                      ("message",
                       JStr "Configuration error: REMOTE_URL_API is not set")]), w))
    /\ (forall env,
          configuration_error env = None ->
          call P op env token sid None w = (connectivity_error, w)).
Proof.
  intros P op token user sid w Htok Hop.
  assert (Hcall : forall env net r,
            configuration_error env = Some r
            \/ (configuration_error env = None /\ net = None /\ r = connectivity_error) ->
            on_wire P op r = r ->
            call P op env token sid net w = (r, w)).
  { intros env net r Hcase Hwire. unfold call, serve.
    rewrite (relay_authenticated P op env token user sid net w Htok Hop).
    destruct (relay_handler_cases P op env (Some user) sid net w r Hcase)
      as (H1 & H2 & H3 & H4).
    destruct op; rewrite ?H1, ?H2, ?H3, ?H4; cbn [fst snd]; rewrite Hwire;
      reflexivity. }
  split; [| split].
  - intros secret url net. apply Hcall; [left; reflexivity |].
    apply on_wire_success_message. right. reflexivity.
  - intros secret key a rest net ->. apply Hcall; [left; reflexivity |].
    apply on_wire_success_message. right. reflexivity.
  - intros env Hcfg. apply Hcall; [right; repeat split; exact Hcfg |].
    apply on_wire_success_message. right. reflexivity.
Qed.

Lemma relay_fails_before_the_provider_answers_witness :
  call sample_platform OpGetContacts sample_env "operator-key" "abc123" None
    ready_world
  = (connectivity_error, ready_world).
Proof.
  destruct (relay_fails_before_the_provider_answers sample_platform OpGetContacts
              "operator-key" (mkUser "user-1") "abc123" ready_world)
    as (_ & _ & Hnet).
  - discriminate.
  - reflexivity.
  - apply Hnet. reflexivity.
Defined.

(** X16.  With a valid key, the operations that only forward ([status],
    [qr], [restart], [terminate], [terminateInactive], [terminateAll],
    [sendMessage]) never change the store and answer with the provider's
    status, whatever it is -- an error status is not translated.  A body
    that is an object reaches the caller whole, except with status 401 or
    500, whose schema lets through its [success] and [message] only. *)
Theorem forwarding_relays_under_schema :
  forall (P : Platform) (op : RelayOp) (env : Env) (token : string) (user : User)
         (sid : string) (response : Response) (w : World),
    token <> "" ->
    operator_of token w = Some user ->
    configuration_error env = None ->
    forwards_only op = true ->
    let out := call P op env token sid (Some response) w in
    snd out = w
    /\ reaches_caller op (r_status response) (parse_or_raw response) (fst out).
Proof.
  intros P op env token user sid response w Htok Hop Hcfg Hfwd out. subst out.
  rewrite call_reply, call_world. unfold serve.
  rewrite (relay_authenticated P op env token user sid (Some response) w Htok Hop).
  assert (Hpass : passthrough_handler env (Some response) w
                  = (Ok (json_reply (r_status response) (parse_or_raw response)), w)).
  { unfold passthrough_handler. rewrite (relayed_run _ _ _ Hcfg). reflexivity. }
  destruct op; try discriminate; rewrite Hpass; cbn [fst snd];
    (split; [reflexivity | apply on_wire_reaches]).
Qed.

Lemma forwarding_relays_under_schema_witness :
  let refused := mkResponse 401 "(refused by the provider)"
                   (Some (JObj [("error", JStr "bad key")])) in
  call sample_platform OpTerminate sample_env "operator-key" "abc123"
    (Some html_response) ready_world
  = (json_reply 502 (JObj [("raw", JStr "<html>Bad Gateway</html>")]), ready_world)
  /\ exists body,
       fst (call sample_platform OpStatus sample_env "operator-key" "abc123"
              (Some refused) ready_world)
       = json_reply 401 (JObj body)
       /\ lookup "error" body = None.
Proof.
  intros refused. split.
  - destruct (forwarding_relays_under_schema sample_platform OpTerminate sample_env
                "operator-key" (mkUser "user-1") "abc123" html_response ready_world)
      as (Hworld & _ & Hbody).
    + discriminate.
    + reflexivity.
    + reflexivity.
    + reflexivity.
    + destruct (Hbody _ eq_refl) as (Hwhole & _ & _).
      rewrite (surjective_pairing (call _ _ _ _ _ _ _)), Hworld, Hwhole;
        [reflexivity | discriminate | discriminate | left; discriminate].
  - destruct (forwarding_relays_under_schema sample_platform OpStatus sample_env
                "operator-key" (mkUser "user-1") "abc123" refused ready_world)
      as (_ & _ & Hbody).
    + discriminate.
    + reflexivity.
    + reflexivity.
    + reflexivity.
    + destruct (Hbody _ eq_refl) as (_ & Hclosed & _).
      destruct Hclosed as (body & Hreply & Hkeys & _); [left; reflexivity |].
      exists body. split; [exact Hreply |].
      apply Hkeys. cbn. intuition discriminate.
Defined.

(** X17.  A start relay creates no device unless the provider answers
    exactly status 200 with [success] identical to [true]: for any other
    status, and for a body whose [success] is absent, [false] or a truthy
    value other than [true], the store is left as it was and the caller
    receives the provider's status, with a body that is an object whole
    except with status 401 or 500, whose schema lets through its
    [success] and [message] only. *)
Theorem failed_start_creates_nothing :
  forall (P : Platform) (env : Env) (token : string) (user : User)
         (sid : string) (response : Response) (w : World),
    token <> "" ->
    operator_of token w = Some user ->
    configuration_error env = None ->
    r_status response <> 200
    \/ (nullish (parse_or_raw response) = false
        /\ is_true (member (parse_or_raw response) "success") = false) ->
    let out := call P OpStart env token sid (Some response) w in
    snd out = w
    /\ reaches_caller OpStart (r_status response) (parse_or_raw response) (fst out).
Proof.
  intros P env token user sid response w Htok Hop Hcfg Hfail out. subst out.
  rewrite call_reply, call_world. unfold serve.
  rewrite (relay_authenticated P OpStart env token user sid (Some response) w Htok Hop).
  assert (Hrun : start_handler P env (Some user) sid (Some response) w
                 = (Ok (json_reply (r_status response) (parse_or_raw response)), w)).
  { unfold start_handler. rewrite (relayed_run _ _ _ Hcfg).
    rewrite try_catch_split. cbn [await_fetch]. rewrite bind_ret.
    destruct (Z.eqb_spec (r_status response) 200) as [E | E].
    - destruct Hfail as [Hne | [Hdata Hsuccess]]; [contradiction |].
      unfold prop. rewrite Hdata, bind_assoc, !bind_ret, Hsuccess. reflexivity.
    - rewrite bind_ret. reflexivity. }
  rewrite Hrun. cbn [fst snd]. split; [reflexivity | apply on_wire_reaches].
Qed.

Lemma failed_start_creates_nothing_witness :
  call sample_platform OpStart sample_env "operator-key" "abc123"
    (Some (mkResponse 200 "(success given as a string)"
             (Some (JObj [("success", JStr "true")]))))
    fresh_world
  = (json_reply 200 (JObj [("success", JStr "true")]), fresh_world).
Proof.
  destruct (failed_start_creates_nothing sample_platform sample_env "operator-key"
              (mkUser "user-1") "abc123"
              (mkResponse 200 "(success given as a string)"
                 (Some (JObj [("success", JStr "true")])))
              fresh_world)
    as (Hworld & _ & Hbody).
  - discriminate.
  - reflexivity.
  - reflexivity.
  - right. split; reflexivity.
  - destruct (Hbody _ eq_refl) as (Hwhole & _ & _).
    rewrite (surjective_pairing (call _ _ _ _ _ _ _)), Hworld, Hwhole;
      [reflexivity | discriminate | discriminate | left; discriminate].
Defined.

(** X18.  A provider that answers status 200 with the JSON body [null]: the
    forwarding operations and [qr-image] answer 200, and the caller
    receives the empty object, which is what the schema of status 200,
    of type [object], writes for [null]; [start] and [get-contacts], which
    read [data.success], answer 500 with the connectivity message.  The
    store is unchanged in every case. *)
Theorem null_body_with_status_200 :
  forall (P : Platform) (op : RelayOp) (env : Env) (token : string) (user : User)
         (sid text : string) (w : World),
    token <> "" ->
    operator_of token w = Some user ->
    configuration_error env = None ->
    call P op env token sid (Some (mkResponse 200 text (Some JNull))) w
    = (match op with
       | OpStart | OpGetContacts => connectivity_error
       | _ => json_reply 200 (JObj [])
       end, w).
Proof.
  intros P op env token user sid text w Htok Hop Hcfg.
  unfold call, serve.
  rewrite (relay_authenticated P op env token user sid _ w Htok Hop).
  destruct op;
    unfold start_handler, qr_image_handler, getContacts_handler, passthrough_handler;
    rewrite (relayed_run _ _ _ Hcfg); reflexivity.
Qed.

Lemma null_body_with_status_200_witness :
  call sample_platform OpStart sample_env "operator-key" "abc123"
    (Some (mkResponse 200 "null" (Some JNull))) fresh_world
  = (connectivity_error, fresh_world)
  /\ call sample_platform OpStatus sample_env "operator-key" "abc123"
       (Some (mkResponse 200 "null" (Some JNull))) fresh_world
     = (json_reply 200 (JObj []), fresh_world).
Proof.
  split.
  - apply (null_body_with_status_200 sample_platform OpStart sample_env
             "operator-key" (mkUser "user-1") "abc123" "null" fresh_world).
    + discriminate.
    + reflexivity.
    + reflexivity.
  - apply (null_body_with_status_200 sample_platform OpStatus sample_env
             "operator-key" (mkUser "user-1") "abc123" "null" fresh_world).
    + discriminate.
    + reflexivity.
    + reflexivity.
Defined.

(** X19.  [qr-image] never changes the store.  A JSON answer with a truthy
    [qr] is answered with status 200 and the image [qr.image] renders
    from that payload, whatever status the provider sent ([SendPng] stands
    for the rendering, which is taken to succeed).  A JSON answer without
    one is answered with the provider's status; of a body that is an
    object the caller receives [success] and [qr] only with status 200,
    [success] and [message] only with status 401 or 500, and all of it
    with any other status. *)
Theorem qr_image_renders_or_relays :
  forall (P : Platform) (env : Env) (token : string) (user : User)
         (sid : string) (status : Z) (text : string) (data : jv) (w : World),
    token <> "" ->
    operator_of token w = Some user ->
    configuration_error env = None ->
    let out := call P OpQrImage env token sid
                 (Some (mkResponse status text (Some data))) w in
    snd out = w
    /\ (truthy (opt_member data "qr") = true ->
        fst out = mkReply 200 (SendPng (member data "qr")))
    /\ (truthy (opt_member data "qr") = false ->
        reaches_caller OpQrImage status data (fst out)).
Proof.
  intros P env token user sid status text data w Htok Hop Hcfg out. subst out.
  rewrite call_reply, call_world. unfold serve.
  rewrite (relay_authenticated P OpQrImage env token user sid _ w Htok Hop).
  assert (Hrun : qr_image_handler env (Some (mkResponse status text (Some data))) w
                 = (Ok (if truthy (opt_member data "qr")
                        then mkReply 200 (SendPng (member data "qr"))
                        else json_reply status data), w)).
  { unfold qr_image_handler. rewrite (relayed_run _ _ _ Hcfg).
    unfold try_catch. cbn [await_fetch]. rewrite bind_ret.
    unfold response_json. cbn [r_json r_status]. rewrite bind_ret.
    destruct (truthy (opt_member data "qr")); reflexivity. }
  rewrite Hrun. cbn [fst snd]. split; [reflexivity | split].
  - intros ->. reflexivity.
  - intros ->. apply on_wire_reaches.
Qed.

Lemma qr_image_renders_or_relays_witness :
  fst (call sample_platform OpQrImage sample_env "operator-key" "abc123"
         (Some (mkResponse 404 "(qr in an error answer)"
                  (Some (JObj [("success", JBool false); ("qr", JStr "2@abc")]))))
         ready_world)
  = mkReply 200 (SendPng (JStr "2@abc"))
  /\ exists body,
       fst (call sample_platform OpQrImage sample_env "operator-key" "abc123"
              (Some (mkResponse 200 "(no qr yet)"
                       (Some (JObj [("success", JBool false);
                                    ("message", JStr "not ready")]))))
              ready_world)
       = json_reply 200 (JObj body)
       /\ lookup "success" body = Some (JBool false)
       /\ lookup "message" body = None.
Proof.
  split.
  - destruct (qr_image_renders_or_relays sample_platform sample_env "operator-key"
                (mkUser "user-1") "abc123" 404 "(qr in an error answer)"
                (JObj [("success", JBool false); ("qr", JStr "2@abc")]) ready_world)
      as (_ & Hpng & _).
    + discriminate.
    + reflexivity.
    + reflexivity.
    + apply Hpng. reflexivity.
  - destruct (qr_image_renders_or_relays sample_platform sample_env "operator-key"
                (mkUser "user-1") "abc123" 200 "(no qr yet)"
                (JObj [("success", JBool false); ("message", JStr "not ready")])
                ready_world)
      as (_ & _ & Hjson).
    + discriminate.
    + reflexivity.
    + reflexivity.
    + destruct (Hjson eq_refl) as (_ & Hbody).
      destruct (Hbody _ eq_refl) as (_ & _ & Hclosed).
      destruct (Hclosed eq_refl eq_refl) as (body & Hreply & Hkeys & _ & Htyped).
      exists body. split; [exact Hreply | split].
      * apply (Htyped "success" TBoolean);
          [left; reflexivity | reflexivity | reflexivity].
      * apply Hkeys. cbn. intuition discriminate.
Defined.

Section RelayWorlds.

Variable P : Platform.

Lemma forwarding_world (env : Env) (net : option Response) (w : World) :
  snd (passthrough_handler env net w) = w.
Proof.
  unfold passthrough_handler, relayed. destruct (configuration_error env); [reflexivity |].
  destruct net; reflexivity.
Qed.

Lemma qr_image_world (env : Env) (net : option Response) (w : World) :
  snd (qr_image_handler env net w) = w.
Proof.
  unfold qr_image_handler, relayed. destruct (configuration_error env); [reflexivity |].
  destruct net as [[status text [data |]] |]; try reflexivity.
  unfold try_catch. cbn [await_fetch]. rewrite bind_ret.
  unfold response_json. cbn [r_json]. rewrite bind_ret.
  destruct (truthy (opt_member data "qr")); reflexivity.
Qed.

(** The store after a start: as before, or as [createDevice] leaves it. *)
Lemma start_world_cases (env : Env) (user : User) (sid : string)
  (net : option Response) (w : World) :
  snd (start_handler P env (Some user) sid net w) = w
  \/ snd (start_handler P env (Some user) sid net w)
     = snd (createDevice P sid (u_id user) "" "connecting" w).
Proof.
  unfold start_handler, relayed. destruct (configuration_error env); [left; reflexivity |].
  destruct net as [response |]; [| left; reflexivity].
  rewrite try_catch_split. cbn [await_fetch]. rewrite bind_ret.
  destruct (r_status response =? 200).
  - unfold prop. destruct (nullish (parse_or_raw response)); [left; reflexivity |].
    rewrite bind_assoc, !bind_ret.
    destruct (is_true (member (parse_or_raw response) "success")).
    + destruct (negb (u_id user =? "")%string) eqn:Huid.
      * right. rewrite bind_split, swallow_ok.
        rewrite swallow_snd. reflexivity.
      * left. reflexivity.
    + left. reflexivity.
  - left. rewrite bind_ret. reflexivity.
Qed.

Lemma sync_contacts_world (sid : string) (data : jv) (w : World) :
  snd (sync_contacts P sid data w) = w
  \/ exists d, find_device sid (devices w) = Some d
               /\ (0 < List.length (extract_contacts data))%nat
               /\ snd (sync_contacts P sid data w)
                  = snd (saveContacts P (d_key d) (extract_contacts data) w).
Proof.
  unfold sync_contacts. rewrite try_catch_split, bind_split.
  rewrite getDeviceBySessionId_result, getDeviceBySessionId_pure.
  destruct (find_device sid (devices w)) as [d |]; [| left; reflexivity].
  cbv zeta. destruct (0 <? List.length (extract_contacts data))%nat eqn:Hlen;
    [| left; reflexivity].
  right. exists d. split; [reflexivity | split; [apply Nat.ltb_lt; exact Hlen |]].
  rewrite bind_split.
  destruct (fst (saveContacts P (d_key d) (extract_contacts data) w)); reflexivity.
Qed.

(** The store after a get-contacts: as before, or as the synchronization
    of the answer leaves it. *)
Lemma getContacts_world_cases (env : Env) (sid : string) (net : option Response)
  (w : World) :
  snd (getContacts_handler P env sid net w) = w
  \/ exists response,
       net = Some response
       /\ snd (getContacts_handler P env sid net w)
          = snd (sync_contacts P sid (parse_or_raw response) w).
Proof.
  unfold getContacts_handler, relayed.
  destruct (configuration_error env); [left; reflexivity |].
  destruct net as [response |]; [| left; reflexivity].
  rewrite try_catch_split. cbn [await_fetch]. rewrite bind_ret.
  destruct (r_status response =? 200).
  - unfold prop. destruct (nullish (parse_or_raw response)); [left; reflexivity |].
    rewrite bind_assoc, !bind_ret.
    destruct (_ && _).
    + right. exists response. split; [reflexivity |].
      rewrite bind_split, sync_contacts_ok. reflexivity.
    + left. reflexivity.
  - left. rewrite bind_ret. reflexivity.
Qed.

End RelayWorlds.

(** X20.  A get-contacts relay for a session that has no device changes nothing
    in the store, whatever the provider answers. *)
Theorem getContacts_without_device_changes_nothing :
  forall (P : Platform) (env : Env) (token : string) (user : User)
         (sid : string) (net : option Response) (w : World),
    token <> "" ->
    operator_of token w = Some user ->
    find_device sid (devices w) = None ->
    snd (call P OpGetContacts env token sid net w) = w.
Proof.
  intros P env token user sid net w Htok Hop Hnone.
  assert (Hworld : snd (getContacts_handler P env sid net w) = w).
  { destruct (getContacts_world_cases P env sid net w)
      as [Hw | (response & _ & Hw)]; [exact Hw |].
    rewrite Hw.
    destruct (sync_contacts_world P sid (parse_or_raw response) w)
      as [Hs | (d & Hd & _)]; [exact Hs | congruence]. }
  unfold call, serve.
  rewrite (relay_authenticated P OpGetContacts env token user sid net w Htok Hop).
  destruct (getContacts_handler P env sid net w) as [[r | e] w'];
    cbn [snd] in *; exact Hworld.
Qed.

Lemma getContacts_without_device_changes_nothing_witness :
  snd (call sample_platform OpGetContacts sample_env "operator-key" "abc123"
         (Some contacts_response) fresh_world)
  = fresh_world.
Proof.
  apply (getContacts_without_device_changes_nothing sample_platform sample_env
           "operator-key" (mkUser "user-1") "abc123" (Some contacts_response)
           fresh_world).
  - discriminate.
  - reflexivity.
  - reflexivity.
Defined.

(** *** The synchronization behind a get-contacts *)

Section SyncContacts.

Variable P : Platform.
Variable deviceKey : string.

Lemma has_contact_rows (cid : string) (w w' : World) :
  contacts w' = contacts w -> has_contact cid deviceKey w -> has_contact cid deviceKey w'.
Proof. unfold has_contact. intros ->. auto. Qed.

(** A later [saveContact] under the same device key takes no contact away
    from the device. *)
Lemma saveContact_has_preserved (cid : string) (contactData : jv) (w : World) :
  has_contact cid deviceKey w ->
  has_contact cid deviceKey (snd (saveContact P deviceKey contactData w)).
Proof.
  intros Hhas. destruct (nullish contactData) eqn:Hc.
  - rewrite saveContact_nullish by exact Hc.
    apply (has_contact_rows cid w); [reflexivity | exact Hhas].
  - rewrite saveContact_run by exact Hc. cbv zeta.
    destruct (contact_ok P _);
      [| apply (has_contact_rows cid w); [reflexivity | exact Hhas]].
    destruct Hhas as (row & Hin & Hid & Hkey).
    destruct (find_contact _ (contacts w)); cbn [snd].
    + exists (set_fields (contact_id_in P contactData w)
                (contact_fields_in P deviceKey contactData w) row).
      cbn [contacts with_contacts]. split; [apply List.in_map; exact Hin |].
      unfold set_fields.
      destruct (c_contactId row =? contact_id_in P contactData w)%string;
        cbn [c_contactId c_fields]; split; try assumption; reflexivity.
    + exists row. cbn [contacts with_contacts].
      split; [apply List.in_or_app; left; exact Hin | split; assumption].
Qed.

(** An accepted [saveContact] leaves the contact under the device key. *)
Lemma saveContact_has_new (contactData : jv) (w : World) :
  nullish contactData = false ->
  contact_ok P (contact_fields_in P deviceKey contactData w) = true ->
  has_contact (contact_id_in P contactData w) deviceKey
              (snd (saveContact P deviceKey contactData w)).
Proof.
  intros Hc Hok. rewrite saveContact_run by exact Hc. cbv zeta. rewrite Hok.
  destruct (find_contact _ (contacts w)) as [existing |] eqn:Hfind; cbn [snd].
  - destruct (find_contact_In _ _ _ Hfind) as [Hin Hid].
    exists (set_fields (contact_id_in P contactData w)
              (contact_fields_in P deviceKey contactData w) existing).
    cbn [contacts with_contacts]. split; [apply List.in_map; exact Hin |].
    unfold set_fields. rewrite Hid, String.eqb_refl. cbn [c_contactId c_fields].
    split; reflexivity.
  - eexists. cbn [contacts with_contacts].
    split; [apply List.in_or_app; right; left; reflexivity |].
    split; reflexivity.
Qed.

Lemma saveContacts_step_has_preserved (cid : string) (results : list Contact)
  (contact : jv) (w : World) :
  has_contact cid deviceKey w ->
  has_contact cid deviceKey (snd (saveContacts_step P deviceKey results contact w)).
Proof.
  intros Hhas. destruct (is_user_contact contact) eqn:Huser.
  - rewrite saveContacts_step_saves by exact Huser.
    destruct (fst (saveContact P deviceKey contact w)); cbn [snd];
      apply saveContact_has_preserved; exact Hhas.
  - rewrite saveContacts_step_skips by exact Huser. exact Hhas.
Qed.

Lemma saveContacts_from_has_preserved (cid : string) (contactsData : list jv) :
  forall (results : list Contact) (w : World),
    has_contact cid deviceKey w ->
    has_contact cid deviceKey
      (snd (saveContacts_from P deviceKey results contactsData w)).
Proof.
  induction contactsData as [| contact rest IH]; intros results w Hhas.
  - exact Hhas.
  - cbn [saveContacts_from]. rewrite bind_split.
    destruct (saveContacts_step_ok P deviceKey results contact w) as (r1 & Hr1 & _).
    rewrite Hr1. apply IH, saveContacts_step_has_preserved, Hhas.
Qed.

(** After the loop a user contact that Prisma accepts is in the table,
    under the device key, whatever happened to the other entries. *)
Lemma saveContacts_from_has (contactsData : list jv) :
  forall (results : list Contact) (w : World) (c : jv),
    In c contactsData ->
    is_user_contact c = true ->
    (forall w0, contact_ok P (contact_fields_in P deviceKey c w0) = true) ->
    has_contact (spec_contact_identity c) deviceKey
      (snd (saveContacts_from P deviceKey results contactsData w)).
Proof.
  induction contactsData as [| contact rest IH]; intros results w c Hin Huser Hok.
  - destruct Hin.
  - cbn [saveContacts_from]. rewrite bind_split.
    destruct (saveContacts_step_ok P deviceKey results contact w) as (r1 & Hr1 & _).
    rewrite Hr1. destruct Hin as [-> | Hin].
    + apply saveContacts_from_has_preserved.
      rewrite saveContacts_step_saves by exact Huser.
      rewrite <- (user_contact_id P c w Huser).
      assert (Hnew : has_contact (contact_id_in P c w) deviceKey
                       (snd (saveContact P deviceKey c w))).
      { apply saveContact_has_new;
          [apply user_contact_not_nullish; exact Huser | apply Hok]. }
      destruct (fst (saveContact P deviceKey c w)); exact Hnew.
    + apply IH; assumption.
Qed.

End SyncContacts.

Lemma extract_contacts_success (data : jv) (c : jv) :
  In c (extract_contacts data) ->
  nullish data = false /\ isArray data || (truthy data && typeof_object data) = true.
Proof.
  destruct data as [| | b | z | s | l | fields]; cbn; intros H;
    rewrite ?andb_false_r in H; try contradiction; split; reflexivity.
Qed.

(** What a successful get-contacts with a device does to the store. *)
Lemma getContacts_world_synced (P : Platform) (env : Env) (sid : string)
  (response : Response) (c : jv) (d : Device) (w : World) :
  configuration_error env = None ->
  r_status response = 200 ->
  In c (extract_contacts (parse_or_raw response)) ->
  sid <> "" ->
  find_device sid (devices w) = Some d ->
  snd (getContacts_handler P env sid (Some response) w)
  = snd (saveContacts P (d_key d) (extract_contacts (parse_or_raw response)) w).
Proof.
  intros Hcfg Hstatus Hin Hsid Hdev.
  destruct (extract_contacts_success _ _ Hin) as [Hdata Hsucc].
  unfold getContacts_handler. rewrite (relayed_run _ _ _ Hcfg).
  rewrite try_catch_split. cbn [await_fetch]. rewrite bind_ret.
  rewrite Hstatus. cbn [Z.eqb Pos.eqb]. unfold prop. rewrite Hdata.
  rewrite bind_assoc, !bind_ret. rewrite <- orb_assoc, Hsucc, orb_true_r.
  destruct (String.eqb_spec sid "") as [E | _]; [contradiction |].
  cbn [negb andb]. rewrite bind_split, sync_contacts_ok. cbn [fst snd ret].
  unfold sync_contacts. rewrite try_catch_split, bind_split.
  rewrite getDeviceBySessionId_result, getDeviceBySessionId_pure, Hdev.
  cbv zeta.
  destruct (extract_contacts (parse_or_raw response)) as [| c0 rest];
    [destruct Hin |].
  cbn [List.length Nat.ltb Nat.leb]. rewrite bind_split.
  destruct (fst (saveContacts P (d_key d) (c0 :: rest) w)); reflexivity.
Qed.

(** X21.  A successful get-contacts for a session that has a device
    stores the contacts of the provider's answer, not the ten entries the
    caller is shown: afterwards every entry the synchronization takes from
    the answer whose identity carries the user suffix, and whose columns
    Prisma accepts, is a row of the table under the key of the device,
    whatever the other entries are and whether Prisma accepts them. *)
Theorem getContacts_stores_the_whole_array :
  forall (P : Platform) (env : Env) (token : string) (user : User)
         (sid : string) (response : Response) (w : World) (d : Device) (c : jv),
    token <> "" ->
    operator_of token w = Some user ->
    configuration_error env = None ->
    r_status response = 200 ->
    sid <> "" ->
    find_device sid (devices w) = Some d ->
    In c (extract_contacts (parse_or_raw response)) ->
    is_user_contact c = true ->
    (forall w0, contact_ok P (contact_fields_in P (d_key d) c w0) = true) ->
    has_contact (spec_contact_identity c) (d_key d)
      (snd (call P OpGetContacts env token sid (Some response) w)).
Proof.
  intros P env token user sid response w d c
         Htok Hop Hcfg Hstatus Hsid Hdev Hin Huser Hok.
  pose proof (getContacts_world_synced P env sid response c d w
                Hcfg Hstatus Hin Hsid Hdev) as Hworld.
  assert (Hhas : has_contact (spec_contact_identity c) (d_key d)
                   (snd (getContacts_handler P env sid (Some response) w))).
  { rewrite Hworld. unfold saveContacts.
    apply saveContacts_from_has; assumption. }
  rewrite call_world. unfold serve.
  rewrite (relay_authenticated P OpGetContacts env token user sid (Some response) w
             Htok Hop).
  destruct (getContacts_handler P env sid (Some response) w) as [[r | e] w'];
    cbn [snd] in *; exact Hhas.
Qed.

Lemma getContacts_stores_the_whole_array_witness :
  let refused := JObj [("id", JObj [("_serialized", JStr "99@c.us")]);
                       ("isBusiness", JStr "yes")] in
  let answer := mkResponse 200 "(thirteen contacts, one refused)"
                  (Some (JObj [("success", JBool true);
                               ("contacts", JArr (refused :: twelve_contacts))])) in
  contact_ok sample_platform (contactRecord "K3Y00001" refused 0) = false
  /\ has_contact "12@c.us" "K3Y00001"
       (snd (call sample_platform OpGetContacts sample_env "operator-key" "abc123"
               (Some answer) ready_world)).
Proof.
  intros refused answer. split; [reflexivity |].
  refine (getContacts_stores_the_whole_array sample_platform sample_env
            "operator-key" (mkUser "user-1") "abc123" answer ready_world
            (mkDevice "uuid-dev" "K3Y00001" "abc123" "" "ready" "user-1" 1700000000)
            (numbered_contact 12) _ _ _ _ _ _ _ _ _).
  - discriminate.
  - reflexivity.
  - reflexivity.
  - reflexivity.
  - discriminate.
  - reflexivity.
  - cbn. do 12 right. left. reflexivity.
  - reflexivity.
  - intros w0. reflexivity.
Defined.

Lemma verifyDeviceOwnership_result (sid who : string) (w : World) :
  fst (verifyDeviceOwnership sid who w)
  = Ok (match find_device sid (devices w) with
        | Some device => JBool (d_userId device =? who)%string
        | None => JNull
        end).
Proof. reflexivity. Qed.

Lemma devices_iter_bump (n : nat) (w : World) : devices (Nat.iter n bump w) = devices w.
Proof. induction n as [| n IH]; [reflexivity | exact IH]. Qed.

(** X22.  [verifyDeviceOwnership] around a start.  Before the first successful
    start of a session it answers [null], not [false], for every user;
    after it, [true] for the operator whose key started the session and
    [false] for every other user, and its answer for every other session
    is as before. *)
Theorem start_makes_the_operator_owner :
  forall (P : Platform) (env : Env) (token : string) (user : User)
         (sid : string) (response : Response) (w : World),
    token <> "" ->
    operator_of token w = Some user ->
    u_id user <> "" ->
    configuration_error env = None ->
    r_status response = 200 ->
    member (parse_or_raw response) "success" = JBool true ->
    find_device sid (devices w) = None ->
    (forall d, In d (devices w) -> d_key d <> drawn_key P w) ->
    let w' := snd (call P OpStart env token sid (Some response) w) in
    (forall who, fst (verifyDeviceOwnership sid who w) = Ok JNull)
    /\ fst (verifyDeviceOwnership sid (u_id user) w') = Ok (JBool true)
    /\ (forall other, other <> u_id user ->
          fst (verifyDeviceOwnership sid other w') = Ok (JBool false))
    /\ (forall sid' who, sid' <> sid ->
          fst (verifyDeviceOwnership sid' who w')
          = fst (verifyDeviceOwnership sid' who w)).
Proof.
  intros P env token user sid response w Htok Hop Huid Hcfg Hstatus Hsuccess
         Hnone Hfresh w'.
  assert (Hdevices :
            devices w'
            = (devices w
               ++ [mkDevice (uuid_at P (8 + tick w)) (drawn_key P w) sid ""
                            "connecting" (u_id user) (now_at P (9 + tick w))])%list).
  { subst w'. unfold call, serve.
    rewrite (relay_authenticated P OpStart env token user sid (Some response) w
               Htok Hop).
    pose proof (start_world P env user sid response w Hcfg Hstatus Hsuccess Huid)
      as Hworld.
    destruct (start_handler P env (Some user) sid (Some response) w) as [[r | e] w1];
      cbn [snd] in *; rewrite Hworld, createDevice_run; cbv zeta;
      rewrite (existsb_device_fresh _ _ _ Hnone Hfresh); reflexivity. }
  set (row := mkDevice (uuid_at P (8 + tick w)) (drawn_key P w) sid ""
                       "connecting" (u_id user) (now_at P (9 + tick w))) in *.
  assert (Hfind : find_device sid (devices w') = Some row).
  { rewrite Hdevices. apply find_device_app_new; [exact Hnone | reflexivity]. }
  split; [| split; [| split]].
  - intros who. rewrite verifyDeviceOwnership_result, Hnone. reflexivity.
  - rewrite verifyDeviceOwnership_result, Hfind.
    cbn [d_userId row]. rewrite String.eqb_refl. reflexivity.
  - intros other Hother. rewrite verifyDeviceOwnership_result, Hfind.
    cbn [d_userId row].
    destruct (String.eqb_spec (u_id user) other); [congruence | reflexivity].
  - intros sid' who Hne. rewrite !verifyDeviceOwnership_result, Hdevices.
    rewrite find_device_app_other; [reflexivity | cbn; congruence].
Qed.

Lemma start_makes_the_operator_owner_witness :
  let w' := snd (call sample_platform OpStart sample_env "operator-key" "abc123"
                   (Some success_response) fresh_world) in
  fst (verifyDeviceOwnership "abc123" "user-2" fresh_world) = Ok JNull
  /\ fst (verifyDeviceOwnership "abc123" "user-1" w') = Ok (JBool true)
  /\ fst (verifyDeviceOwnership "abc123" "user-2" w') = Ok (JBool false).
Proof.
  destruct (start_makes_the_operator_owner sample_platform sample_env "operator-key"
              (mkUser "user-1") "abc123" success_response fresh_world)
    as (Hbefore & Hown & Hother & _).
  - discriminate.
  - reflexivity.
  - discriminate.
  - reflexivity.
  - reflexivity.
  - reflexivity.
  - reflexivity.
  - intros d [].
  - split; [apply Hbefore | split; [exact Hown | apply Hother; discriminate]].
Defined.

(** *** The unique constraints of the store *)

Lemma serve_world (handler : M Reply) (w : World) :
  snd (serve handler w) = snd (handler w).
Proof. unfold serve. destruct (handler w) as [[r | e] w']; reflexivity. Qed.

Lemma deliver_identities (P : Platform) (env : Env) (apiKey : option string)
  (body : jv) (w : World) :
  List.map device_identity (devices (snd (deliver P env apiKey body w)))
  = List.map device_identity (devices w).
Proof.
  unfold deliver. rewrite serve_world.
  destruct (strict_eq apiKey (WHATSAPP_WEBHOOK_AUTH env)) eqn:Hauth;
    [| rewrite (webhook_unauthorized P env apiKey body w Hauth); reflexivity].
  destruct (nullish body) eqn:Hbody.
  - unfold webhook_handler. rewrite Hauth. cbn [negb].
    rewrite bind_split. unfold prop. rewrite Hbody. reflexivity.
  - rewrite (webhook_authorized P env apiKey body w Hauth Hbody). cbv zeta.
    destruct (fst (webhook_log_switch _ _ _)) as [[] | e]; cbn [snd];
      rewrite ?save_message_devices, (status_update_identities P); reflexivity.
Qed.

Lemma identities_session_ids (ds ds' : list Device) :
  List.map device_identity ds' = List.map device_identity ds ->
  List.map d_sessionId ds' = List.map d_sessionId ds
  /\ List.map d_key ds' = List.map d_key ds.
Proof.
  intros H. split.
  - apply (f_equal (List.map (fun i => snd (fst (fst i))))) in H.
    rewrite !List.map_map in H. exact H.
  - apply (f_equal (List.map (fun i => snd (fst (fst (fst i)))))) in H.
    rewrite !List.map_map in H. exact H.
Qed.

Lemma contacts_iter_bump (n : nat) (w : World) :
  contacts (Nat.iter n bump w) = contacts w.
Proof. induction n as [| n IH]; [reflexivity | exact IH]. Qed.

(** [createDevice] keeps the unique constraints: it adds a row only when
    neither its [sessionId] nor its key is in the table. *)
Lemma createDevice_constraints (P : Platform) (sessionId userId number status : string)
  (w : World) :
  store_constraints w ->
  store_constraints (snd (createDevice P sessionId userId number status w)).
Proof.
  intros (Hsid & Hkey & Hcid). split; [apply createDevice_unique; exact Hsid |].
  rewrite createDevice_run. cbv zeta.
  destruct (List.existsb _ (devices w)) eqn:Hex; cbn [snd];
    unfold device_keys, contact_ids in *; cbn [devices contacts with_devices];
    rewrite ?devices_iter_bump, ?contacts_iter_bump.
  - split; assumption.
  - split; [| exact Hcid].
    rewrite List.map_app. apply NoDup_snoc; [exact Hkey |].
    cbn [List.map d_key]. intros Hin.
    apply List.in_map_iff in Hin. destruct Hin as (d & Hd & Hin).
    assert (Htrue : List.existsb
                      (fun d => (d_sessionId d =? sessionId)%string
                                || (d_key d =? drawn_key P w)%string)
                      (devices w) = true).
    { apply List.existsb_exists. exists d. split; [exact Hin |].
      rewrite Hd, String.eqb_refl. apply orb_true_r. }
    congruence.
Qed.

Lemma saveContacts_constraints (P : Platform) (deviceKey : string)
  (contactsData : list jv) (w : World) :
  store_constraints w ->
  store_constraints (snd (saveContacts P deviceKey contactsData w)).
Proof.
  intros (Hsid & Hkey & Hcid). unfold store_constraints, session_ids, device_keys.
  unfold saveContacts.
  rewrite (saveContacts_from_blind P deviceKey devices contactsData
             (fun _ => eq_refl) (fun _ _ => eq_refl) [] w).
  repeat split; try assumption. apply saveContacts_unique. exact Hcid.
Qed.

(** What a relay call can do to the store: nothing, one [createDevice] for
    the session and the operator, or one [saveContacts] under the key of
    the session's device. *)
Lemma call_world_cases (P : Platform) (op : RelayOp) (env : Env)
  (token sid : string) (net : option Response) (w : World) :
  snd (call P op env token sid net w) = w
  \/ (exists user, snd (call P op env token sid net w)
                   = snd (createDevice P sid (u_id user) "" "connecting" w))
  \/ (exists d items, snd (call P op env token sid net w)
                      = snd (saveContacts P (d_key d) items w)).
Proof.
  rewrite !call_world, !serve_world.
  destruct (String.eqb_spec token "") as [-> | Htok]; [left; reflexivity |].
  destruct (operator_of token w) as [user |] eqn:Hop.
  - rewrite (relay_authenticated P op env token user sid net w Htok Hop).
    destruct op; try (left; apply forwarding_world).
    + destruct (start_world_cases P env user sid net w) as [H | H];
        [left; exact H | right; left; exists user; exact H].
    + left. apply qr_image_world.
    + destruct (getContacts_world_cases P env sid net w)
        as [H | (response & _ & H)]; [left; exact H |].
      destruct (sync_contacts_world P sid (parse_or_raw response) w)
        as [Hs | (d & _ & _ & Hs)].
      * left. congruence.
      * right. right. exists d, (extract_contacts (parse_or_raw response)). congruence.
  - left. unfold relay. rewrite bind_split.
    rewrite (apiKeyAuth_unknown token w Htok Hop). reflexivity.
Qed.

(** X23.  The unique constraints of the store, [sessionId] and [key] of the
    devices and [contactId] of the contacts, are kept by every webhook
    delivery and by every relay call, whatever the request, the
    environment and the provider's answer. *)
Theorem requests_keep_the_unique_constraints :
  forall (P : Platform) (env : Env) (w : World),
    store_constraints w ->
    (forall (apiKey : option string) (body : jv),
        store_constraints (snd (deliver P env apiKey body w)))
    /\ (forall (op : RelayOp) (token sid : string) (net : option Response),
          store_constraints (snd (call P op env token sid net w))).
Proof.
  intros P env w Hw. split.
  - intros apiKey body. destruct Hw as (Hsid & Hkey & Hcid).
    destruct (identities_session_ids _ _ (deliver_identities P env apiKey body w))
      as [Es Ek].
    unfold store_constraints, session_ids, device_keys, contact_ids in *.
    rewrite Es, Ek.
    rewrite (blind_deliver (X := list Contact) contacts
               (fun _ => eq_refl) (fun _ _ => eq_refl) (fun _ _ => eq_refl)
               (fun _ _ => eq_refl) P env apiKey body w).
    repeat split; assumption.
  - intros op token sid net.
    destruct (call_world_cases P op env token sid net w)
      as [H | [(user & H) | (d & items & H)]]; rewrite H.
    + exact Hw.
    + apply createDevice_constraints. exact Hw.
    + apply saveContacts_constraints. exact Hw.
Qed.

Lemma requests_keep_the_unique_constraints_witness :
  store_constraints
    (snd (call sample_platform OpStart sample_env "operator-key" "abc123"
            (Some success_response) ready_world)).
Proof.
  apply (requests_keep_the_unique_constraints sample_platform sample_env ready_world).
  repeat split; cbn; repeat constructor; intros [].
Defined.

(* ------------------------------------------------------------------------- *)
(** ** Further properties: tokens and passwords                               *)
(* ------------------------------------------------------------------------- *)

Lemma charAt_charset (i : nat) :
  (i < 70)%nat ->
  exists c, charAt charset i = String c EmptyString /\ in_charset c = true.
Proof.
  intros Hi.
  do 70 (destruct i as [| i]; [eexists; split; reflexivity |]).
  lia.
Qed.

Lemma generateRandomPassword_loop_shape (P : Platform) (n : nat) :
  forall (password : string) (w : World),
  exists result,
    fst (generateRandomPassword_loop P n password w) = Ok result
    /\ String.length result = (String.length password + n)%nat
    /\ (string_forall in_charset password = true ->
        string_forall in_charset result = true).
Proof.
  induction n as [| n IH]; intros password w.
  - exists password. cbn. split; [reflexivity | split; [lia | auto]].
  - cbn [generateRandomPassword_loop]. unfold bind at 1, random_index at 1.
    change (String.length charset) with 70%nat.
    destruct (charAt_charset (random_at P (tick w) mod 70))
      as (c & Hc & Hin); [apply Nat.mod_upper_bound; discriminate |].
    destruct (IH (password ++ charAt charset (random_at P (tick w) mod 70))%string
                 (bump w))
      as (result & Hrun & Hlen & Hall).
    exists result. split; [exact Hrun | split].
    + rewrite Hlen, string_length_app, Hc. cbn. lia.
    + intros Hres. apply Hall. rewrite string_forall_app, Hres, Hc.
      cbn [string_forall andb]. rewrite Hin. reflexivity.
Qed.

(** X24.  [generateRandomPassword(length)] returns exactly [length] characters,
    each one of the seventy of its character set, whatever [Math.random]
    draws; for [length] zero it returns the empty string. *)
Theorem generateRandomPassword_shape :
  forall (P : Platform) (length : nat) (w : World),
  exists password,
    fst (generateRandomPassword P length w) = Ok password
    /\ String.length password = length
    /\ string_forall in_charset password = true.
Proof.
  intros P length w.
  destruct (generateRandomPassword_loop_shape P length "" w)
    as (password & Hrun & Hlen & Hall).
  exists password. split; [exact Hrun | split; [exact Hlen | apply Hall; reflexivity]].
Qed.

(** *** The token of a request and the blacklist *)

Lemma substring_whole (s : string) : String.substring 0 (String.length s) s = s.
Proof. induction s as [| c s IH]; cbn; [reflexivity | rewrite IH; reflexivity]. Qed.

Lemma extract_bearer (url t : string) (cookie : option string) :
  extractTokenFromRequest (mkRequest url (Some ("Bearer " ++ t)%string) cookie)
  = Some t.
Proof.
  unfold extractTokenFromRequest. cbn [req_authorization req_cookie_token].
  change (("Bearer " ++ t)%string =? "")%string with false.
  replace (String.prefix "Bearer " ("Bearer " ++ t)) with true
    by (symmetry; apply prefix_app).
  cbn [negb andb]. f_equal.
  change (String.length ("Bearer " ++ t)%string) with (7 + String.length t)%nat.
  replace (7 + String.length t - 7)%nat with (String.length t) by lia.
  change (String.substring 7 (String.length t) ("Bearer " ++ t)%string)
    with (String.substring 0 (String.length t) t).
  apply substring_whole.
Qed.

Lemma isBlacklisted_In (token : string) (s : TokenBlacklist.t) :
  TokenBlacklist.isBlacklisted token s = true <-> In token s.
Proof.
  unfold TokenBlacklist.isBlacklisted. rewrite List.existsb_exists. split.
  - intros (x & Hin & Heq). apply String.eqb_eq in Heq. subst x. exact Hin.
  - intros Hin. exists token. split; [exact Hin | apply String.eqb_refl].
Qed.

Lemma isBlacklisted_add_same (token : string) (s : TokenBlacklist.t) :
  TokenBlacklist.isBlacklisted token (TokenBlacklist.add token s) = true.
Proof.
  unfold TokenBlacklist.add.
  destruct (TokenBlacklist.isBlacklisted token s) eqn:H; [exact H |].
  apply isBlacklisted_In, List.in_or_app. right. left. reflexivity.
Qed.

Lemma isBlacklisted_add_other (token other : string) (s : TokenBlacklist.t) :
  other <> token ->
  TokenBlacklist.isBlacklisted other (TokenBlacklist.add token s)
  = TokenBlacklist.isBlacklisted other s.
Proof.
  intros Hne. unfold TokenBlacklist.add.
  destruct (TokenBlacklist.isBlacklisted token s); [reflexivity |].
  unfold TokenBlacklist.isBlacklisted. rewrite List.existsb_app.
  cbn [List.existsb]. destruct (String.eqb_spec other token); [contradiction |].
  rewrite !orb_false_r. reflexivity.
Qed.

Lemma isBlacklisted_remove (token other : string) (s : TokenBlacklist.t) :
  TokenBlacklist.isBlacklisted other (TokenBlacklist.remove token s)
  = negb (other =? token)%string && TokenBlacklist.isBlacklisted other s.
Proof.
  unfold TokenBlacklist.isBlacklisted, TokenBlacklist.remove.
  induction s as [| x s IH]; cbn [List.filter List.existsb].
  - rewrite andb_false_r. reflexivity.
  - destruct (String.eqb_spec x token) as [-> | Hx]; cbn [negb List.existsb].
    + rewrite IH. destruct (String.eqb_spec other token); reflexivity.
    + rewrite IH. destruct (String.eqb_spec other x) as [-> | Ho].
      * destruct (String.eqb_spec x token); [contradiction | reflexivity].
      * cbn [orb]. reflexivity.
Qed.

(** X25.  The blacklist is a set of tokens: a token is listed after [add] and
    not after [remove], a second [add] changes nothing, neither operation
    changes whether another token is listed, and nothing is listed after
    [clear]. *)
Theorem blacklist_add_remove :
  forall (token : string) (s : TokenBlacklist.t),
    TokenBlacklist.isBlacklisted token (TokenBlacklist.add token s) = true
    /\ TokenBlacklist.isBlacklisted token (TokenBlacklist.remove token s) = false
    /\ TokenBlacklist.add token (TokenBlacklist.add token s) = TokenBlacklist.add token s
    /\ (forall other, other <> token ->
          TokenBlacklist.isBlacklisted other (TokenBlacklist.add token s)
          = TokenBlacklist.isBlacklisted other s
          /\ TokenBlacklist.isBlacklisted other (TokenBlacklist.remove token s)
             = TokenBlacklist.isBlacklisted other s)
    /\ (forall any, TokenBlacklist.isBlacklisted any (TokenBlacklist.clear s) = false).
Proof.
  intros token s. split; [apply isBlacklisted_add_same | split; [| split; [| split]]].
  - rewrite isBlacklisted_remove, String.eqb_refl. reflexivity.
  - unfold TokenBlacklist.add at 1. rewrite isBlacklisted_add_same. reflexivity.
  - intros other Hne. split; [apply isBlacklisted_add_other; exact Hne |].
    rewrite isBlacklisted_remove.
    destruct (String.eqb_spec other token); [contradiction | reflexivity].
  - reflexivity.
Qed.

Lemma blacklist_add_remove_witness :
  TokenBlacklist.isBlacklisted "t2"
    (TokenBlacklist.remove "t1" (TokenBlacklist.add "t1" ["t2"]))
  = true.
Proof.
  destruct (blacklist_add_remove "t1" ["t2"]) as (_ & _ & _ & Hother & _).
  destruct (blacklist_add_remove "t1" (TokenBlacklist.add "t1" ["t2"]))
    as (_ & _ & _ & Hother' & _).
  destruct (Hother "t2") as [Hadd _]; [discriminate |].
  destruct (Hother' "t2") as [_ Hrem]; [discriminate |].
  rewrite Hrem, Hadd. reflexivity.
Defined.



(** X27.  An [Authorization] header that starts with [Bearer ] decides
    alone: the token of the request is the rest of the header, which is
    not empty since a header value arrives without whitespace at its end,
    and the cookie is not looked at.  So the hook lets a request through
    whose header token is not blacklisted, although its cookie carries a
    blacklisted token; the cookie counts only when there is no such
    header. *)
Theorem bearer_header_shadows_cookie :
  forall (blacklist : TokenBlacklist.t) (url t : string) (cookie : option string),
    header_value ("Bearer " ++ t) = true ->
    t <> ""
    /\ extractTokenFromRequest (mkRequest url (Some ("Bearer " ++ t)%string) cookie)
       = Some t
    /\ (TokenBlacklist.isBlacklisted t blacklist = false ->
        blacklist_hook blacklist (mkRequest url (Some ("Bearer " ++ t)%string) cookie)
        = None)
    /\ (forall (header : option string) (c : string),
          match header with
          | Some h => String.prefix "Bearer " h = false
          | None => True
          end ->
          c <> "" ->
          extractTokenFromRequest (mkRequest url header (Some c)) = Some c).
Proof.
  intros blacklist url t cookie Hvalue.
  split; [intros ->; discriminate | split; [apply extract_bearer | split]].
  - intros H. unfold blacklist_hook. rewrite extract_bearer.
    destruct (_ || _); [reflexivity |].
    rewrite H, andb_false_r. reflexivity.
  - intros header c Hheader Hc. unfold extractTokenFromRequest.
    cbn [req_authorization req_cookie_token].
    destruct (String.eqb_spec c ""); [contradiction |]. cbn [negb].
    destruct header as [h |]; [| reflexivity].
    rewrite Hheader, andb_false_r. reflexivity.
Qed.

Lemma bearer_header_shadows_cookie_witness :
  blacklist_hook ["jwt-1"]
    (mkRequest "/users/me" (Some "Bearer jwt-2") (Some "jwt-1")) = None
  /\ extractTokenFromRequest (mkRequest "/users/me" (Some "Bearer") (Some "jwt-1"))
     = Some "jwt-1"
  /\ blacklist_hook ["jwt-1"] (mkRequest "/users/me" (Some "Bearer") (Some "jwt-1"))
     = Some token_invalidated.
Proof.
  destruct (bearer_header_shadows_cookie ["jwt-1"] "/users/me" "jwt-2" (Some "jwt-1"))
    as (_ & _ & Hpass & Hcookie).
  - reflexivity.
  - split; [apply Hpass; reflexivity | split; [| reflexivity]].
    apply (Hcookie (Some "Bearer") "jwt-1"); [reflexivity | discriminate].
Defined.
